(** * poolmon analyzer (analyze.py): a shallow embedding and its properties

    The development follows the class [PoolEntries] of [analyze.py]:
    encoding detection, the per-snapshot totals row, the one-shot
    consolidation [digest], the readers, the two tag selections and the
    validation done by [do_plot].

    pandas tables are modelled column-wise with the column kinds the
    ingestion of poolmon CSV files produces ([int64], [float64], [object],
    [datetime64[ns]]); 64-bit integer arithmetic wraps around. *)

From Stdlib Require Import ZArith Lia List Bool Strings.Byte PrimFloat Permutation Sorted.
From stdpp Require Import base list strings gmap sorting.

Local Open Scope Z_scope.

(** ** Outcomes of a call *)

(** The exceptions the modelled code can end with. *)
Inductive exn : Type :=
  | DigestCalledAgain      (* Exception("digest() called again") *)
  | InvalidTimestampTag    (* Exception('Invalid timestamp tag') *)
  | InvalidColumnName      (* Exception('Invalid column name') *)
  | KeyError               (* missing row label or column name *)
  | ValueError             (* pd.concat of no objects *)
  | TypeError              (* None subscripted, datetime + datetime *)
  | AttributeError         (* None.append *)
  | FileNotFoundError.     (* open() of a missing file *)

(** A call returns, raises, or leaves the modelled fragment of pandas
    ([Unmodelled]: tables of differing schemas, arithmetic on text). *)
Inductive outcome (A : Type) : Type :=
  | Ok (a : A)
  | Raise (e : exn)
  | Unmodelled.
Arguments Ok {A} a.
Arguments Raise {A} e.
Arguments Unmodelled {A}.

#[global] Instance outcome_ret : MRet outcome := fun A a => Ok a.
#[global] Instance outcome_bind : MBind outcome := fun A B k m =>
  match m with
  | Ok a => k a
  | Raise e => Raise e
  | Unmodelled => Unmodelled
  end.

(** ** Encoding detection *)

Module Codecs.

Inductive byteorder := little | big.

Definition BOM_UTF8 : list byte := [xef; xbb; xbf].
Definition BOM_UTF16_LE : list byte := [xff; xfe].
Definition BOM_UTF16_BE : list byte := [xfe; xff].
Definition BOM_UTF32_LE : list byte := [xff; xfe; x00; x00].
Definition BOM_UTF32_BE : list byte := [x00; x00; xfe; xff].

(** [codecs.BOM_UTF16] is the mark of the host's native byte order. *)
Definition BOM_UTF16 (host : byteorder) : list byte :=
  match host with little => BOM_UTF16_LE | big => BOM_UTF16_BE end.

(** [bytes.startswith] *)
Fixpoint startswith (data bom : list byte) {struct bom} : bool :=
  match bom, data with
  | [], _ => true
  | b :: bom', d :: data' => Byte.eqb d b && startswith data' bom'
  | _ :: _, [] => false
  end.

End Codecs.

Section Encoding.
Import Codecs.

(** The host's byte order, which fixes [codecs.BOM_UTF16]. *)
Variable host : byteorder.

Definition BOMS : list (list byte * string) :=
  [ (BOM_UTF8, "utf-8");
    (BOM_UTF16 host, "utf-16");
    (BOM_UTF32_BE, "utf-32be");
    (BOM_UTF32_LE, "utf-32le");
    (BOM_UTF16_BE, "utf-16be");
    (BOM_UTF16_LE, "utf-16le") ]%string.

(** The body of the [with] block of [GetEncoding], on the file's bytes:
    the first matching entry of [BOMS], [utf-8] when the list
    comprehension is empty (the [IndexError] is swallowed). *)
Definition guess_encoding (content : list byte) : string :=
  let fbytes := take 64 content in
  match List.filter (fun be => startswith fbytes be.1) BOMS with
  | be :: _ => be.2
  | [] => "utf-8"%string
  end.

(** [GetEncoding]: the file system maps a name to the file's bytes. *)
Definition GetEncoding (fs : gmap string (list byte)) (filename : string)
  : outcome string :=
  match fs !! filename with
  | None => Raise FileNotFoundError
  | Some content => Ok (guess_encoding content)
  end.

End Encoding.

(** ** Tables *)

(** A scalar: what a cell of a table or an entry of a row Series holds. *)
Inductive cell : Type :=
  | CInt (z : Z)          (* int64 *)
  | CFloat (f : float)    (* float64, NaN included *)
  | CStr (s : string)     (* text *)
  | CTime (t : Z).        (* Timestamp, nanoseconds since the epoch *)

(** A column with its dtype. *)
Inductive column : Type :=
  | IntCol (xs : list Z)
  | FloatCol (xs : list float)
  | ObjCol (xs : list cell)
  | TimeCol (xs : list Z).

(** [str(dtype)] *)
Definition dtype_str (c : column) : string :=
  match c with
  | IntCol _ => "int64"
  | FloatCol _ => "float64"
  | ObjCol _ => "object"
  | TimeCol _ => "datetime64[ns]"
  end.

Definition cells (c : column) : list cell :=
  match c with
  | IntCol xs => CInt <$> xs
  | FloatCol xs => CFloat <$> xs
  | ObjCol xs => xs
  | TimeCol xs => CTime <$> xs
  end.

(** A DataFrame: named columns in order, rows labelled 0, 1, 2, ... *)
Definition DataFrame : Type := list (string * column).

(** A row as a Series: the column names are its index. *)
Definition Series : Type := list (string * cell).

Definition columns (df : DataFrame) : list string := df.*1.

Definition nrows (df : DataFrame) : nat :=
  match df with
  | [] => 0%nat
  | (_, c) :: _ => length (cells c)
  end.

(** [df[name]] *)
Fixpoint getcol (df : DataFrame) (name : string) : outcome column :=
  match df with
  | [] => Raise KeyError
  | (n, c) :: df' => if String.eqb n name then Ok c else getcol df' name
  end.

(** ** 64-bit integers *)

Definition wrap64 (z : Z) : Z := (z + 2 ^ 63) mod 2 ^ 64 - 2 ^ 63.
Definition add64 (a b : Z) : Z := wrap64 (a + b).
Definition sub64 (a b : Z) : Z := wrap64 (a - b).

(** [Series.sum()] of an int64 column: accumulation in int64. *)
Definition sum64 (xs : list Z) : Z := fold_left add64 xs 0.

(** ** Normalization: [add_totals_row] *)

(** [df.loc[0]]: the row labelled 0; [KeyError] when there is none. *)
Definition loc0 (df : DataFrame) : outcome Series :=
  match df with
  | [] => Raise KeyError
  | _ =>
      mapM (fun nc : string * column =>
              match cells nc.2 !! 0%nat with
              | Some x => Ok (nc.1, x)
              | None => Raise KeyError
              end) df
  end.

(** [series[name] = v]: overwrite the entry, or add it at the end. *)
Fixpoint series_set (s : Series) (name : string) (v : cell) : Series :=
  match s with
  | [] => [(name, v)]
  | (n, x) :: s' =>
      if String.eqb n name then (n, v) :: s' else (n, x) :: series_set s' name v
  end.

Fixpoint series_get (s : Series) (name : string) : option cell :=
  match s with
  | [] => None
  | (n, x) :: s' => if String.eqb n name then Some x else series_get s' name
  end.

(** [df[colname].sum()]; only int64 columns are summed by the program. *)
Definition column_sum (df : DataFrame) (colname : string) : outcome cell :=
  c ← getcol df colname;
  match c with
  | IntCol xs => Ok (CInt (sum64 xs))
  | _ => Unmodelled
  end.

(** The loop over [column_types.items()]. *)
Fixpoint sum_int_columns (df : DataFrame) (column_types : list (string * string))
    (total_row_series : Series) : outcome Series :=
  match column_types with
  | [] => Ok total_row_series
  | (colname, coltype) :: rest =>
      if String.prefix "int" coltype then
        t ← column_sum df colname;
        sum_int_columns df rest (series_set total_row_series colname t)
      else sum_int_columns df rest total_row_series
  end.

(** One more value at the bottom of a column.  A value of the column's
    own kind keeps the dtype; anything else (the text TOTAL under a
    non-text Tag column) leaves an object column. *)
Definition append_cell (c : column) (v : cell) : column :=
  match c, v with
  | IntCol xs, CInt z => IntCol (xs ++ [z])
  | FloatCol xs, CFloat f => FloatCol (xs ++ [f])
  | TimeCol xs, CTime t => TimeCol (xs ++ [t])
  | _, _ => ObjCol (cells c ++ [v])
  end.

(** [df.append(series, ignore_index=True)]: every column of [df] takes
    the entry of its name (NaN when the Series has none); an entry whose
    name is no column of [df] opens a new object column, NaN above. *)
Definition append_row (df : DataFrame) (s : Series) : DataFrame :=
  ((fun nc : string * column =>
      (nc.1, append_cell nc.2 (default (CFloat nan) (series_get s nc.1)))) <$> df)
  ++ ((fun nv : string * cell =>
         (nv.1, ObjCol (replicate (nrows df) (CFloat nan) ++ [nv.2])))
        <$> List.filter (fun nv => negb (bool_decide (nv.1 ∈ columns df))) s).

Definition add_totals_row (df : DataFrame) : outcome DataFrame :=
  let column_types := (fun nc : string * column => (nc.1, dtype_str nc.2)) <$> df in
  total_row_series ← loc0 df;
  let total_row_series := series_set total_row_series "Tag" (CStr "TOTAL") in
  total_row_series ← sum_int_columns df column_types total_row_series;
  Ok (append_row df total_row_series).

(** ** Sorting: what [sort_values] runs

    The program calls [sort_values] without a [kind], so pandas takes its
    default [kind='quicksort'] and hands the key column to NumPy's
    [argsort]: the introsort of npysort ([aquicksort], with [aheapsort]
    once the depth limit is spent), working on an array of row positions
    [tosort] and comparing the keys [v[tosort[k]]]. *)

Module Npysort.
Section Keys.

(** [v[i]], the key of row [i]. *)
Variable v : nat -> Z.

(** [LT(v[i], v[j])] *)
Definition LT (i j : nat) : bool := v i <? v j.

(** [INTP_SWAP(a[i], a[j])] *)
Definition swap (a : list nat) (i j : nat) : list nat :=
  <[i := a !!! j]> (<[j := a !!! i]> a).

(** *** Insertion sort, for ranges of at most 17 positions

    [ins_shift a vi pj]: the inner [while (pj > pl && LT(vp, v[*pk]))]
    loop moving larger entries one place up, then [*pj = vi]. *)
Fixpoint ins_shift (a : list nat) (vi : nat) (pj : nat) : list nat :=
  match pj with
  | O => <[O := vi]> a
  | S pk =>
      if LT vi (a !!! pk) then ins_shift (<[pj := a !!! pk]> a) vi pk
      else <[pj := vi]> a
  end.

(** [for (pi = pl + 1; pi <= pr; ++pi)] *)
Definition insertion_sort (a : list nat) : list nat :=
  foldl (fun a pi => ins_shift a (a !!! pi) pi) a (seq 1 (length a - 1)).

(** *** Heap sort, the fallback; the C code indexes from 1 *)

Definition rd1 (a : list nat) (k : nat) : nat := a !!! (k - 1)%nat.
Definition wr1 (a : list nat) (k : nat) (x : nat) : list nat :=
  <[(k - 1)%nat := x]> a.

(** [for (i = .., j = ..; j <= n;) { ... } a[i] = tmp;] *)
Fixpoint sift (fuel : nat) (a : list nat) (tmp i j n : nat) : list nat :=
  match fuel with
  | O => wr1 a i tmp
  | S fuel' =>
      if (j <=? n)%nat then
        let j := if (j <? n)%nat && LT (rd1 a j) (rd1 a (j + 1)) then (j + 1)%nat else j in
        if LT tmp (rd1 a j) then sift fuel' (wr1 a i (rd1 a j)) tmp j (j + j)%nat n
        else wr1 a i tmp
      else wr1 a i tmp
  end.

(** [for (l = n>>1; l > 0; --l)] *)
Fixpoint heapify (l : nat) (a : list nat) (n : nat) : list nat :=
  match l with
  | O => a
  | S l' => heapify l' (sift n a (rd1 a l) l (l + l)%nat n) n
  end.

(** [for (; n > 1;)]: [m] is the value of [n] at the head of a round. *)
Fixpoint extract (m : nat) (a : list nat) : list nat :=
  match m with
  | O => a
  | S m' =>
      if (1 <? m)%nat then
        let tmp := rd1 a m in
        let a := wr1 a m (rd1 a 1) in
        extract m' (sift m a tmp 1 2 m')
      else a
  end.

Definition aheapsort (a : list nat) : list nat :=
  let n := length a in
  extract n (heapify (n / 2) a n).

(** *** Quicksort partition of a range of more than 17 positions *)

(** [do ++pi; while (LT(v[*pi], vp));] *)
Fixpoint scan_up (fuel : nat) (a : list nat) (p pi : nat) : nat :=
  match fuel with
  | O => S pi
  | S fuel' => if LT (a !!! S pi) p then scan_up fuel' a p (S pi) else S pi
  end.

(** [do --pj; while (LT(vp, v[*pj]));] *)
Fixpoint scan_down (a : list nat) (p pj : nat) : nat :=
  match pj with
  | O => O
  | S pj' => if LT p (a !!! pj') then scan_down a p pj' else pj'
  end.

(** The [for (;;)] loop: scan, stop when the pointers meet, swap. *)
Fixpoint hoare (fuel : nat) (a : list nat) (p pi pj : nat) : list nat * nat :=
  match fuel with
  | O => (a, pi)
  | S fuel' =>
      let pi := scan_up (length a) a p pi in
      let pj := scan_down a p pj in
      if (pj <=? pi)%nat then (a, pi)
      else hoare fuel' (swap a pi pj) p pi pj
  end.

(** Median of three, pivot parked at [pr - 1], the scans, pivot put in
    place.  Returns the array and the pivot's position [pi]. *)
Definition partition (a : list nat) : list nat * nat :=
  let pl := 0%nat in
  let pr := (length a - 1)%nat in
  let pm := (pl + (pr - pl) / 2)%nat in
  let a := if LT (a !!! pm) (a !!! pl) then swap a pm pl else a in
  let a := if LT (a !!! pr) (a !!! pm) then swap a pr pm else a in
  let a := if LT (a !!! pm) (a !!! pl) then swap a pm pl else a in
  let p := a !!! pm in
  let a := swap a pm (pr - 1) in
  let '(a, pi) := hoare (length a) a p pl (pr - 1)%nat in
  (swap a pi (pr - 1), pi).

Definition SMALL_QUICKSORT : nat := 16.

(** *** The driver

    One range [pl..pr] is the list of its entries.  The C loop keeps
    partitioning the smaller part and pushes the larger one with the
    decremented depth; a popped range starts at the head of the outer
    loop, where the depth is tested ([popped]); the ranges are disjoint,
    so each is sorted on its own. *)
Fixpoint aquicksort_range (fuel : nat) (popped : bool) (cdepth : Z)
    (a : list nat) : list nat :=
  match fuel with
  | O => a
  | S fuel' =>
      if popped && (cdepth <? 0) then aheapsort a
      else if (SMALL_QUICKSORT <? length a - 1)%nat then
        let '(a', pi) := partition a in
        let cdepth := cdepth - 1 in
        let lo := take pi a' in
        let hi := drop (S pi) a' in
        if (pi <? length a - 1 - pi)%nat
        then aquicksort_range fuel' false cdepth lo
               ++ a' !!! pi :: aquicksort_range fuel' true cdepth hi
        else aquicksort_range fuel' true cdepth lo
               ++ a' !!! pi :: aquicksort_range fuel' false cdepth hi
      else insertion_sort a
  end.

(** [npy_get_msb]: the position of the highest set bit. *)
Definition npy_get_msb (num : nat) : Z := Z.log2 (Z.of_nat num).

Definition aquicksort (tosort : list nat) : list nat :=
  let num := length tosort in
  aquicksort_range (S num) true (npy_get_msb num * 2) tosort.

End Keys.

(** [keys.argsort(kind='quicksort')] *)
Definition argsort (keys : list Z) : list nat :=
aquicksort (fun i => keys !!! i) (seq 0 (length keys)).

End Npysort.

(** [nargsort(keys, kind='quicksort', ascending)] on keys without NaN or
    NaT: a descending order is the ascending argsort of the reversed
    keys, read backwards. *)
Definition nargsort (keys : list Z) (ascending : bool) : list nat :=
  let idx := seq 0 (length keys) in
  if ascending then (fun k => idx !!! k) <$> Npysort.argsort keys
  else reverse ((fun k => reverse idx !!! k) <$> Npysort.argsort (reverse keys)).

(** ** Whole-table operations *)

(** [xs.take(indexer)] *)
Definition take_rows {A} (indexer : list nat) (xs : list A) : list A :=
  omap (fun i => xs !! i) indexer.

(** [xs[mask]] *)
Fixpoint mask_rows {A} (mask : list bool) (xs : list A) : list A :=
  match mask, xs with
  | b :: mask', x :: xs' => if b then x :: mask_rows mask' xs' else mask_rows mask' xs'
  | _, _ => []
  end.

Definition column_map (f : forall A, list A -> list A) (c : column) : column :=
  match c with
  | IntCol xs => IntCol (f _ xs)
  | FloatCol xs => FloatCol (f _ xs)
  | ObjCol xs => ObjCol (f _ xs)
  | TimeCol xs => TimeCol (f _ xs)
  end.

Definition frame_map (f : forall A, list A -> list A) (df : DataFrame) : DataFrame :=
  (fun nc : string * column => (nc.1, column_map f nc.2)) <$> df.

(** [df[name] = c]: replace the column in place, or add it as the last. *)
Fixpoint setcol (df : DataFrame) (name : string) (c : column) : DataFrame :=
  match df with
  | [] => [(name, c)]
  | (n, c0) :: df' =>
      if String.eqb n name then (n, c) :: df' else (n, c0) :: setcol df' name c
  end.

Definition same_kind (c d : column) : bool :=
  match c, d with
  | IntCol _, IntCol _ | FloatCol _, FloatCol _
  | ObjCol _, ObjCol _ | TimeCol _, TimeCol _ => true
  | _, _ => false
  end.

(** Two tables of one schema: the same column names in the same order,
    each with the same dtype. *)
Fixpoint same_schema (a b : DataFrame) : bool :=
  match a, b with
  | [], [] => true
  | (n, c) :: a', (m, d) :: b' => String.eqb n m && same_kind c d && same_schema a' b'
  | _, _ => false
  end.

Definition column_app (c d : column) : column :=
  match c, d with
  | IntCol xs, IntCol ys => IntCol (xs ++ ys)
  | FloatCol xs, FloatCol ys => FloatCol (xs ++ ys)
  | TimeCol xs, TimeCol ys => TimeCol (xs ++ ys)
  | _, _ => ObjCol (cells c ++ cells d)
  end.

Definition frame_app (a b : DataFrame) : DataFrame :=
  zip_with (fun nc md : string * column => (nc.1, column_app nc.2 md.2)) a b.

Fixpoint concat_from (acc : DataFrame) (dfs : list DataFrame) : outcome DataFrame :=
  match dfs with
  | [] => Ok acc
  | d :: dfs' =>
      if same_schema acc d then concat_from (frame_app acc d) dfs' else Unmodelled
  end.

(** [pd.concat(dfs)] for tables of one schema; no table at all is a
    [ValueError]. *)
Definition concat (dfs : list DataFrame) : outcome DataFrame :=
  match dfs with
  | [] => Raise ValueError
  | d :: dfs' => concat_from d dfs'
  end.

(** [c + d] on two columns of one numeric dtype.  Timestamps cannot be
    added; mixed and object operands are outside the model. *)
Definition column_add (c d : column) : outcome column :=
  match c, d with
  | IntCol xs, IntCol ys => Ok (IntCol (zip_with add64 xs ys))
  | FloatCol xs, FloatCol ys => Ok (FloatCol (zip_with PrimFloat.add xs ys))
  | TimeCol _, _ | _, TimeCol _ => Raise TypeError
  | _, _ => Unmodelled
  end.

(** [df.sort_values(by, ascending=True, ignore_index=True)] on a
    timestamp column. *)
Definition sort_values (df : DataFrame) (by_ : option string) : outcome DataFrame :=
  match by_ with
  | None => Raise KeyError
  | Some name =>
      k ← getcol df name;
      match k with
      | TimeCol keys =>
          let indexer := nargsort keys true in
          Ok (frame_map (fun A => take_rows indexer) df)
      | _ => Unmodelled
      end
  end.

(** ** The pipeline object and the state around it *)

(** The attributes of a [PoolEntries] instance; [None] is Python's. *)
Record PoolEntries : Type := mkPoolEntries {
  individual_data_frames : option (list DataFrame);
  pool_entries : option DataFrame;
  digest_called : bool
}.

(** [PoolEntries()] *)
Definition new_PoolEntries : PoolEntries :=
  {| individual_data_frames := Some []; pool_entries := None; digest_called := false |}.

(** What reaches the plotting library. *)
Inductive event : Type :=
  | RcParamsUpdate
  | Print (msg : string)
  | Render (title : string) (tags : list string)
  | Show.

(** The state a method call runs in: the instance, the list objects the
    caller and the function defaults hold (by identity), and the calls
    made to the plotting library so far. *)
Record world : Type := mkWorld {
  self : PoolEntries;
  lists : gmap nat (list string);
  plots : list event
}.

(** An argument that is expected to be a list: [None], a list object, or
    a value of another type. *)
Inductive pyarg : Type :=
  | ArgNone
  | ArgList (l : nat)
  | ArgOther.

(** The list objects created once, by the [def] statements, for
    [ignore_tags:list=[]]. *)
Definition get_highest_tags_default : nat := 0%nat.
Definition get_most_changed_tags_default : nat := 1%nat.

(** A program: runs in a world, ends with an outcome and a world. *)
Definition prog (A : Type) : Type := world -> outcome A * world.

#[global] Instance prog_ret : MRet prog := fun A a w => (Ok a, w).
#[global] Instance prog_bind : MBind prog := fun A B k m w =>
  match m w with
  | (Ok a, w') => k a w'
  | (Raise e, w') => (Raise e, w')
  | (Unmodelled, w') => (Unmodelled, w')
  end.

Definition lift {A} (o : outcome A) : prog A := fun w => (o, w).
Definition raise {A} (e : exn) : prog A := lift (Raise e).
Definition get_self : prog PoolEntries := fun w => (Ok (self w), w).
Definition set_self (p : PoolEntries) : prog unit :=
  fun w => (Ok tt, {| self := p; lists := lists w; plots := plots w |}).

Definition set_digest_called (b : bool) : prog unit :=
  me ← get_self;
  set_self {| individual_data_frames := individual_data_frames me;
              pool_entries := pool_entries me; digest_called := b |}.
Definition set_pool_entries (p : option DataFrame) : prog unit :=
  me ← get_self;
  set_self {| individual_data_frames := individual_data_frames me;
              pool_entries := p; digest_called := digest_called me |}.
Definition set_individual_data_frames (fs : option (list DataFrame)) : prog unit :=
  me ← get_self;
  set_self {| individual_data_frames := fs;
              pool_entries := pool_entries me; digest_called := digest_called me |}.

Definition emit (e : event) : prog unit :=
  fun w => (Ok tt, {| self := self w; lists := lists w; plots := plots w ++ [e] |}).

(** ** Ingestion

    [add_csv_file], from the table that [pd.read_csv] and the two
    [pd.to_datetime] calls deliver for the file: it joins the buffer. *)
Definition add_csv_file (df : DataFrame) : prog unit :=
  me ← get_self;
  match individual_data_frames me with
  | Some fs => set_individual_data_frames (Some (fs ++ [df]))
  | None => raise AttributeError
  end.

(** ** Consolidation: [digest] *)

(** The scan for the timestamp column: the last name whose dtype string
    starts with [datetime] stays in [date_col_name]. *)
Definition find_date_col (col_types : list (string * string)) : option string :=
  foldl (fun date_col_name ct =>
           if String.prefix "datetime" ct.2 then Some ct.1 else date_col_name)
        None col_types.

Definition digest : prog DataFrame :=
  me ← get_self;
  if digest_called me then raise DigestCalledAgain
  else
    set_digest_called true;;
    frames ← match individual_data_frames me with
             | Some fs => mret fs
             | None => raise TypeError
             end;
    all_dfs ← lift (mapM add_totals_row frames);
    pool ← lift (concat all_dfs);
    set_pool_entries (Some pool);;
    set_individual_data_frames None;;
    let df := default [] (last all_dfs) in
    col_types ← lift (mapM (fun i => c ← getcol pool i; Ok (i, dtype_str c)) (columns df));
    let date_col_name := find_date_col col_types in
    pool ← lift (sort_values pool date_col_name);
    set_pool_entries (Some pool);;
    paged ← lift (getcol pool "PagedDiff");
    nonpaged ← lift (getcol pool "NonPagedDiff");
    total ← lift (column_add paged nonpaged);
    let pool := setcol pool "TotalDiff" total in
    set_pool_entries (Some pool);;
    mret pool.

(** ** Readers *)

(** [get_df]; the result may be Python's [None]. *)
Definition get_df : prog (option DataFrame) :=
  me ← get_self;
  (if digest_called me then mret tt else (digest;; mret tt));;
  me ← get_self;
  mret (pool_entries me).

Definition str_cells (xs : list cell) : option (list string) :=
  mapM (fun c => match c with CStr s => Some s | _ => None end) xs.

(** [Series.unique()]: first occurrences, in order of appearance. *)
Fixpoint unique_from (seen xs : list string) : list string :=
  match xs with
  | [] => []
  | x :: xs' =>
      if bool_decide (x ∈ seen) then unique_from seen xs'
      else x :: unique_from (x :: seen) xs'
  end.
Definition unique (xs : list string) : list string := unique_from [] xs.

(** [self.pool_entries[name]] *)
Definition pool_col (name : string) : prog column :=
  me ← get_self;
  match pool_entries me with
  | None => raise TypeError
  | Some pool => lift (getcol pool name)
  end.

Definition get_all_tags : prog (list string) :=
  me ← get_self;
  (if digest_called me then mret tt else (digest;; mret tt));;
  tag ← pool_col "Tag";
  match str_cells (cells tag) with
  | Some tags => mret (unique tags)
  | None => lift Unmodelled
  end.

(** ** Selection *)

(** The first lines of both selections: anything but a list object is
    replaced by a fresh [[]]; then [ignore_tags.append('TOTAL')] on the
    object itself.  Returns the content after the append. *)
Definition ignore_with_total (ignore_tags : pyarg) : prog (list string) :=
  fun w =>
    match ignore_tags with
    | ArgList l =>
        let now := default [] (lists w !! l) ++ ["TOTAL"] in
        (Ok now, {| self := self w; lists := <[l := now]> (lists w); plots := plots w |})
    | _ => (Ok ["TOTAL"], w)
    end.

(** [Series.isin(values)] on the cells of a column. *)
Definition isin (values : list string) (c : cell) : bool :=
  match c with
  | CStr s => bool_decide (s ∈ values)
  | _ => false
  end.

(** The group keys of [groupby(['Tag'])]: the distinct tags, sorted. *)
Fixpoint insert_key (k : string) (ks : list string) : list string :=
  match ks with
  | [] => [k]
  | k' :: ks' =>
      if String.eqb k k' then ks
      else if String.ltb k k' then k :: ks
      else k' :: insert_key k ks'
  end.
Definition group_keys (tags : list string) : list string :=
  foldr insert_key [] tags.

(** The values of one group, in the table's row order. *)
Definition group_rows (tags : list string) (vals : list Z) (key : string) : list Z :=
  (zip tags vals ≫= fun tv => if String.eqb tv.1 key then [tv.2] else []).

(** [groupby(['Tag']).agg(f)] over an int64 column. *)
Definition groupby_agg (f : list Z -> Z) (tags : list string) (vals : list Z)
  : list (string * Z) :=
  (fun key => (key, f (group_rows tags vals key))) <$> group_keys tags.

(** [.max()] of a group *)
Definition agg_max (xs : list Z) : Z :=
  match xs with
  | [] => 0
  | x :: xs' => foldl Z.max x xs'
  end.

(** [get_change]: [x.to_numpy()[[0,-1]]], then [last - first] in int64. *)
Definition get_change (xs : list Z) : Z :=
  let first := default 0 (head xs) in
  let last_ := default 0 (last xs) in
  sub64 last_ first.

(** [.head(n)] *)
Definition head_rows {A} (n : Z) (xs : list A) : list A :=
  if n <? 0 then take (length xs - Z.to_nat (- n)) xs else take (Z.to_nat n) xs.

(** [.sort_values([by_col], ascending=False).head(n_tags)], then the
    names of the rows left. *)
Definition top_names (groups : list (string * Z)) (n_tags : Z) : list string :=
  let indexer := nargsort groups.*2 false in
  (head_rows n_tags (take_rows indexer groups)).*1.

(** What both selections share after the append: the row filter, the
    two-column projection, the grouping with aggregate [f], the ranking. *)
Definition select_tags (f : list Z -> Z) (n_tags : Z) (by_col : string)
    (ignore : list string) : prog (list string) :=
  tag ← pool_col "Tag";
  let keep := (fun c => negb (isin ignore c)) <$> cells tag in
  me ← get_self;
  let reduced_df := frame_map (fun A => mask_rows keep) (default [] (pool_entries me)) in
  tag ← lift (getcol reduced_df "Tag");
  col ← lift (getcol reduced_df by_col);
  if String.eqb by_col "Tag" then lift Unmodelled
  else
    match str_cells (cells tag), col with
    | Some tags, IntCol vals => mret (top_names (groupby_agg f tags vals) n_tags)
    | _, _ => lift Unmodelled
    end.

(** [ignore_tags = None] here stands for an omitted argument: the
    function's own default list object is used. *)
Definition get_highest_tags (n_tags : Z) (by_col : string)
    (ignore_tags : option pyarg) : prog (list string) :=
  let ignore_tags := default (ArgList get_highest_tags_default) ignore_tags in
  ignore ← ignore_with_total ignore_tags;
  select_tags agg_max n_tags by_col ignore.

Definition get_most_changed_tags (n_tags : Z) (by_col : string)
    (ignore_tags : option pyarg) : prog (list string) :=
  let ignore_tags := default (ArgList get_most_changed_tags_default) ignore_tags in
  ignore ← ignore_with_total ignore_tags;
  select_tags get_change n_tags by_col ignore.

(** ** Reporting *)

Definition valid_timestamp_tags : list string := ["DateTime"; "DateTimeUTC"].
Definition valid_cols : list string :=
  ["TotalUsedBytes"; "PagedDiff"; "NonPagedDiff";
   "TotalDiff"; "PagedUsedBytes"; "NonPagedUsedBytes"].

Definition endswith (s suffix : string) : bool :=
  String.prefix (String.rev suffix) (String.rev s).

(** [show_plot]: the two checks, the optional [rcParams] update, the
    selection of rows and columns, then the drawing, which is the
    plotting library's. *)
Definition show_plot (tags : list string) (timestamp_tag by_col : string)
    (rcparams : bool) : prog unit :=
  if negb (bool_decide (timestamp_tag ∈ valid_timestamp_tags)) then raise InvalidTimestampTag
  else if negb (bool_decide (by_col ∈ valid_cols)) then raise InvalidColumnName
  else
    (if rcparams then emit RcParamsUpdate else mret tt);;
    tag ← pool_col "Tag";
    me ← get_self;
    let reduced_df :=
      frame_map (fun A => mask_rows (isin tags <$> cells tag)) (default [] (pool_entries me)) in
    lift (getcol reduced_df "Tag");;
    lift (getcol reduced_df by_col);;
    lift (getcol reduced_df "DateTimeUTC");;
    let title := if endswith by_col "Bytes" then by_col +:+ " (MB)"
                 else by_col +:+ " (n_allocs)" in
    emit (Print "just about to plot");;
    emit (Render title tags);;
    emit Show.

(** [for t in ts: if t not in all_tags: all_tags.append(t)] *)
Definition add_new (all_tags ts : list string) : list string :=
  foldl (fun acc t => if bool_decide (t ∈ acc) then acc else acc ++ [t]) all_tags ts.

(** [rcparams] is kept as: was a dict given.  Here [ignore_tags] and
    [include_tags] default to [None]. *)
Definition do_plot (by_col timestamp_tag : string) (ignore_tags include_tags : pyarg)
    (rcparams : bool) (n_most_changed n_highest : Z) : prog unit :=
  if negb (bool_decide (timestamp_tag ∈ valid_timestamp_tags)) then raise InvalidTimestampTag
  else if negb (bool_decide (by_col ∈ valid_cols)) then raise InvalidColumnName
  else
    include_tags ← (fun w =>
       (Ok match include_tags with
           | ArgList l => default [] (lists w !! l)
           | _ => []
           end, w));
    me ← get_self;
    (if digest_called me then mret tt else (digest;; mret tt));;
    most_changed_tags ←
      (if 0 <? n_most_changed
       then get_most_changed_tags n_most_changed by_col (Some ignore_tags)
       else mret []);
    highest_tags ←
      (if 0 <? n_highest
       then get_highest_tags n_highest by_col (Some ignore_tags)
       else mret []);
    let all_tags := ["TOTAL"] in
    let all_tags := add_new all_tags include_tags in
    let all_tags := add_new all_tags most_changed_tags in
    let all_tags := add_new all_tags highest_tags in
    show_plot all_tags timestamp_tag by_col rcparams.

(** A run of unrelated calls that leave [ignore_tags] out, each with its
    own [n_tags] and [by_col]; a call may return or raise. *)
Definition highest_calls (args : list (Z * string)) (w : world) : world :=
  foldl (fun w a => (get_highest_tags a.1 a.2 None w).2) w args.
Definition most_changed_calls (args : list (Z * string)) (w : world) : world :=
  foldl (fun w a => (get_most_changed_tags a.1 a.2 None w).2) w args.

(** ** Fixtures *)

(** One poolmon snapshot taken at instant [t]: per tag, its [PagedDiff],
    [NonPagedDiff] and [TotalUsedBytes]. *)
Definition snapshot (t : Z) (rows : list (string * (Z * Z * Z))) : DataFrame :=
  [ ("DateTime", TimeCol ((fun _ => t) <$> rows));
    ("DateTimeUTC", TimeCol ((fun _ => t) <$> rows));
    ("Tag", ObjCol ((fun r => CStr r.1) <$> rows));
    ("PagedDiff", IntCol ((fun r => r.2.1.1) <$> rows));
    ("NonPagedDiff", IntCol ((fun r => r.2.1.2) <$> rows));
    ("TotalUsedBytes", IntCol ((fun r => r.2.2) <$> rows)) ].

(** A fresh interpreter state around a pipeline: both default lists
    empty, nothing plotted. *)
Definition world_of (p : PoolEntries) : world :=
  {| self := p;
     lists := {[ get_highest_tags_default := []; get_most_changed_tags_default := [] ]};
     plots := [] |}.

(** The pipeline after [add_csv_file] of the given tables. *)
Definition ingested (frames : list DataFrame) : PoolEntries :=
  {| individual_data_frames := Some frames; pool_entries := None; digest_called := false |}.

(** Tags A, B, C peaking at 500, 900, 300 bytes; TOTAL peaks at 1700. *)
Definition peaks_fixture : world :=
  world_of (ingested
    [ snapshot 1 [("A", (1, 1, 100)); ("B", (2, 1, 200)); ("C", (3, 1, 50))];
      snapshot 2 [("A", (1, 2, 500)); ("B", (2, 2, 900)); ("C", (3, 2, 300))];
      snapshot 3 [("A", (1, 3, 400)); ("B", (2, 3, 800)); ("C", (3, 3, 300))] ]).

(** Tag X goes 10, 10, 90 in [PagedDiff]; tag Y goes 5, 50, 5. *)
Definition change_fixture : world :=
  world_of (ingested
    [ snapshot 1 [("X", (10, 0, 1)); ("Y", (5, 0, 1))];
      snapshot 2 [("X", (10, 0, 1)); ("Y", (50, 0, 1))];
      snapshot 3 [("X", (90, 0, 1)); ("Y", (5, 0, 1))] ]).

(** One snapshot in which the two counters of tag A add up to 2^63. *)
Definition overflow_fixture : world :=
  world_of (ingested [ snapshot 1 [("A", (2 ^ 63 - 1, 1, 0))] ]).

(** Tag Rise goes from -1 to 2^63 - 1 in [PagedDiff], tag Fall from 5
    to 4. *)
Definition rise_fall_fixture : world :=
  world_of (ingested
    [ snapshot 1 [("Rise", (-1, 0, 1)); ("Fall", (5, 0, 1))];
      snapshot 2 [("Rise", (2 ^ 63 - 1, 0, 1)); ("Fall", (4, 0, 1))] ]).

(** ** Well-formed tables *)

(** Every column has as many cells as the table has rows. *)
Definition rectangular (df : DataFrame) : Prop :=
  Forall (fun nc : string * column => length (cells nc.2) = nrows df) df.

(** [str(df.dtypes[name])], when the column exists. *)
Definition dtype_of (df : DataFrame) (name : string) : option string :=
  match getcol df name with
  | Ok c => Some (dtype_str c)
  | _ => None
  end.

(** A Snapshot Table of the data model: distinct column names, a text
    Tag, the two timestamps, and at least the two integer counters that
    consolidation adds up. *)
Definition snapshot_table (df : DataFrame) : Prop :=
  NoDup (columns df) /\ rectangular df
  /\ dtype_of df "Tag" = Some "object"
  /\ dtype_of df "DateTime" = Some "datetime64[ns]"
  /\ dtype_of df "DateTimeUTC" = Some "datetime64[ns]"
  /\ dtype_of df "PagedDiff" = Some "int64"
  /\ dtype_of df "NonPagedDiff" = Some "int64".

(** The cell of a table at a column name and a row position. *)
Definition getcell (df : DataFrame) (name : string) (i : nat) : option cell :=
  match getcol df name with
  | Ok c => cells c !! i
  | _ => None
  end.

(** The Total Row's entry under one column, as the program leaves it:
    the int64 sum for an int64 column; else TOTAL under Tag; else the
    entry of row 0. *)
Definition total_entry (name : string) (c : column) : cell :=
  match c with
  | IntCol xs => CInt (sum64 xs)
  | _ => if String.eqb name "Tag" then CStr "TOTAL"
         else default (CFloat nan) (cells c !! 0%nat)
  end.

(** The input with its Total Row as the last row. *)
Definition with_total (df : DataFrame) : DataFrame :=
  (fun nc : string * column => (nc.1, append_cell nc.2 (total_entry nc.1 nc.2))) <$> df.

(** The entry of row 0 under a column. *)
Definition row0 (c : column) : cell := default (CFloat nan) (cells c !! 0%nat).

(** One round of the loop over [column_types.items()]. *)
Definition sum_step (s : Series) (nc : string * column) : Series :=
  match nc.2 with
  | IntCol xs => series_set s nc.1 (CInt (sum64 xs))
  | _ => s
  end.

(** The sum of a list of integers, unbounded. *)
Definition Zsum (xs : list Z) : Z := foldr Z.add 0 xs.

(** Is the dtype an integer kind for the program: [coltype.startswith('int')]. *)
Definition int_kind (c : column) : bool := String.prefix "int" (dtype_str c).

(** The values of an int64 column. *)
Definition int_values (c : column) : list Z :=
  match c with
  | IntCol xs => xs
  | _ => []
  end.

(** The names and dtypes of a table, in column order. *)
Definition schema (df : DataFrame) : list (string * string) :=
  (fun nc : string * column => (nc.1, dtype_str nc.2)) <$> df.

(** What [digest] computes from the buffered tables, state apart. *)
Definition consolidate (frames : list DataFrame) : outcome DataFrame :=
  all_dfs ← mapM add_totals_row frames;
  pool ← concat all_dfs;
  let df := default [] (last all_dfs) in
  col_types ← mapM (fun i => c ← getcol pool i; Ok (i, dtype_str c)) (columns df);
  pool ← sort_values pool (find_date_col col_types);
  paged ← getcol pool "PagedDiff";
  nonpaged ← getcol pool "NonPagedDiff";
  total ← column_add paged nonpaged;
  Ok (setcol pool "TotalDiff" total).

(** The instance once [digest] has returned [pool]. *)
Definition digested (pool : DataFrame) : PoolEntries :=
  {| individual_data_frames := None; pool_entries := Some pool; digest_called := true |}.

(** A buffer that [digest] is meant for: at least one table, each a
    Snapshot Table with at least one row, all of one schema. *)
Definition buffer_ok (frames : list DataFrame) : Prop :=
  frames ≠ []
  /\ Forall (fun df => snapshot_table df /\ nrows df ≠ 0%nat) frames
  /\ Forall (fun df => schema df = schema (default [] (head frames))) frames.

(** ** Orders along an indexer *)

(** The keys read through the indexer never go down. *)
Definition ascending_by (keys : list Z) (indexer : list nat) : Prop :=
  forall i j a b, (i < j)%nat -> indexer !! i = Some a -> indexer !! j = Some b ->
    keys !!! a <= keys !!! b.

(** The keys read through the indexer never go up. *)
Definition descending_by (keys : list Z) (indexer : list nat) : Prop :=
  forall i j a b, (i < j)%nat -> indexer !! i = Some a -> indexer !! j = Some b ->
    keys !!! b <= keys !!! a.

(** Rows of equal keys come in their original order. *)
Definition ties_in_order (keys : list Z) (indexer : list nat) : Prop :=
  forall i j a b, (i < j)%nat -> indexer !! i = Some a -> indexer !! j = Some b ->
    keys !!! a = keys !!! b -> (a < b)%nat.

(** Two snapshot files written in the same second, nine tags each. *)
Definition same_second_fixture : world :=
  world_of (ingested
    [ snapshot 7 ((fun t => (t, (1, 1, 1))) <$>
        ["Aa01"; "Aa02"; "Aa03"; "Aa04"; "Aa05"; "Aa06"; "Aa07"; "Aa08"; "Aa09"]);
      snapshot 7 ((fun t => (t, (2, 2, 2))) <$>
        ["Bb01"; "Bb02"; "Bb03"; "Bb04"; "Bb05"; "Bb06"; "Bb07"; "Bb08"; "Bb09"]) ]).

(** A snapshot with a float64 counter next to the integer ones. *)
Definition ratio_fixture : DataFrame :=
  snapshot 4 [("Ntfs", (10, 1, 4096)); ("Pool", (20, 2, 8192))]
  ++ [("HitRatio", FloatCol [0.25%float; 0.5%float])].

(** ** What the selections are asked to return *)

(** The first and the last row of a tag, in the table's row order. *)
Definition first_row (tags : list string) (t : string) (i : nat) : Prop :=
  tags !! i = Some t /\ forall k, (k < i)%nat -> tags !! k ≠ Some t.
Definition last_row (tags : list string) (t : string) (j : nat) : Prop :=
  tags !! j = Some t /\ forall k, (j < k)%nat -> tags !! k ≠ Some t.

(** [m] is the largest value of the column on the rows of tag [t]. *)
Definition peak_of (tags : list string) (vals : list Z) (t : string) (m : Z) : Prop :=
  (exists i, tags !! i = Some t /\ vals !! i = Some m)
  /\ forall i x, tags !! i = Some t -> vals !! i = Some x -> x <= m.

(** [z] is what int64 arithmetic leaves of the integer [exact]: the one
    value in the int64 range that differs from it by a multiple of
    2^64. *)
Definition int64_value (exact z : Z) : Prop :=
  - 2 ^ 63 <= z < 2 ^ 63 /\ exists k, z = exact + k * 2 ^ 64.

(** [delta] is what int64 arithmetic leaves of the value on the last row
    of tag [t] minus the value on its first row. *)
Definition change_of (tags : list string) (vals : list Z) (t : string) (delta : Z) : Prop :=
  exists i j a b,
    first_row tags t i /\ last_row tags t j
    /\ vals !! i = Some a /\ vals !! j = Some b /\ int64_value (b - a) delta.

(** Scores never go up along the list. *)
Definition ranked_by (score : string -> Z) (ranked : list string) : Prop :=
  forall i j a b, (i < j)%nat -> ranked !! i = Some a -> ranked !! j = Some b ->
    score b <= score a.

(** The content, before the call, of the list that a selection takes as
    [ignore_tags]: the caller's list, the function's default list when
    the argument is left out, nothing for [None] or a non-list. *)
Definition ignore_content (w : world) (default_list : nat) (ignore_tags : option pyarg)
  : list string :=
  match default (ArgList default_list) ignore_tags with
  | ArgList l => default [] (lists w !! l)
  | _ => []
  end.

(** ** The sort, list by list

    What the loops of [Npysort] compute, as functions and predicates on
    lists, for the proofs. *)

Module SortSpec.
Section Keys.

Variable v : nat -> Z.

(** Order by key; order by key, then by row position. *)
Definition key_le (x y : nat) : Prop := v x <= v y.
Definition key_before (x y : nat) : Prop :=
  v x < v y \/ (v x = v y /\ (x < y)%nat).

(** [x] put in front of the longest tail of larger keys. *)
Fixpoint ins (x : nat) (l : list nat) : list nat :=
  match l with
  | [] => [x]
  | y :: l' => if forallb (Npysort.LT v x) l then x :: l else y :: ins x l'
  end.

Definition isort (l : list nat) : list nat := foldl (fun acc x => ins x acc) [] l.

(** The heap order on the positions [lo..n] of an array read from 1:
    a child is never above its parent. *)
Definition heap_from (a : list nat) (lo n : nat) : Prop :=
  forall k c, (lo <= k)%nat -> (c = 2 * k \/ c = 2 * k + 1)%nat -> (c <= n)%nat ->
    v (Npysort.rd1 a c) <= v (Npysort.rd1 a k).

(** The heap order around a hole at [i] that waits for [tmp]. *)
Definition hole_ok (a : list nat) (tmp : nat) (lo n i : nat) : Prop :=
  (forall k c, (lo <= k)%nat -> k ≠ i -> (c = 2 * k \/ c = 2 * k + 1)%nat ->
     (c <= n)%nat -> c ≠ i -> v (Npysort.rd1 a c) <= v (Npysort.rd1 a k))
  /\ (forall k, (lo <= k)%nat -> (i = 2 * k \/ i = 2 * k + 1)%nat ->
        v tmp <= v (Npysort.rd1 a k)
        /\ forall c, (c = 2 * i \/ c = 2 * i + 1)%nat -> (c <= n)%nat ->
             v (Npysort.rd1 a c) <= v (Npysort.rd1 a k)).

End Keys.
End SortSpec.

(** A program that leaves the world as it found it. *)
Definition readonly {A} (m : prog A) : Prop := forall w, (m w).2 = w.

(** The strict order of the group keys. *)
Definition key_lt (a b : string) : Prop := String.ltb a b = true.

(** The Tag column of a table is text, with these tags from top to bottom. *)
Definition text_tags (df : DataFrame) (tags : list string) : Prop :=
  getcol df "Tag" = Ok (ObjCol (CStr <$> tags)).

(** The tags a file contributes to the Pool: its own, then TOTAL. *)
Definition tags_with_total (tags : list string) : list string := tags ++ ["TOTAL"].

(** ** The entry points *)

(** [read_directory], from the tables that the files matching
    [dirname/*pool.csv] deliver, in the order [glob.glob] lists them: a
    new instance ingests them one by one, then plots TotalDiff with
    every other argument of [do_plot] at its default. *)
Definition read_directory (files : list DataFrame) : prog unit :=
  set_self new_PoolEntries;;
  foldr (fun df rest => add_csv_file df;; rest) (mret tt) files;;
  do_plot "TotalDiff" "DateTimeUTC" ArgNone ArgNone false 5 5.

(** [main]: [read_directory] of the current directory. *)
Definition main (files : list DataFrame) : prog unit := read_directory files.

(** The state with another instance in place of [self]. *)
Definition with_self (p : PoolEntries) (w : world) : world :=
  {| self := p; lists := lists w; plots := plots w |}.

(** ** Proof tools *)

(** Unfold the state monad and run the program as far as it goes. *)
Ltac run_prog :=
  unfold set_digest_called, set_pool_entries, set_individual_data_frames,
    set_self, get_self, emit, lift, raise, mbind, mret, prog_bind, prog_ret,
    outcome_bind, outcome_ret;
  cbn -[mapM].

(** Case analysis on the next outcome the goal inspects. *)
Ltac case_outcome :=
  match goal with
  | |- context [match ?o with _ => _ end] =>
      lazymatch type of o with
      | outcome _ => destruct o eqn:?
      end
  end.

(** Decide a closed proposition by evaluation. *)
Ltac by_decide := apply (bool_decide_unpack _); vm_compute; exact I.

(** Well-formedness of a concrete table or buffer. *)
Ltac well_formed :=
  unfold buffer_ok, snapshot_table, rectangular;
  repeat first
    [ split | apply Forall_cons | apply Forall_nil | reflexivity
    | by_decide | (intro; discriminate) ].

(** * Properties *)

(** ** Programs that only read *)

Lemma readonly_ret {A} (a : A) : readonly (mret a).
Proof. by intros w. Qed.

Lemma readonly_lift {A} (o : outcome A) : readonly (lift o).
Proof. by intros w. Qed.

Lemma readonly_get_self : readonly get_self.
Proof. by intros w. Qed.

Lemma readonly_bind {A B} (m : prog A) (k : A -> prog B) :
  readonly m -> (forall a, readonly (k a)) -> readonly (m ≫= k).
Proof.
  intros Hm Hk w. unfold mbind, prog_bind.
  specialize (Hm w). destruct (m w) as [[a| |] w1]; simpl in *; subst; auto.
  apply Hk.
Qed.

Lemma readonly_pool_col name : readonly (pool_col name).
Proof.
  apply readonly_bind; [apply readonly_get_self|].
  intros me. destruct (pool_entries me); apply readonly_lift.
Qed.

Lemma readonly_select_tags f n by_col ignore : readonly (select_tags f n by_col ignore).
Proof.
  unfold select_tags.
  repeat (apply readonly_bind;
          [first [apply readonly_pool_col | apply readonly_get_self | apply readonly_lift]|];
          intros ?).
  destruct (String.eqb _ _); [apply readonly_lift|].
  destruct (str_cells _); [|apply readonly_lift].
  destruct a2; first [apply readonly_ret | apply readonly_lift].
Qed.

(** ** The list behind [ignore_tags] *)

Lemma bind_world_readonly {A B} (m : prog A) (k : A -> prog B) w :
  (forall a, readonly (k a)) -> ((m ≫= k) w).2 = (m w).2.
Proof.
  intros Hk. unfold mbind, prog_bind.
  destruct (m w) as [[a| |] w1]; simpl; auto. apply Hk.
Qed.

Lemma get_highest_tags_world n by_col ig w :
  (get_highest_tags n by_col ig w).2
  = (ignore_with_total (default (ArgList get_highest_tags_default) ig) w).2.
Proof. apply bind_world_readonly. intros a. apply readonly_select_tags. Qed.

Lemma get_most_changed_tags_world n by_col ig w :
  (get_most_changed_tags n by_col ig w).2
  = (ignore_with_total (default (ArgList get_most_changed_tags_default) ig) w).2.
Proof. apply bind_world_readonly. intros a. apply readonly_select_tags. Qed.

Lemma ignore_with_total_list l xs w :
  lists w !! l = Some xs ->
  (ignore_with_total (ArgList l) w).2
  = {| self := self w; lists := <[l := xs ++ ["TOTAL"]]> (lists w); plots := plots w |}.
Proof. intros H. unfold ignore_with_total. by rewrite H. Qed.

Lemma highest_calls_default args : forall w xs,
  lists w !! get_highest_tags_default = Some xs ->
  lists (highest_calls args w) !! get_highest_tags_default
  = Some (xs ++ replicate (length args) "TOTAL").
Proof.
  induction args as [|a args IH]; intros w xs H; simpl.
  - by rewrite app_nil_r.
  - unfold highest_calls in *. simpl.
    rewrite get_highest_tags_world. cbn -[ignore_with_total].
    rewrite (ignore_with_total_list _ _ _ H).
    erewrite IH; [|simpl; apply lookup_insert_eq].
    by rewrite <- app_assoc.
Qed.

Lemma most_changed_calls_default args : forall w xs,
  lists w !! get_most_changed_tags_default = Some xs ->
  lists (most_changed_calls args w) !! get_most_changed_tags_default
  = Some (xs ++ replicate (length args) "TOTAL").
Proof.
  induction args as [|a args IH]; intros w xs H; simpl.
  - by rewrite app_nil_r.
  - unfold most_changed_calls in *. simpl.
    rewrite get_most_changed_tags_world. cbn -[ignore_with_total].
    rewrite (ignore_with_total_list _ _ _ H).
    erewrite IH; [|simpl; apply lookup_insert_eq].
    by rewrite <- app_assoc.
Qed.

(** C10.  Both selections append the text TOTAL to the very list object
    passed as [ignore_tags]: whatever the call's outcome, the caller's
    list [l] holds its old content followed by TOTAL (one element more),
    every other list object and the instance are untouched; and over a
    run of calls that omit the argument, the function's one default list
    gains one TOTAL per call. *)
Theorem ignore_tags_is_mutated_in_place
    (w : world) (l : nat) (xs ds1 ds2 : list string)
    (n : Z) (by_col : string) (args : list (Z * string))
    (Hl : lists w !! l = Some xs)
    (Hd1 : lists w !! get_highest_tags_default = Some ds1)
    (Hd2 : lists w !! get_most_changed_tags_default = Some ds2) :
  let after1 := (get_highest_tags n by_col (Some (ArgList l)) w).2 in
  let after2 := (get_most_changed_tags n by_col (Some (ArgList l)) w).2 in
  (lists after1 = <[l := xs ++ ["TOTAL"]]> (lists w) /\ self after1 = self w)
  /\ (lists after2 = <[l := xs ++ ["TOTAL"]]> (lists w) /\ self after2 = self w)
  /\ length (xs ++ ["TOTAL"]) = S (length xs)
  /\ lists (highest_calls args w) !! get_highest_tags_default
     = Some (ds1 ++ replicate (length args) "TOTAL")
  /\ lists (most_changed_calls args w) !! get_most_changed_tags_default
     = Some (ds2 ++ replicate (length args) "TOTAL").
Proof.
  cbn zeta. rewrite get_highest_tags_world, get_most_changed_tags_world.
  cbn -[ignore_with_total].
  rewrite (ignore_with_total_list _ _ _ Hl). simpl.
  repeat split.
  - rewrite length_app. simpl. lia.
  - by apply highest_calls_default.
  - by apply most_changed_calls_default.
Qed.

(** ** Encoding detection *)

Lemma guess_encoding_no_bom host content :
  (forall be, be ∈ BOMS host -> Codecs.startswith (take 64 content) be.1 = false) ->
  guess_encoding host content = "utf-8".
Proof.
  intros H. unfold guess_encoding.
  destruct (List.filter _ _) as [|be rest] eqn:E; [done|].
  assert (Hin : In be (List.filter (fun be => Codecs.startswith (take 64 content) be.1)
                                   (BOMS host))) by (rewrite E; by left).
  apply filter_In in Hin as [Hin Hs].
  apply list_elem_of_In in Hin. rewrite (H _ Hin) in Hs. done.
Qed.

Lemma guess_encoding_utf32le_big rest :
  guess_encoding Codecs.big (Codecs.BOM_UTF32_LE ++ rest) = "utf-32le".
Proof. by vm_compute. Qed.

(** C8, at the input where the code departs from it.  On a little-endian
    host [codecs.BOM_UTF16] is the two bytes FF FE, which every UTF-32 LE
    mark FF FE 00 00 starts with, and its entry comes first in [BOMS]:
    such a file is reported as [utf-16], whatever follows the mark. *)
Theorem GetEncoding_utf32le_mark_on_little_endian (name : string) (rest : list byte) :
  GetEncoding Codecs.little {[ name := Codecs.BOM_UTF32_LE ++ rest ]} name = Ok "utf-16"
  /\ ("utf-16" ≠ "utf-32le")%string.
Proof.
  split; [|done]. unfold GetEncoding. rewrite lookup_singleton_eq.
  by vm_compute.
Qed.

(** ** Reporting *)

(** C9.  When [timestamp_tag] is neither DateTime nor DateTimeUTC, or
    [by_col] is not one of the six recognized columns, [do_plot] raises
    at once: the instance is as before (no digestion), no list object is
    touched and nothing reaches the plotting library. *)
Theorem do_plot_rejects_before_any_effect
    (by_col timestamp_tag : string) (ignore_tags include_tags : pyarg)
    (rcparams : bool) (n_most_changed n_highest : Z) (w : world)
    (Hbad : timestamp_tag ∉ valid_timestamp_tags \/ by_col ∉ valid_cols) :
  do_plot by_col timestamp_tag ignore_tags include_tags rcparams
          n_most_changed n_highest w
  = (Raise (if bool_decide (timestamp_tag ∈ valid_timestamp_tags)
            then InvalidColumnName else InvalidTimestampTag), w).
Proof.
  unfold do_plot.
  destruct (bool_decide_reflect (timestamp_tag ∈ valid_timestamp_tags)) as [Ht|Ht];
    simpl; [|done].
  destruct (bool_decide_reflect (by_col ∈ valid_cols)) as [Hc|Hc]; simpl; [|done].
  tauto.
Qed.

Lemma do_plot_rejects_before_any_effect_witness :
("Bogus" ∉ valid_cols)
  /\ do_plot "Bogus" "DateTimeUTC" ArgNone ArgNone false 5 5 peaks_fixture
     = (Raise InvalidColumnName, peaks_fixture).
Proof.
  assert (H : "Bogus" ∉ valid_cols)
    by (apply (bool_decide_eq_false_1 ("Bogus" ∈ valid_cols)); reflexivity).
  split; [exact H|].
  apply (do_plot_rejects_before_any_effect "Bogus" "DateTimeUTC" ArgNone ArgNone
           false 5 5 peaks_fixture (or_intror H)).
Defined.

Lemma ignore_tags_is_mutated_in_place_witness :
  lists (get_highest_tags 2 "TotalUsedBytes" (Some (ArgList 7%nat))
           {| self := self peaks_fixture;
              lists := <[7%nat := ["Idle"]]> (lists peaks_fixture);
              plots := [] |}).2 !! 7%nat = Some ["Idle"; "TOTAL"].
Proof.
  pose proof (ignore_tags_is_mutated_in_place
    {| self := self peaks_fixture;
       lists := <[7%nat := ["Idle"]]> (lists peaks_fixture);
       plots := [] |} 7%nat ["Idle"] [] [] 2 "TotalUsedBytes" []
    eq_refl eq_refl eq_refl) as [[H _] _].
  rewrite H. apply lookup_insert_eq.
Defined.

(** ** Columns by name *)

Lemma eqb_string_true (a b : string) : String.eqb a b = true <-> a = b.
Proof. apply String.eqb_eq. Qed.

Lemma getcol_elem_of df n c : getcol df n = Ok c -> (n, c) ∈ df.
Proof.
  induction df as [|[m d] df IH]; simpl; [done|].
  destruct (String.eqb m n) eqn:E.
  - apply String.eqb_eq in E. intros [= ->]. subst. left.
  - intros H. right. auto.
Qed.

Lemma getcol_NoDup df n c : NoDup (columns df) -> (n, c) ∈ df -> getcol df n = Ok c.
Proof.
  induction df as [|[m d] df IH]; simpl; intros Hnd Hin.
  - by apply elem_of_nil in Hin.
  - apply NoDup_cons in Hnd as [Hm Hnd].
    apply elem_of_cons in Hin as [[= -> ->]|Hin].
    + by rewrite String.eqb_refl.
    + destruct (String.eqb m n) eqn:E; [|by apply IH].
      apply String.eqb_eq in E. subst. exfalso. apply Hm.
      apply list_elem_of_fmap. by exists (n, c).
Qed.

Lemma getcol_columns df n c : getcol df n = Ok c -> n ∈ columns df.
Proof.
  intros H. apply getcol_elem_of in H. apply list_elem_of_fmap. by exists (n, c).
Qed.

Lemma getcol_not_raise_other df n e : getcol df n = Raise e -> e = KeyError.
Proof.
  induction df as [|[m d] df IH]; simpl; [by intros [= <-]|].
  destruct (String.eqb m n); [done|auto].
Qed.

Lemma getcol_fmap (g : string -> column -> column) df n :
  getcol ((fun nc : string * column => (nc.1, g nc.1 nc.2)) <$> df) n
  = c ← getcol df n; Ok (g n c).
Proof.
  induction df as [|[m d] df IH]; [done|].
  rewrite fmap_cons. cbn [getcol fst snd].
  destruct (String.eqb m n) eqn:E; [|exact IH].
  apply String.eqb_eq in E. by subst.
Qed.

(** ** The row Series *)

Lemma series_get_set s n v m :
  series_get (series_set s n v) m
  = if String.eqb n m then Some v else series_get s m.
Proof.
  induction s as [|[k x] s IH]; simpl.
  - done.
  - destruct (String.eqb k n) eqn:E; simpl.
    + apply String.eqb_eq in E. subst. by destruct (String.eqb n m).
    + rewrite IH. destruct (String.eqb k m) eqn:E2; [|done].
      apply String.eqb_eq in E2. subst. by rewrite String.eqb_sym, E.
Qed.

Lemma series_set_names s n v : n ∈ s.*1 -> (series_set s n v).*1 = s.*1.
Proof.
  induction s as [|[k x] s IH]; simpl; intros H.
  - by apply elem_of_nil in H.
  - destruct (String.eqb k n) eqn:E; simpl; [done|].
    f_equal. apply IH. apply elem_of_cons in H as [->|H]; [|done].
    by rewrite String.eqb_refl in E.
Qed.

(** ** Normalization *)

Lemma mapM_outcome_cons {A B} (f : A -> outcome B) x l :
  mapM f (x :: l) = y ← f x; k ← mapM f l; Ok (y :: k).
Proof. reflexivity. Qed.

Lemma loc0_rows df :
  df ≠ [] -> Forall (fun nc : string * column => cells nc.2 ≠ []) df ->
  loc0 df = Ok ((fun nc : string * column => (nc.1, row0 nc.2)) <$> df).
Proof.
  intros Hne Hall. unfold loc0. destruct df as [|nc0 df0]; [done|].
  clear Hne. revert Hall. generalize (nc0 :: df0). clear.
  induction l as [|[n c] l IH]; intros Hall; [done|].
  apply Forall_cons in Hall as [Hc Hall].
  rewrite mapM_outcome_cons, (IH Hall). simpl in *. unfold row0.
  destruct (cells c) as [|x xs]; [done|]. reflexivity.
Qed.

Lemma series_get_rows df n c :
  NoDup (columns df) -> (n, c) ∈ df ->
  series_get ((fun nc : string * column => (nc.1, row0 nc.2)) <$> df) n = Some (row0 c).
Proof.
  induction df as [|[m d] df IH]; simpl; intros Hnd Hin.
  - by apply elem_of_nil in Hin.
  - apply NoDup_cons in Hnd as [Hm Hnd].
    apply elem_of_cons in Hin as [[= -> ->]|Hin].
    + by rewrite String.eqb_refl.
    + destruct (String.eqb m n) eqn:E; [|by apply IH].
      apply String.eqb_eq in E. subst. exfalso. apply Hm.
      apply list_elem_of_fmap. by exists (n, c).
Qed.

Lemma sum_int_columns_foldl df todo : forall s,
  (forall nc, nc ∈ todo -> getcol df nc.1 = Ok nc.2) ->
  sum_int_columns df ((fun nc : string * column => (nc.1, dtype_str nc.2)) <$> todo) s
  = Ok (foldl sum_step s todo).
Proof.
  induction todo as [|[n c] todo IH]; intros s H; [done|].
  rewrite fmap_cons. cbn [sum_int_columns fst snd].
  assert (Hc : getcol df n = Ok c) by (apply (H (n, c)); left).
  assert (Hrest : forall nc, nc ∈ todo -> getcol df nc.1 = Ok nc.2)
    by (intros nc Hin; apply H; by right).
  destruct c; cbn [dtype_str String.prefix]; simpl;
    try (rewrite (IH _ Hrest); reflexivity).
  unfold column_sum. rewrite Hc. simpl. by rewrite (IH _ Hrest).
Qed.

Lemma foldl_sum_step_names todo : forall s,
  todo.*1 ⊆ s.*1 -> (foldl sum_step s todo).*1 = s.*1.
Proof.
  induction todo as [|[n c] todo IH]; intros s H; [done|].
  simpl. assert (Hn : n ∈ s.*1) by (apply H; left).
  assert (Hs : (sum_step s (n, c)).*1 = s.*1).
  { unfold sum_step. destruct c; simpl; auto using series_set_names. }
  rewrite IH; [done|]. rewrite Hs. intros x Hx. apply H. by right.
Qed.

Lemma foldl_sum_step_get todo : forall s m,
  NoDup todo.*1 ->
  series_get (foldl sum_step s todo) m
  = match list_find (fun nc : string * column => nc.1 = m) todo with
    | Some (_, (_, IntCol xs)) => Some (CInt (sum64 xs))
    | _ => series_get s m
    end.
Proof.
  induction todo as [|[n c] todo IH]; intros s m Hnd; [done|].
  apply NoDup_cons in Hnd as [Hn Hnd].
  cbn [foldl]. rewrite (IH _ _ Hnd). cbn [list_find fst].
  destruct (decide (n = m)) as [->|Hne].
  - destruct (list_find _ todo) as [[i [k d]]|] eqn:E.
    + exfalso. apply list_find_Some in E as (Hl & Hk & _). simpl in Hk. subst.
      apply Hn. apply list_elem_of_fmap. exists (m, d). split; [done|].
      by eapply list_elem_of_lookup_2.
    + unfold sum_step. simpl. destruct c; try done.
      by rewrite series_get_set, String.eqb_refl.
  - simpl. destruct (list_find _ todo) as [[i [k d]]|] eqn:E; simpl.
    + destruct d; try done; unfold sum_step; simpl; destruct c; try done;
        rewrite series_get_set; destruct (String.eqb n m) eqn:E2; try done;
        apply String.eqb_eq in E2; done.
    + unfold sum_step; simpl; destruct c; try done.
      rewrite series_get_set. destruct (String.eqb n m) eqn:E2; try done.
      apply String.eqb_eq in E2; done.
Qed.

Lemma list_find_name_NoDup (df : DataFrame) n c :
  NoDup (columns df) -> (n, c) ∈ df ->
  exists i, list_find (fun nc : string * column => nc.1 = n) df = Some (i, (n, c)).
Proof.
  induction df as [|[m d] df IH]; simpl; intros Hnd Hin.
  - by apply elem_of_nil in Hin.
  - apply NoDup_cons in Hnd as [Hm Hnd].
    apply elem_of_cons in Hin as [[= -> ->]|Hin].
    + exists 0%nat. simpl. by rewrite decide_True.
    + destruct (IH Hnd Hin) as [i Hi]. exists (S i). simpl.
      rewrite decide_False.
      * by rewrite Hi.
      * intros ->. apply Hm. apply list_elem_of_fmap. by exists (n, c).
Qed.

Lemma filter_all_false {A} (f : A -> bool) l :
  (forall x, x ∈ l -> f x = false) -> List.filter f l = [].
Proof.
  induction l as [|x l IH]; intros H; [done|].
  simpl. rewrite (H x) by left. apply IH. intros y Hy. apply H. by right.
Qed.

(** For a table with distinct column names, a Tag column and a row 0,
    [add_totals_row] returns the input with its Total Row appended. *)
Lemma add_totals_row_with_total df :
  NoDup (columns df) -> "Tag" ∈ columns df ->
  Forall (fun nc : string * column => cells nc.2 ≠ []) df ->
  add_totals_row df = Ok (with_total df).
Proof.
  intros Hnd Htag Hrows.
  assert (Hne : df ≠ []) by (intros ->; by apply elem_of_nil in Htag).
  unfold add_totals_row. rewrite (loc0_rows df Hne Hrows). cbn [mbind outcome_bind].
  set (s0 := (fun nc : string * column => (nc.1, row0 nc.2)) <$> df).
  assert (Hs0 : s0.*1 = columns df).
  { unfold s0, columns. rewrite <- list_fmap_compose. by apply list_fmap_ext. }
  rewrite sum_int_columns_foldl; [|intros [n c] Hin; by apply getcol_NoDup].
  cbn [mbind outcome_bind]. f_equal.
  set (s1 := series_set s0 "Tag" (CStr "TOTAL")).
  assert (Hs1 : s1.*1 = columns df).
  { unfold s1. rewrite series_set_names; [done|]. by rewrite Hs0. }
  set (s2 := foldl sum_step s1 df).
  assert (Hs2 : s2.*1 = columns df).
  { unfold s2. rewrite foldl_sum_step_names; [done|]. by rewrite Hs1. }
  unfold append_row.
  rewrite (filter_all_false _ s2), app_nil_r.
  - unfold with_total. apply list_fmap_ext. intros i [n c] Hi. cbn [fst snd].
    do 2 f_equal.
    assert (Hin : (n, c) ∈ df) by (by eapply list_elem_of_lookup_2).
    unfold s2. rewrite foldl_sum_step_get by done.
    destruct (list_find_name_NoDup df n c Hnd Hin) as [k ->].
    destruct c; try reflexivity; unfold s1; rewrite series_get_set;
      unfold total_entry; rewrite (String.eqb_sym n);
      destruct (String.eqb "Tag" n); try reflexivity;
      unfold s0; by rewrite (series_get_rows df n _ Hnd Hin).
  - intros [n v] Hin. apply negb_false_iff, bool_decide_eq_true.
    rewrite <- Hs2. apply list_elem_of_fmap. by exists (n, v).
Qed.

(** *** Arithmetic modulo 2^64 *)

Lemma wrap64_small z : - 2 ^ 63 <= z < 2 ^ 63 -> wrap64 z = z.
Proof. intros H. unfold wrap64. rewrite Z.mod_small; lia. Qed.

Lemma wrap64_add_l a b : wrap64 (wrap64 a + b) = wrap64 (a + b).
Proof.
  unfold wrap64.
  replace ((a + 2 ^ 63) mod 2 ^ 64 - 2 ^ 63 + b + 2 ^ 63)
    with ((a + 2 ^ 63) mod 2 ^ 64 + b) by lia.
  rewrite Zplus_mod_idemp_l. do 2 f_equal. lia.
Qed.

Lemma wrap64_range z : - 2 ^ 63 <= wrap64 z < 2 ^ 63.
Proof.
  unfold wrap64. pose proof (Z.mod_pos_bound (z + 2 ^ 63) (2 ^ 64)). lia.
Qed.

Lemma fold_add64 xs : forall a,
  fold_left add64 xs (wrap64 a) = wrap64 (a + Zsum xs).
Proof.
  induction xs as [|x xs IH]; intros a; simpl.
  - by rewrite Z.add_0_r.
  - unfold add64 at 2. rewrite wrap64_add_l, IH. f_equal. lia.
Qed.

Lemma sum64_Zsum xs : sum64 xs = wrap64 (Zsum xs).
Proof.
  unfold sum64. change 0 with (wrap64 0) at 1. by rewrite fold_add64.
Qed.

(** The wrap-around leaves the int64 value of its argument. *)
Lemma wrap64_int64_value z : int64_value z (wrap64 z).
Proof.
  split; [apply wrap64_range|].
  exists (- ((z + 2 ^ 63) / 2 ^ 64)). unfold wrap64.
  pose proof (Z.div_mod (z + 2 ^ 63) (2 ^ 64) ltac:(lia)). lia.
Qed.

Lemma cells_append_cell c v : cells (append_cell c v) = cells c ++ [v].
Proof. destruct c, v; simpl; by rewrite ?fmap_app. Qed.

Lemma columns_with_total df : columns (with_total df) = columns df.
Proof.
  unfold with_total, columns. rewrite <- list_fmap_compose. by apply list_fmap_ext.
Qed.

Lemma getcol_with_total df name :
  getcol (with_total df) name
  = c ← getcol df name; Ok (append_cell c (total_entry name c)).
Proof. unfold with_total. apply (getcol_fmap (fun n c => append_cell c (total_entry n c))). Qed.

Lemma nrows_with_total df : df ≠ [] -> nrows (with_total df) = S (nrows df).
Proof.
  destruct df as [|[n c] df]; [done|]. intros _. simpl.
  rewrite cells_append_cell, length_app. simpl. lia.
Qed.

Lemma rectangular_with_total df :
  df ≠ [] -> rectangular df -> rectangular (with_total df).
Proof.
  intros Hne Hr. unfold rectangular. rewrite (nrows_with_total df Hne).
  unfold with_total. apply Forall_fmap. eapply Forall_impl; [exact Hr|].
  intros [n c] H. simpl in *. rewrite cells_append_cell, length_app. simpl. lia.
Qed.

Lemma rectangular_rows df :
  rectangular df -> nrows df ≠ 0%nat ->
  Forall (fun nc : string * column => cells nc.2 ≠ []) df.
Proof.
  intros Hr Hn. eapply Forall_impl; [exact Hr|]. intros [n c] H Hnil.
  simpl in *. rewrite Hnil in H. simpl in H. lia.
Qed.

Lemma dtype_of_Some df name d :
  dtype_of df name = Some d -> exists c, getcol df name = Ok c /\ dtype_str c = d.
Proof.
  unfold dtype_of. destruct (getcol df name) as [c| |]; [|done..].
  intros [= <-]. by exists c.
Qed.

(** The dtype of a column survives the Total Row when Tag is text. *)
Lemma dtype_append_total df name c :
  dtype_of df "Tag" = Some "object" -> getcol df name = Ok c -> cells c ≠ [] ->
  dtype_str (append_cell c (total_entry name c)) = dtype_str c.
Proof.
  intros Htag Hc Hne.
  apply dtype_of_Some in Htag as (ct & Hct & Hd).
  destruct c as [xs|xs|xs|xs]; try reflexivity; simpl;
    (destruct (String.eqb name "Tag") eqn:E;
     [apply String.eqb_eq in E; subst; rewrite Hc in Hct; by inversion Hct; subst|]);
    destruct xs; done.
Qed.

(** C1, as the program has it.  For every table with distinct column
    names, a text Tag column and at least one row, [add_totals_row]
    returns a table with the same columns and dtypes and one row more:
    every column is the input column followed by one last cell, which is
    the column's sum in int64 arithmetic when the dtype is an integer
    kind (the exact sum when that fits in 64 bits), TOTAL under Tag, and
    the cell of row 0 under every other column, a float64 counter
    included. *)
Theorem add_totals_row_appends_total_row (df : DataFrame)
    (Hnames : NoDup (columns df)) (Hrect : rectangular df)
    (Htag : dtype_of df "Tag" = Some "object") (Hrow : nrows df ≠ 0%nat) :
  exists df',
    add_totals_row df = Ok df'
    /\ columns df' = columns df
    /\ nrows df' = S (nrows df)
    /\ rectangular df'
    /\ forall name c, getcol df name = Ok c ->
         exists c' t,
           getcol df' name = Ok c'
           /\ dtype_str c' = dtype_str c
           /\ cells c' = cells c ++ [t]
           /\ (int_kind c = true ->
                 t = CInt (wrap64 (Zsum (int_values c)))
                 /\ (- 2 ^ 63 <= Zsum (int_values c) < 2 ^ 63 ->
                     t = CInt (Zsum (int_values c))))
           /\ (int_kind c = false -> name = "Tag" -> t = CStr "TOTAL")
           /\ (int_kind c = false -> name ≠ "Tag" -> cells c !! 0%nat = Some t).
Proof.
  assert (Hne : df ≠ []) by (intros ->; done).
  pose proof (rectangular_rows df Hrect Hrow) as Hrows.
  assert (HtagIn : "Tag" ∈ columns df).
  { apply dtype_of_Some in Htag as (ct & Hct & _). by eapply getcol_columns. }
  exists (with_total df). split; [by apply add_totals_row_with_total|].
  split; [apply columns_with_total|].
  split; [by apply nrows_with_total|].
  split; [by apply rectangular_with_total|].
  intros name c Hc.
  assert (Hcne : cells c ≠ []).
  { apply getcol_elem_of in Hc. rewrite Forall_forall in Hrows. apply (Hrows _ Hc). }
  exists (append_cell c (total_entry name c)), (total_entry name c).
  split; [by rewrite getcol_with_total, Hc|].
  split; [by eapply dtype_append_total|].
  split; [apply cells_append_cell|].
  destruct c as [xs|xs|xs|xs]; cbn [int_kind dtype_str String.prefix]; simpl;
    (split; [try done|split; [try done|try done]]).
  - intros _. rewrite sum64_Zsum. split; [done|]. intros Hr. by rewrite wrap64_small.
  - intros _ ->. by rewrite String.eqb_refl.
  - intros _ Hn. apply String.eqb_neq in Hn. rewrite Hn.
    destruct xs; [done|reflexivity].
  - intros _ ->. by rewrite String.eqb_refl.
  - intros _ Hn. apply String.eqb_neq in Hn. rewrite Hn.
    destruct xs; [done|reflexivity].
  - intros _ ->. by rewrite String.eqb_refl.
  - intros _ Hn. apply String.eqb_neq in Hn. rewrite Hn.
    destruct xs; [done|reflexivity].
Qed.

(** ** Consolidation: state and outcome *)

Lemma digest_again w :
  digest_called (self w) = true -> digest w = (Raise DigestCalledAgain, w).
Proof. intros H. unfold digest. run_prog. by rewrite H. Qed.

Lemma digest_outcome w frames :
  digest_called (self w) = false ->
  individual_data_frames (self w) = Some frames ->
  (digest w).1 = consolidate frames.
Proof.
  intros Hflag Hframes. unfold digest, consolidate. run_prog.
  rewrite Hflag, Hframes. cbn -[mapM].
  repeat (case_outcome; cbn -[mapM]; try done).
Qed.

Lemma digest_world_ok w frames pool :
  digest_called (self w) = false ->
  individual_data_frames (self w) = Some frames ->
  consolidate frames = Ok pool ->
  digest w = (Ok pool, {| self := digested pool; lists := lists w; plots := plots w |}).
Proof.
  intros Hflag Hframes. unfold digest, consolidate. run_prog.
  rewrite Hflag, Hframes. cbn -[mapM].
  repeat (case_outcome; cbn -[mapM]; try done).
  by intros [= <-].
Qed.

Lemma digest_sets_flag w : digest_called (self (digest w).2) = true.
Proof.
  destruct (digest_called (self w)) eqn:Hflag.
  - by rewrite digest_again.
  - unfold digest. run_prog. rewrite Hflag. cbn -[mapM].
    destruct (individual_data_frames (self w)) as [frames|]; cbn -[mapM]; try done.
    repeat (case_outcome; cbn -[mapM]; try done).
Qed.

(** A call after the first never returns or rebuilds the Pool. *)
Lemma digest_twice w :
  digest (digest w).2 = (Raise DigestCalledAgain, (digest w).2).
Proof. apply digest_again, digest_sets_flag. Qed.

(** ** Schemas *)

Lemma columns_schema df : columns df = (schema df).*1.
Proof.
  unfold columns, schema. rewrite <- list_fmap_compose. by apply list_fmap_ext.
Qed.

Lemma same_kind_dtype c d : same_kind c d = true <-> dtype_str c = dtype_str d.
Proof. destruct c, d; simpl; split; intros H; try done. Qed.

Lemma same_schema_eq a : forall b, same_schema a b = true <-> schema a = schema b.
Proof.
  induction a as [|[n c] a IH]; intros [|[m d] b]; simpl; try done.
  rewrite !andb_true_iff, String.eqb_eq, same_kind_dtype, IH.
  split.
  - intros [[-> ->] ->]. done.
  - intros [= -> -> ->]. done.
Qed.

Lemma dtype_of_schema a b name : schema a = schema b -> dtype_of a name = dtype_of b name.
Proof.
  revert b. induction a as [|[n c] a IH]; intros [|[m d] b]; simpl; try done.
  intros [= -> Hd Hs]. unfold dtype_of in *. simpl.
  destruct (String.eqb m name); [by rewrite Hd|]. by apply IH.
Qed.

Lemma dtype_of_elem df name d : dtype_of df name = Some d -> (name, d) ∈ schema df.
Proof.
  intros H. apply dtype_of_Some in H as (c & Hc & <-).
  apply getcol_elem_of in Hc. apply list_elem_of_fmap. by exists (name, c).
Qed.

Lemma schema_fmap (g : string -> column -> column) df :
  (forall n c, (n, c) ∈ df -> dtype_str (g n c) = dtype_str c) ->
  schema ((fun nc : string * column => (nc.1, g nc.1 nc.2)) <$> df) = schema df.
Proof.
  intros H. unfold schema. rewrite <- list_fmap_compose.
  apply list_fmap_ext. intros i [n c] Hi. simpl. f_equal. apply H.
  by eapply list_elem_of_lookup_2.
Qed.

Lemma schema_with_total df :
  NoDup (columns df) -> dtype_of df "Tag" = Some "object" ->
  Forall (fun nc : string * column => cells nc.2 ≠ []) df ->
  schema (with_total df) = schema df.
Proof.
  intros Hnd Htag Hrows. unfold with_total.
  apply (schema_fmap (fun n c => append_cell c (total_entry n c))).
  intros n c Hin. eapply dtype_append_total; [done| |].
  - by apply getcol_NoDup.
  - rewrite Forall_forall in Hrows. apply (Hrows _ Hin).
Qed.

Lemma dtype_column_map f c : dtype_str (column_map f c) = dtype_str c.
Proof. by destruct c. Qed.

Lemma schema_frame_map f df : schema (frame_map f df) = schema df.
Proof.
  unfold frame_map. apply (schema_fmap (fun _ c => column_map f c)).
  intros. apply dtype_column_map.
Qed.

Lemma getcol_frame_map f df name :
  getcol (frame_map f df) name = c ← getcol df name; Ok (column_map f c).
Proof. unfold frame_map. apply (getcol_fmap (fun _ c => column_map f c)). Qed.

(** ** Concatenation *)

Lemma cells_column_app c d : cells (column_app c d) = cells c ++ cells d.
Proof. destruct c, d; simpl; by rewrite ?fmap_app. Qed.

Lemma dtype_column_app c d :
  dtype_str c = dtype_str d -> dtype_str (column_app c d) = dtype_str c.
Proof. by destruct c, d. Qed.

Lemma schema_frame_app a : forall b, schema a = schema b -> schema (frame_app a b) = schema a.
Proof.
  induction a as [|[n c] a IH]; intros [|[m d] b]; simpl; try done.
  intros [= -> Hd Hs]. unfold frame_app in *. simpl.
  rewrite (dtype_column_app _ _ Hd). f_equal. by apply IH.
Qed.

Lemma nrows_frame_app a b :
  a ≠ [] -> schema a = schema b -> nrows (frame_app a b) = (nrows a + nrows b)%nat.
Proof.
  destruct a as [|[n c] a], b as [|[m d] b]; simpl; try done.
  intros _ _. by rewrite cells_column_app, length_app.
Qed.

Lemma rectangular_frame_app a b :
  a ≠ [] -> schema a = schema b -> rectangular a -> rectangular b ->
  rectangular (frame_app a b).
Proof.
  intros Hne Hs Ha Hb. unfold rectangular.
  rewrite (nrows_frame_app a b Hne Hs).
  unfold rectangular in Ha, Hb. revert Ha Hb.
  generalize (nrows a) (nrows b). clear Hne. revert b Hs.
  induction a as [|[n c] a IH]; intros [|[m d] b] Hs na nb Ha Hb;
    try discriminate Hs; try constructor.
  - injection Hs as -> Hd Hs.
    apply Forall_cons in Ha as [Hc Ha]. apply Forall_cons in Hb as [Hdl Hb].
    simpl in *. rewrite cells_column_app, length_app. lia.
  - injection Hs as -> Hd Hs.
    apply Forall_cons in Ha as [Hc Ha]. apply Forall_cons in Hb as [Hdl Hb].
    by apply IH.
Qed.

(** The rows of the tables of a list, counted together. *)
Lemma concat_from_ok ds : forall acc,
  acc ≠ [] -> rectangular acc ->
  Forall (fun d => schema d = schema acc /\ rectangular d) ds ->
  exists pool,
    concat_from acc ds = Ok pool
    /\ schema pool = schema acc
    /\ rectangular pool
    /\ nrows pool = (nrows acc + sum_list (nrows <$> ds))%nat.
Proof.
  induction ds as [|d ds IH]; intros acc Hne Hr Hall.
  - exists acc. simpl. repeat split; try done; lia.
  - apply Forall_cons in Hall as [[Hs Hd] Hall]. simpl.
    assert (Hsame : same_schema acc d = true) by (by apply same_schema_eq).
    rewrite Hsame.
    assert (Hne' : frame_app acc d ≠ []).
    { intros E. pose proof (schema_frame_app acc d (eq_sym Hs)) as Hsa.
      rewrite E in Hsa. destruct acc; done. }
    destruct (IH (frame_app acc d) Hne') as (pool & Hp & Hsp & Hrp & Hn).
    + by apply rectangular_frame_app.
    + eapply Forall_impl; [exact Hall|]. intros x [Hx1 Hx2]. split; [|done].
      rewrite Hx1. symmetry. by apply schema_frame_app.
    + exists pool. split; [done|]. split.
      { rewrite Hsp. by apply schema_frame_app. }
      split; [done|]. rewrite Hn, nrows_frame_app by done.
      symmetry. apply Nat.add_assoc.
Qed.

(** ** The sort *)

(** *** Arrays of row positions *)

Module NpysortFacts.
Import Npysort SortSpec.

Section Arrays.

Lemma length_swap (a : list nat) i j : length (swap a i j) = length a.
Proof. unfold swap. by rewrite !length_insert. Qed.

Lemma swap_lookup_l (a : list nat) i j :
  (i < length a)%nat -> swap a i j !!! i = a !!! j.
Proof.
  intros Hi. unfold swap. rewrite list_lookup_total_insert_eq; [done|].
  by rewrite length_insert.
Qed.

Lemma swap_lookup_r (a : list nat) i j :
  (j < length a)%nat -> swap a i j !!! j = a !!! i.
Proof.
  intros Hj. unfold swap. destruct (decide (i = j)) as [->|Hne].
  - rewrite list_lookup_total_insert_eq; [done|]. by rewrite length_insert.
  - rewrite list_lookup_total_insert_ne by done.
    by rewrite list_lookup_total_insert_eq.
Qed.

Lemma swap_lookup_ne (a : list nat) i j k :
  k ≠ i -> k ≠ j -> swap a i j !!! k = a !!! k.
Proof.
  intros Hi Hj. unfold swap. by rewrite !list_lookup_total_insert_ne.
Qed.

Lemma insert_head_Permutation (a : list nat) : forall j z,
  (j < length a)%nat -> (a !!! j) :: <[j := z]> a ≡ₚ z :: a.
Proof.
  induction a as [|x a IH]; intros j z Hj; simpl in *; [lia|].
  destruct j as [|j]; simpl.
  - apply perm_swap.
  - rewrite (perm_swap x z a), <- (IH j z) by lia. apply perm_swap.
Qed.

Lemma swap_Permutation_lt (a : list nat) : forall i j,
  (i < j)%nat -> (j < length a)%nat -> swap a i j ≡ₚ a.
Proof.
  induction a as [|x a IH]; intros i j Hij Hj; simpl in *; [lia|].
  destruct j as [|j]; [lia|]. destruct i as [|i]; unfold swap; simpl.
  - apply insert_head_Permutation. lia.
  - constructor. apply (IH i j); lia.
Qed.

Lemma swap_comm (a : list nat) i j : swap a i j = swap a j i.
Proof.
  unfold swap. destruct (decide (i = j)) as [->|Hne]; [done|].
  by rewrite list_insert_insert_ne.
Qed.

Lemma swap_Permutation (a : list nat) i j :
  (i < length a)%nat -> (j < length a)%nat -> swap a i j ≡ₚ a.
Proof.
  intros Hi Hj. destruct (Nat.lt_trichotomy i j) as [H|[->|H]].
  - by apply swap_Permutation_lt.
  - unfold swap. rewrite list_insert_insert_eq.
    rewrite list_insert_id; [done|]. by apply list_lookup_lookup_total_lt.
  - rewrite swap_comm. by apply swap_Permutation_lt.
Qed.

Lemma forallb_false_elem {A} (f : A -> bool) l :
  forallb f l = false -> exists w, w ∈ l /\ f w = false.
Proof.
  induction l as [|x l IH]; simpl; [done|].
  destruct (f x) eqn:E; simpl.
  - intros H. destruct (IH H) as (w & Hw & Hf). exists w. split; [by right|done].
  - intros _. exists x. split; [left|done].
Qed.

End Arrays.

Section Keys.

Variable v : nat -> Z.

Lemma LT_true i j : LT v i j = true <-> v i < v j.
Proof. unfold LT. apply Z.ltb_lt. Qed.

Lemma LT_false i j : LT v i j = false <-> v j <= v i.
Proof. unfold LT. apply Z.ltb_ge. Qed.

(** *** Insertion sort *)

Lemma ins_snoc x y : forall l,
  ins v x (l ++ [y]) = if LT v x y then ins v x l ++ [y] else l ++ [y; x].
Proof.
  induction l as [|z l IH].
  - simpl. by destruct (LT v x y).
  - change ((z :: l) ++ [y]) with (z :: (l ++ [y])).
    cbn [ins]. rewrite IH.
    change (forallb (LT v x) (z :: l ++ [y]))
      with (LT v x z && forallb (LT v x) (l ++ [y])).
    rewrite forallb_app. simpl forallb at 2.
    destruct (LT v x y) eqn:E.
    + rewrite !andb_true_r. simpl.
      by destruct (LT v x z && forallb (LT v x) l).
    + by rewrite andb_false_r, andb_false_r.
Qed.

Lemma ins_shift_spec vi : forall pj pre h suf,
  length pre = pj ->
  ins_shift v (pre ++ h :: suf) vi pj = ins v vi pre ++ suf.
Proof.
  induction pj as [|pk IH]; intros pre h suf Hlen.
  - destruct pre; [|done]. reflexivity.
  - destruct pre as [|y pre _] using rev_ind; [done|].
    rewrite length_app in Hlen. simpl in Hlen.
    assert (Hpk : length pre = pk) by lia.
    cbn [ins_shift].
    assert (Hy : (pre ++ [y]) ++ h :: suf = pre ++ y :: h :: suf)
      by (by rewrite <- app_assoc).
    rewrite Hy.
    assert (Hrd : (pre ++ y :: h :: suf) !!! pk = y).
    { rewrite <- Hpk. by rewrite list_lookup_total_middle. }
    rewrite Hrd, ins_snoc.
    destruct (LT v vi y).
    + replace (S pk) with (length (pre ++ [y]) + 0)%nat
        by (rewrite length_app; simpl; lia).
      replace (pre ++ y :: h :: suf) with ((pre ++ [y]) ++ h :: suf)
        by (by rewrite <- app_assoc).
      rewrite insert_app_r. simpl.
      rewrite <- app_assoc. simpl. rewrite (IH pre y (y :: suf) Hpk).
      by rewrite <- app_assoc.
    + replace (S pk) with (length (pre ++ [y]) + 0)%nat
        by (rewrite length_app; simpl; lia).
      replace (pre ++ y :: h :: suf) with ((pre ++ [y]) ++ h :: suf)
        by (by rewrite <- app_assoc).
      rewrite insert_app_r. simpl. by rewrite <- !app_assoc.
Qed.

Lemma length_ins x l : length (ins v x l) = S (length l).
Proof.
  induction l as [|y l IH]; [done|]. cbn [ins].
  destruct (forallb _ _); simpl; [done|]. by rewrite IH.
Qed.

Lemma insertion_loop rest : forall pre,
  foldl (fun a pi => ins_shift v a (a !!! pi) pi) (pre ++ rest)
        (seq (length pre) (length rest))
  = foldl (fun acc x => ins v x acc) pre rest.
Proof.
  induction rest as [|x rest IH]; intros pre; simpl.
  - by rewrite app_nil_r.
  - rewrite list_lookup_total_middle by done.
    rewrite (ins_shift_spec x (length pre) pre x rest eq_refl).
    rewrite <- (length_ins x pre). apply IH.
Qed.

Lemma insertion_sort_isort a : insertion_sort v a = isort v a.
Proof.
  unfold insertion_sort, isort. destruct a as [|x a]; [done|].
  simpl. rewrite Nat.sub_0_r.
  apply (insertion_loop a [x]).
Qed.

Lemma ins_Permutation x l : ins v x l ≡ₚ x :: l.
Proof.
  induction l as [|y l IH]; [done|]. cbn [ins].
  destruct (forallb _ _); [done|]. rewrite IH. apply perm_swap.
Qed.

Lemma foldl_ins_Permutation rest : forall acc,
  foldl (fun acc x => ins v x acc) acc rest ≡ₚ acc ++ rest.
Proof.
  induction rest as [|x rest IH]; intros acc; simpl.
  - by rewrite app_nil_r.
  - rewrite IH, ins_Permutation. simpl. apply Permutation_middle.
Qed.

Lemma isort_Permutation l : isort v l ≡ₚ l.
Proof. unfold isort. by rewrite foldl_ins_Permutation. Qed.

(** One insertion keeps a list in key order; it keeps it in key and
    position order when the newcomer comes from further down. *)
Lemma ins_sorted (R : nat -> nat -> Prop) x l :
  (forall y, v x < v y -> R x y) ->
  (forall y z, y ∈ l -> z ∈ l -> R y z -> v z <= v x -> R y x) ->
  (forall y, y ∈ l -> v y <= v x -> R y x) ->
  StronglySorted R l -> StronglySorted R (ins v x l).
Proof.
  intros Hlt Htrans Hle. induction 1 as [|y l Hs IH Hall].
  - repeat constructor.
  - cbn [ins]. destruct (forallb (LT v x) (y :: l)) eqn:E.
    + constructor; [by constructor|].
      rewrite forallb_forall in E. apply Forall_forall. intros z Hz.
      apply Hlt, LT_true, E. by apply list_elem_of_In.
    + constructor.
      * apply IH.
        -- intros a b Ha Hb. apply Htrans; by right.
        -- intros a Ha. apply Hle. by right.
      * apply Forall_forall. intros z Hz.
        rewrite ins_Permutation in Hz. apply elem_of_cons in Hz as [->|Hz].
        -- assert (Hex : exists w, w ∈ y :: l /\ v w <= v x).
           { destruct (forallb_false_elem (LT v x) (y :: l) E) as (w & Hw & Hf).
             exists w. split; [done|]. by apply LT_false. }
           destruct Hex as (w & Hw & Hwx).
           apply elem_of_cons in Hw as [->|Hw].
           ++ apply Hle; [left|done].
           ++ apply (Htrans y w); [left|by right| |done].
              rewrite Forall_forall in Hall. by apply Hall.
        -- rewrite Forall_forall in Hall. by apply Hall.
Qed.

Lemma foldl_ins_sorted rest : forall acc,
  StronglySorted (key_le v) acc ->
  StronglySorted (key_le v) (foldl (fun acc x => ins v x acc) acc rest).
Proof.
  induction rest as [|x rest IH]; intros acc Hs; [done|].
  simpl. apply IH. apply ins_sorted; unfold key_le; try done; intros; lia.
Qed.

Lemma isort_sorted l : StronglySorted (key_le v) (isort v l).
Proof. apply foldl_ins_sorted. constructor. Qed.

Lemma foldl_ins_stable rest : forall acc,
  StronglySorted (key_before v) acc ->
  (forall a b, a ∈ acc -> b ∈ rest -> (a < b)%nat) ->
  StronglySorted lt rest ->
  StronglySorted (key_before v) (foldl (fun acc x => ins v x acc) acc rest).
Proof.
  induction rest as [|x rest IH]; intros acc Hs Hlt Hrest; [done|].
  apply StronglySorted_cons in Hrest as [Hx Hrest].
  simpl. apply IH; [|..|done].
  - apply ins_sorted; [| | |done].
    + intros y Hy. by left.
    + intros y z Hy Hz Hyz Hzx.
      assert (Hyx : (y < x)%nat) by (apply Hlt; [done|left]).
      unfold key_before in *. lia.
    + intros y Hy Hyx.
      assert (Hyx' : (y < x)%nat) by (apply Hlt; [done|left]).
      unfold key_before. lia.
  - intros a b Ha Hb. rewrite ins_Permutation in Ha.
    apply elem_of_cons in Ha as [->|Ha].
    + rewrite Forall_forall in Hx. by apply Hx.
    + apply Hlt; [done|by right].
Qed.

Lemma isort_stable l :
  StronglySorted lt l -> StronglySorted (key_before v) (isort v l).
Proof.
  intros Hl. apply foldl_ins_stable; [constructor| |done].
  intros a b Ha. by apply elem_of_nil in Ha.
Qed.

(** *** The partition *)

Lemma scan_up_spec a p : forall fuel pi k0,
  (pi < k0)%nat -> (k0 <= pi + fuel)%nat -> LT v (a !!! k0) p = false ->
  let r := scan_up v fuel a p pi in
  (pi < r <= k0)%nat /\ LT v (a !!! r) p = false
  /\ forall k, (pi < k < r)%nat -> LT v (a !!! k) p = true.
Proof.
  induction fuel as [|fuel IH]; intros pi k0 Hlt Hfuel Hk0; [lia|].
  cbn [scan_up]. destruct (LT v (a !!! S pi) p) eqn:E.
  - assert (Hne : S pi ≠ k0) by (intros <-; congruence).
    destruct (IH (S pi) k0) as (Hr & Hstop & Hbetween); [lia|lia|done|].
    split; [lia|]. split; [done|]. intros k Hk.
    destruct (decide (k = S pi)) as [->|Hk']; [done|]. apply Hbetween. lia.
  - split; [lia|]. split; [done|]. intros k Hk. lia.
Qed.

Lemma scan_down_spec a p : forall pj k0,
  (k0 < pj)%nat -> LT v p (a !!! k0) = false ->
  let r := scan_down v a p pj in
  (k0 <= r < pj)%nat /\ LT v p (a !!! r) = false
  /\ forall k, (r < k < pj)%nat -> LT v p (a !!! k) = true.
Proof.
  induction pj as [|pj IH]; intros k0 Hlt Hk0; [lia|].
  cbn [scan_down]. destruct (LT v p (a !!! pj)) eqn:E.
  - assert (Hne : pj ≠ k0) by (intros <-; congruence).
    destruct (IH k0) as (Hr & Hstop & Hbetween); [lia|done|].
    split; [lia|]. split; [done|]. intros k Hk.
    destruct (decide (k = pj)) as [->|Hk']; [done|]. apply Hbetween. lia.
  - split; [lia|]. split; [done|]. intros k Hk. lia.
Qed.

(** The scans of [hoare], from an array whose ends already stand on
    the right sides of the pivot [p]. *)
Lemma hoare_spec p : forall fuel a pi pj,
  (pj <= pi + fuel)%nat -> (pi < pj < length a)%nat ->
  (forall k, (k <= pi)%nat -> v (a !!! k) <= v p) ->
  (forall k, (pj <= k < length a)%nat -> v p <= v (a !!! k)) ->
  let '(a', r) := hoare v fuel a p pi pj in
  a' ≡ₚ a /\ length a' = length a /\ (pi < r <= pj)%nat
  /\ (forall k, (k < r)%nat -> v (a' !!! k) <= v p)
  /\ (forall k, (r <= k < length a)%nat -> v p <= v (a' !!! k))
  /\ (forall k, (pj <= k)%nat -> a' !!! k = a !!! k).
Proof.
  induction fuel as [|fuel IH]; intros a pi pj Hfuel Hrange Hlo Hhi; [lia|].
  cbn [hoare].
  destruct (scan_up_spec a p (length a) pi pj) as (Hi & Hist & Hibet);
    [lia|lia|apply LT_false; apply Hhi; lia|].
  destruct (scan_down_spec a p pj pi) as (Hj & Hjst & Hjbet);
    [lia|apply LT_false; apply Hlo; lia|].
  set (pi' := scan_up v (length a) a p pi) in *.
  set (pj' := scan_down v a p pj) in *.
  assert (Hbelow : forall k, (k < pi')%nat -> v (a !!! k) <= v p).
  { intros k Hk. destruct (decide (k <= pi)%nat) as [Hk'|Hk']; [by apply Hlo|].
    assert (H : LT v (a !!! k) p = true) by (apply Hibet; lia).
    apply LT_true in H. lia. }
  assert (Habove : forall k, (pj' < k < length a)%nat -> v p <= v (a !!! k)).
  { intros k Hk. destruct (decide (pj <= k)%nat) as [Hk'|Hk']; [apply Hhi; lia|].
    assert (H : LT v p (a !!! k) = true) by (apply Hjbet; lia).
    apply LT_true in H. lia. }
  apply LT_false in Hist, Hjst.
  destruct (pj' <=? pi')%nat eqn:E.
  - apply Nat.leb_le in E.
    split; [done|]. split; [done|]. split; [lia|]. split; [done|].
    split; [|done]. intros k Hk.
    destruct (decide (k = pi')) as [->|Hne]; [done|]. apply Habove. lia.
  - apply Nat.leb_gt in E.
    specialize (IH (swap a pi' pj') pi' pj').
    rewrite length_swap in IH.
    destruct (hoare v fuel (swap a pi' pj') p pi' pj') as [a' r].
    destruct IH as (Hp & Hl & Hr & Hlo' & Hhi' & Hsame); [lia|lia|..].
    + intros k Hk. destruct (decide (k = pi')) as [->|Hne].
      * rewrite swap_lookup_l by lia. done.
      * rewrite swap_lookup_ne by lia. apply Hbelow. lia.
    + intros k Hk. destruct (decide (k = pj')) as [->|Hne].
      * rewrite swap_lookup_r by lia. done.
      * rewrite swap_lookup_ne by lia. apply Habove. lia.
    + split; [rewrite Hp; apply swap_Permutation; lia|].
      split; [done|]. split; [lia|]. split; [done|]. split; [done|].
      intros k Hk. rewrite Hsame by lia. apply swap_lookup_ne; lia.
Qed.

(** [if (LT(v[a[i]], v[a[j]])) INTP_SWAP(a[i], a[j])] *)
Lemma cond_swap_spec a i j :
  (i < length a)%nat -> (j < length a)%nat -> i ≠ j ->
  let a' := if LT v (a !!! i) (a !!! j) then swap a i j else a in
  a' ≡ₚ a /\ length a' = length a
  /\ v (a' !!! j) <= v (a' !!! i)
  /\ (forall k, k ≠ i -> k ≠ j -> a' !!! k = a !!! k)
  /\ ((v (a' !!! i) = v (a !!! i) /\ v (a' !!! j) = v (a !!! j))
      \/ (v (a' !!! i) = v (a !!! j) /\ v (a' !!! j) = v (a !!! i))).
Proof.
  intros Hi Hj Hne. cbn zeta. destruct (LT v (a !!! i) (a !!! j)) eqn:E.
  - apply LT_true in E. rewrite swap_lookup_l, swap_lookup_r by done.
    split; [by apply swap_Permutation|]. split; [apply length_swap|].
    split; [lia|]. split; [|by right].
    intros k Hk1 Hk2. by apply swap_lookup_ne.
  - apply LT_false in E. split; [done|]. split; [done|]. split; [done|].
    split; [done|]. by left.
Qed.

Lemma partition_spec a :
  (4 <= length a)%nat ->
  let '(a', pi) := partition v a in
  a' ≡ₚ a /\ length a' = length a /\ (pi < length a)%nat
  /\ (forall k, (k < pi)%nat -> v (a' !!! k) <= v (a' !!! pi))
  /\ (forall k, (pi < k < length a)%nat -> v (a' !!! pi) <= v (a' !!! k)).
Proof.
  intros Hn. unfold partition.
  set (pr := (length a - 1)%nat).
  set (pm := (0 + (pr - 0) / 2)%nat).
  assert (Hpm : (0 < pm /\ pm < pr - 1)%nat).
  { unfold pm. rewrite Nat.add_0_l, Nat.sub_0_r.
    assert (3 <= pr)%nat by (unfold pr; lia).
    pose proof (Nat.div_mod_eq pr 2) as Hd.
    pose proof (Nat.mod_upper_bound pr 2). lia. }
  assert (Hpr : (pr < length a)%nat) by (unfold pr; lia).
  (* median of three *)
  destruct (cond_swap_spec a pm 0%nat) as (Hp1 & Hl1 & Ho1 & Hs1 & Hv1); [lia..|].
  set (a1 := if LT v (a !!! pm) (a !!! 0%nat) then swap a pm 0 else a) in *.
  destruct (cond_swap_spec a1 pr pm) as (Hp2 & Hl2 & Ho2 & Hs2 & Hv2); [lia..|].
  set (a2 := if LT v (a1 !!! pr) (a1 !!! pm) then swap a1 pr pm else a1) in *.
  destruct (cond_swap_spec a2 pm 0%nat) as (Hp3 & Hl3 & Ho3 & Hs3 & Hv3); [lia..|].
  set (a3 := if LT v (a2 !!! pm) (a2 !!! 0%nat) then swap a2 pm 0 else a2) in *.
  assert (Hmed : v (a3 !!! 0%nat) <= v (a3 !!! pm) /\ v (a3 !!! pm) <= v (a3 !!! pr)).
  { pose proof (Hs2 0%nat ltac:(lia) ltac:(lia)) as E20.
    pose proof (Hs1 pr ltac:(lia) ltac:(lia)) as E1r.
    pose proof (Hs3 pr ltac:(lia) ltac:(lia)) as E3r.
    apply (f_equal v) in E20, E1r, E3r. lia. }
  destruct Hmed as [Hm0 Hmr].
  set (p := a3 !!! pm).
  set (a4 := swap a3 pm (pr - 1)).
  assert (Hl4 : length a4 = length a).
  { unfold a4. rewrite length_swap. lia. }
  assert (H40 : a4 !!! 0%nat = a3 !!! 0%nat).
  { unfold a4. apply swap_lookup_ne; lia. }
  assert (H4r : a4 !!! pr = a3 !!! pr).
  { unfold a4. apply swap_lookup_ne; lia. }
  assert (H4p : a4 !!! (pr - 1)%nat = p).
  { unfold a4. rewrite swap_lookup_r; [done|lia]. }
  pose proof (hoare_spec p (length a4) a4 0%nat (pr - 1)%nat) as Hh.
  destruct (hoare v (length a4) a4 p 0 (pr - 1)) as [a5 r].
  destruct Hh as (Hp5 & Hl5 & Hr & Hlo & Hhi & Hsame); [lia|lia|..].
  { intros k Hk. assert (k = 0%nat) as -> by lia. by rewrite H40. }
  { intros k Hk. destruct (decide (k = pr)) as [->|Hne].
    - by rewrite H4r.
    - assert (k = (pr - 1)%nat) as -> by lia. rewrite H4p. lia. }
  assert (H5p : a5 !!! (pr - 1)%nat = p) by (rewrite Hsame by lia; done).
  assert (Hpiv : swap a5 r (pr - 1) !!! r = p).
  { rewrite swap_lookup_l by lia. done. }
  split.
  { rewrite swap_Permutation by lia. rewrite Hp5. unfold a4.
    rewrite swap_Permutation by lia. by rewrite Hp3, Hp2, Hp1. }
  split; [rewrite length_swap; lia|]. split; [lia|].
  rewrite Hpiv. split.
  - intros k Hk. rewrite swap_lookup_ne by lia. by apply Hlo.
  - intros k Hk. destruct (decide (k = (pr - 1)%nat)) as [->|Hne].
    + rewrite swap_lookup_r by lia. apply Hhi. lia.
    + rewrite swap_lookup_ne by lia. apply Hhi. lia.
Qed.

(** *** Heap sort *)

Lemma length_wr1 a k x : length (wr1 a k x) = length a.
Proof. apply length_insert. Qed.

Lemma rd1_wr1_eq a k x : (1 <= k <= length a)%nat -> rd1 (wr1 a k x) k = x.
Proof. intros H. unfold rd1, wr1. apply list_lookup_total_insert_eq. lia. Qed.

Lemma rd1_wr1_ne a k c x :
  (1 <= k)%nat -> (1 <= c)%nat -> c ≠ k -> rd1 (wr1 a k x) c = rd1 a c.
Proof. intros Hk Hc Hne. unfold rd1, wr1. apply list_lookup_total_insert_ne. lia. Qed.

Lemma wr1_wr1_swap a i j x y :
  (1 <= i <= length a)%nat -> (1 <= j <= length a)%nat -> i ≠ j ->
  rd1 a j = y ->
  wr1 (wr1 a i y) j x ≡ₚ wr1 a i x.
Proof.
  intros Hi Hj Hne Hy.
  assert (E : wr1 (wr1 a i y) j x = swap (wr1 a i x) (i - 1) (j - 1)).
  { unfold swap, wr1 in *. unfold rd1 in Hy.
    rewrite list_lookup_total_insert_ne by lia.
    rewrite list_lookup_total_insert_eq by lia. rewrite Hy.
    apply list_eq. intros k. rewrite !list_lookup_insert, !length_insert.
    repeat case_decide; try done; lia. }
  rewrite E. apply swap_Permutation; rewrite length_wr1; lia.
Qed.

(** The larger child of a node with at least one child. *)
Lemma larger_child a i n :
  (1 <= i)%nat -> (i + i <= n)%nat ->
  let j := (i + i)%nat in
  let j' := if (j <? n)%nat && LT v (rd1 a j) (rd1 a (j + 1)) then (j + 1)%nat else j in
  (j' = j \/ j' = j + 1)%nat /\ (j' <= n)%nat
  /\ forall c, (c = 2 * i \/ c = 2 * i + 1)%nat -> (c <= n)%nat ->
       v (rd1 a c) <= v (rd1 a j').
Proof.
  intros Hi Hj. cbn zeta.
  destruct (i + i <? n)%nat eqn:E; cbn [andb].
  - apply Nat.ltb_lt in E.
    destruct (LT v (rd1 a (i + i)) (rd1 a (i + i + 1))) eqn:L.
    + apply LT_true in L. split; [by right|]. split; [lia|].
      intros c [-> | ->] Hc.
      * replace (2 * i)%nat with (i + i)%nat by lia. lia.
      * replace (2 * i + 1)%nat with (i + i + 1)%nat by lia. lia.
    + apply LT_false in L. split; [by left|]. split; [lia|].
      intros c [-> | ->] Hc.
      * replace (2 * i)%nat with (i + i)%nat by lia. lia.
      * replace (2 * i + 1)%nat with (i + i + 1)%nat by lia. lia.
  - apply Nat.ltb_ge in E. split; [by left|]. split; [lia|].
    intros c [-> | ->] Hc; [|lia].
    replace (2 * i)%nat with (i + i)%nat by lia. lia.
Qed.

Lemma sift_spec tmp lo n : forall fuel a i,
  (1 <= lo <= i)%nat -> (i <= n)%nat -> (n <= length a)%nat -> (n < i + fuel)%nat ->
  hole_ok v a tmp lo n i ->
  let a' := sift v fuel a tmp i (i + i) n in
  heap_from v a' lo n
  /\ length a' = length a
  /\ a' ≡ₚ wr1 a i tmp
  /\ (forall k, (n < k)%nat -> rd1 a' k = rd1 a k)
  /\ (forall P : nat -> Prop, P tmp ->
        (forall k, (1 <= k <= n)%nat -> k ≠ i -> P (rd1 a k)) ->
        forall k, (1 <= k <= n)%nat -> P (rd1 a' k)).
Proof.
  induction fuel as [|fuel IH]; intros a i Hlo Hin Hlen Hfuel [Ha Hb]; [lia|].
  assert (Hstop : forall (top : forall c, (c = 2 * i \/ c = 2 * i + 1)%nat ->
                             (c <= n)%nat -> v (rd1 a c) <= v tmp),
            heap_from v (wr1 a i tmp) lo n
            /\ length (wr1 a i tmp) = length a
            /\ wr1 a i tmp ≡ₚ wr1 a i tmp
            /\ (forall k, (n < k)%nat -> rd1 (wr1 a i tmp) k = rd1 a k)
            /\ (forall P : nat -> Prop, P tmp ->
                  (forall k, (1 <= k <= n)%nat -> k ≠ i -> P (rd1 a k)) ->
                  forall k, (1 <= k <= n)%nat -> P (rd1 (wr1 a i tmp) k))).
  { intros top. split; [|split; [apply length_wr1|split; [done|split]]].
    - intros k c Hk Hc Hcn.
      destruct (decide (k = i)) as [->|Hki].
      + rewrite rd1_wr1_eq by lia. rewrite rd1_wr1_ne by lia. by apply top.
      + rewrite (rd1_wr1_ne a i k) by lia.
        destruct (decide (c = i)) as [->|Hci].
        * rewrite rd1_wr1_eq by lia. by apply (Hb k).
        * rewrite rd1_wr1_ne by lia. by apply Ha.
    - intros k Hk. apply rd1_wr1_ne; lia.
    - intros P Htmp Hrest k Hk. destruct (decide (k = i)) as [->|Hki].
      + by rewrite rd1_wr1_eq by lia.
      + rewrite rd1_wr1_ne by lia. by apply Hrest. }
  cbn [sift]. destruct (i + i <=? n)%nat eqn:Ej.
  - apply Nat.leb_le in Ej.
    destruct (larger_child a i n) as (Hj' & Hj'n & Hmax); [lia|lia|].
    set (j' := if (i + i <? n)%nat && LT v (rd1 a (i + i)) (rd1 a (i + i + 1))
               then (i + i + 1)%nat else (i + i)%nat) in *.
    destruct (LT v tmp (rd1 a j')) eqn:Et.
    + apply LT_true in Et.
      set (a1 := wr1 a i (rd1 a j')).
      assert (Hl1 : length a1 = length a) by apply length_wr1.
      destruct (IH a1 j') as (Hheap & Hlen' & Hperm & Hout & HP);
        [lia|lia|lia|lia| |].
      { split.
        - intros k c Hk Hkj Hc Hcn Hcj.
          destruct (decide (k = i)) as [->|Hki].
          + unfold a1. rewrite rd1_wr1_eq by lia. rewrite rd1_wr1_ne by lia.
            by apply Hmax.
          + unfold a1. rewrite (rd1_wr1_ne a i k) by lia.
            destruct (decide (c = i)) as [->|Hci].
            * rewrite rd1_wr1_eq by lia. apply (Hb k); [done|done| |done]. lia.
            * rewrite rd1_wr1_ne by lia. by apply Ha.
        - intros k Hk Hkj. assert (k = i) as -> by lia.
          unfold a1. rewrite rd1_wr1_eq by lia. split; [lia|].
          intros c Hc Hcn. rewrite rd1_wr1_ne by lia.
          apply Ha; [lia|lia|done|done|lia]. }
      split; [done|]. split; [lia|]. split.
      { rewrite Hperm. unfold a1. apply wr1_wr1_swap; [lia|lia|lia|done]. }
      split.
      { intros k Hk. rewrite Hout by done. unfold a1. apply rd1_wr1_ne; lia. }
      intros P Htmp Hrest k Hk. apply HP; [done| |done].
      intros c Hc Hcj. unfold a1. destruct (decide (c = i)) as [->|Hci].
      * rewrite rd1_wr1_eq by lia. apply Hrest; lia.
      * rewrite rd1_wr1_ne by lia. by apply Hrest.
    + apply LT_false in Et. apply Hstop.
      intros c Hc Hcn. specialize (Hmax c Hc Hcn). lia.
  - apply Nat.leb_gt in Ej. apply Hstop. intros c Hc Hcn. lia.
Qed.

Lemma heap_root_max a m :
  heap_from v a 1 m ->
  forall k, (1 <= k <= m)%nat -> v (rd1 a k) <= v (rd1 a 1).
Proof.
  intros Hh k. induction k as [k IH] using lt_wf_ind. intros Hk.
  destruct (decide (k = 1%nat)) as [->|Hne]; [lia|].
  pose proof (Nat.div_mod_eq k 2) as Hd.
  pose proof (Nat.mod_upper_bound k 2 ltac:(lia)) as Hm.
  assert (Hq : (1 <= k / 2 < k)%nat) by lia.
  specialize (IH (k / 2)%nat ltac:(lia) ltac:(lia)).
  assert (Hc : v (rd1 a k) <= v (rd1 a (k / 2))).
  { apply Hh; [lia| |lia]. lia. }
  lia.
Qed.

Lemma heapify_spec n : forall l a,
  (l <= n)%nat -> (n <= length a)%nat -> heap_from v a (l + 1) n ->
  let a' := heapify v l a n in
  heap_from v a' 1 n /\ length a' = length a /\ a' ≡ₚ a.
Proof.
  induction l as [|l IH]; intros a Hl Hn Hh.
  - by split.
  - cbn [heapify].
    destruct (sift_spec (rd1 a (S l)) (S l) n n a (S l))
      as (Hheap & Hlen & Hperm & _); [lia|lia|lia|lia| |].
    { split.
      - intros k c Hk Hki Hc Hcn _. apply Hh; [lia|done|done].
      - intros k Hk Hki. lia. }
    set (a1 := sift v n a (rd1 a (S l)) (S l) (S l + S l) n) in *.
    destruct (IH a1) as (H1 & H2 & H3); [lia|lia| |].
    { by replace (l + 1)%nat with (S l) by lia. }
    split; [done|]. split; [lia|]. rewrite H3, Hperm.
    unfold wr1, rd1. rewrite list_insert_id; [done|].
    apply list_lookup_lookup_total_lt. lia.
Qed.

Lemma extract_spec N : forall m a,
  (m <= N)%nat -> length a = N -> heap_from v a 1 m ->
  (forall k k', (m < k <= k')%nat -> (k' <= N)%nat -> v (rd1 a k) <= v (rd1 a k')) ->
  (forall k k', (1 <= k <= m)%nat -> (m < k' <= N)%nat -> v (rd1 a k) <= v (rd1 a k')) ->
  let a' := extract v m a in
  length a' = N /\ a' ≡ₚ a
  /\ forall k k', (1 <= k <= k')%nat -> (k' <= N)%nat -> v (rd1 a' k) <= v (rd1 a' k').
Proof.
  induction m as [|m IH]; intros a Hm Hlen Hh Hsuf Hcut.
  - split; [done|]. split; [done|]. intros k k' Hk Hk'. apply Hsuf; lia.
  - cbn [extract]. destruct (1 <? S m)%nat eqn:E.
    + apply Nat.ltb_lt in E.
      set (tmp := rd1 a (S m)).
      set (a1 := wr1 a (S m) (rd1 a 1)).
      assert (Hl1 : length a1 = N) by (unfold a1; by rewrite length_wr1).
      change 2%nat with (1 + 1)%nat.
      destruct (sift_spec tmp 1 m (S m) a1 1)
        as (Hheap & Hlen2 & Hperm & Hout & HP); [lia|lia|lia|lia| |].
      { split.
        - intros k c Hk Hk1 Hc Hcn Hc1. unfold a1.
          rewrite !rd1_wr1_ne by lia. apply Hh; [done|done|lia].
        - intros k Hk Hk1. lia. }
      set (a2 := sift v (S m) a1 tmp 1 (1 + 1) m) in *.
      assert (Hroot : forall k, (1 <= k <= S m)%nat -> v (rd1 a k) <= v (rd1 a 1))
        by (by apply heap_root_max).
      assert (Hbig : rd1 a2 (S m) = rd1 a 1).
      { rewrite Hout by lia. unfold a1. apply rd1_wr1_eq. lia. }
      assert (Hrest : forall k, (S m < k)%nat -> rd1 a2 k = rd1 a k).
      { intros k Hk. rewrite Hout by lia. unfold a1. apply rd1_wr1_ne; lia. }
      assert (Hsmall : forall k, (1 <= k <= m)%nat ->
                v (rd1 a2 k) <= v (rd1 a 1)
                /\ forall k', (S m < k' <= N)%nat -> v (rd1 a2 k) <= v (rd1 a k')).
      { apply (HP (fun x => v x <= v (rd1 a 1)
                  /\ forall k', (S m < k' <= N)%nat -> v x <= v (rd1 a k'))).
        - split; [apply Hroot; lia|]. intros k' Hk'. apply Hcut; lia.
        - intros k Hk Hk1. unfold a1. rewrite rd1_wr1_ne by lia.
          split; [apply Hroot; lia|]. intros k' Hk'. apply Hcut; lia. }
      destruct (IH a2) as (H1 & H2 & H3); [lia|lia|done|..].
      * intros k k' Hk Hk'.
        destruct (decide (k = S m)) as [->|Hne].
        -- rewrite Hbig. destruct (decide (k' = S m)) as [->|Hne'].
           ++ rewrite Hbig. lia.
           ++ rewrite (Hrest k') by lia. apply Hcut; lia.
        -- rewrite (Hrest k), (Hrest k') by lia. apply Hsuf; lia.
      * intros k k' Hk Hk'. destruct (Hsmall k Hk) as [Hr Hc].
        destruct (decide (k' = S m)) as [->|Hne'].
        -- by rewrite Hbig.
        -- rewrite (Hrest k') by lia. apply Hc. lia.
      * split; [done|]. split; [|done]. rewrite H2, Hperm. unfold a1, tmp.
        rewrite wr1_wr1_swap; [|lia|lia|lia|done].
        unfold wr1, rd1. rewrite list_insert_id; [done|].
        apply list_lookup_lookup_total_lt. lia.
    + apply Nat.ltb_ge in E. assert (m = 0%nat) as -> by lia.
      split; [done|]. split; [done|]. intros k k' Hk Hk'.
      destruct (decide (k = k')) as [->|Hne]; [lia|].
      destruct (decide (k = 1%nat)) as [->|Hk1].
      * apply Hcut; lia.
      * apply Hsuf; lia.
Qed.

Lemma sorted_of_lookup (l : list nat) :
  (forall i j, (i < j < length l)%nat -> v (l !!! i) <= v (l !!! j)) ->
  StronglySorted (key_le v) l.
Proof.
  induction l as [|x l IH]; intros H; constructor.
  - apply IH. intros i j Hij. apply (H (S i) (S j)). simpl. lia.
  - apply Forall_forall. intros y Hy.
    apply list_elem_of_lookup_total in Hy as (j & Hj & <-).
    apply (H 0%nat (S j)). simpl. lia.
Qed.

Lemma aheapsort_spec a :
  aheapsort v a ≡ₚ a /\ StronglySorted (key_le v) (aheapsort v a).
Proof.
  unfold aheapsort. set (n := length a).
  assert (Hhalf : (n / 2 <= n)%nat) by (apply Nat.Div0.div_le_upper_bound; lia).
  destruct (heapify_spec n (n / 2)%nat a) as (Hheap & Hlen & Hperm); [done|done| |].
  { intros k c Hk Hc Hcn. exfalso.
    pose proof (Nat.div_mod_eq n 2) as Hd.
    pose proof (Nat.mod_upper_bound n 2 ltac:(lia)) as Hm. lia. }
  destruct (extract_spec n n (heapify v (n / 2) a n)) as (H1 & H2 & H3);
    [done|done|done|..].
  - intros k k' Hk Hk'. lia.
  - intros k k' Hk Hk'. lia.
  - split; [by rewrite H2|]. apply sorted_of_lookup. intros i j Hij.
    rewrite H1 in Hij. specialize (H3 (S i) (S j) ltac:(lia) ltac:(lia)).
    unfold rd1 in H3. simpl in H3. by rewrite !Nat.sub_0_r in H3.
Qed.

(** *** The driver *)

Lemma aquicksort_range_spec : forall fuel popped cdepth a,
  (length a < fuel)%nat ->
  aquicksort_range v fuel popped cdepth a ≡ₚ a
  /\ StronglySorted (key_le v) (aquicksort_range v fuel popped cdepth a).
Proof.
  induction fuel as [|fuel IH]; intros popped cdepth a Hfuel; [lia|].
  cbn [aquicksort_range].
  destruct (popped && (cdepth <? 0)); [apply aheapsort_spec|].
  destruct (SMALL_QUICKSORT <? length a - 1)%nat eqn:E.
  - apply Nat.ltb_lt in E. unfold SMALL_QUICKSORT in E.
    pose proof (partition_spec a ltac:(lia)) as Hpart.
    destruct (partition v a) as [a' pi].
    destruct Hpart as (Hperm & Hlen & Hpi & Hlo & Hhi).
    set (p := a' !!! pi).
    set (lo := take pi a'). set (hi := drop (S pi) a').
    assert (Hsplit : a' = lo ++ p :: hi).
    { unfold lo, hi, p. symmetry. apply take_drop_middle.
      apply list_lookup_lookup_total_lt. lia. }
    assert (Hllo : (length lo < fuel)%nat).
    { unfold lo. rewrite length_take. lia. }
    assert (Hlhi : (length hi < fuel)%nat).
    { unfold hi. rewrite length_drop. lia. }
    assert (Hlo' : forall x, x ∈ lo -> v x <= v p).
    { intros x Hx. apply list_elem_of_lookup_total in Hx as (k & Hk & <-).
      unfold lo in *. rewrite length_take in Hk.
      rewrite lookup_total_take_lt by lia. apply Hlo. lia. }
    assert (Hhi' : forall x, x ∈ hi -> v p <= v x).
    { intros x Hx. apply list_elem_of_lookup_total in Hx as (k & Hk & <-).
      unfold hi in *. rewrite length_drop in Hk.
      rewrite lookup_total_drop. apply Hhi. lia. }
    assert (Hjoin : forall l1 l2, l1 ≡ₚ lo -> l2 ≡ₚ hi ->
              StronglySorted (key_le v) l1 -> StronglySorted (key_le v) l2 ->
              l1 ++ p :: l2 ≡ₚ a /\ StronglySorted (key_le v) (l1 ++ p :: l2)).
    { intros l1 l2 H1 H2 S1 S2. split.
      - by rewrite H1, H2, <- Hsplit.
      - apply StronglySorted_app_2; [|done|].
        + intros x1 x2 Hx1 Hx2. rewrite H1 in Hx1. unfold key_le.
          specialize (Hlo' x1 Hx1).
          apply elem_of_cons in Hx2 as [->|Hx2]; [done|].
          rewrite H2 in Hx2. specialize (Hhi' x2 Hx2). lia.
        + constructor; [done|]. apply Forall_forall. intros x Hx.
          rewrite H2 in Hx. by apply Hhi'. }
    destruct (pi <? length a - 1 - pi)%nat.
    + destruct (IH false (cdepth - 1) lo Hllo) as [P1 S1].
      destruct (IH true (cdepth - 1) hi Hlhi) as [P2 S2].
      by apply Hjoin.
    + destruct (IH true (cdepth - 1) lo Hllo) as [P1 S1].
      destruct (IH false (cdepth - 1) hi Hlhi) as [P2 S2].
      by apply Hjoin.
  - rewrite insertion_sort_isort. split; [apply isort_Permutation|apply isort_sorted].
Qed.

Lemma aquicksort_spec tosort :
  aquicksort v tosort ≡ₚ tosort /\ StronglySorted (key_le v) (aquicksort v tosort).
Proof. unfold aquicksort. apply aquicksort_range_spec. lia. Qed.

Lemma aquicksort_small tosort :
  (length tosort <= 17)%nat -> aquicksort v tosort = isort v tosort.
Proof.
  intros Hn. unfold aquicksort. cbn [aquicksort_range].
  assert (Hd : (npy_get_msb (length tosort) * 2 <? 0) = false).
  { apply Z.ltb_ge. unfold npy_get_msb.
    pose proof (Z.log2_nonneg (Z.of_nat (length tosort))). lia. }
  rewrite Hd. cbn [andb].
  assert (Hs : (SMALL_QUICKSORT <? length tosort - 1)%nat = false).
  { apply Nat.ltb_ge. unfold SMALL_QUICKSORT. lia. }
  rewrite Hs. apply insertion_sort_isort.
Qed.

End Keys.

Lemma StronglySorted_lookup {A} (R : A -> A -> Prop) (l : list A) :
StronglySorted R l ->
forall i j a b, (i < j)%nat -> l !! i = Some a -> l !! j = Some b -> R a b.
Proof.
induction 1 as [|x l Hs IH Hall]; intros i j a b Hij Ha Hb; [done|].
destruct j as [|j]; [lia|]. simpl in Hb. destruct i as [|i]; simpl in Ha.
- injection Ha as <-. rewrite Forall_forall in Hall. apply Hall.
  by eapply list_elem_of_lookup_2.
- apply (IH i j); [lia|done|done].
Qed.

Lemma seq_increasing n : forall s, StronglySorted lt (seq s n).
Proof.
induction n as [|n IH]; intros s; simpl; constructor; [apply IH|].
apply Forall_forall. intros x Hx. apply elem_of_seq in Hx. lia.
Qed.

End NpysortFacts.

Lemma argsort_Permutation keys : Npysort.argsort keys ≡ₚ seq 0 (length keys).
Proof. unfold Npysort.argsort. apply NpysortFacts.aquicksort_spec. Qed.

Lemma argsort_ascending keys : ascending_by keys (Npysort.argsort keys).
Proof.
  intros i j a b Hij Ha Hb.
  destruct (NpysortFacts.aquicksort_spec (fun i => keys !!! i) (seq 0 (length keys)))
    as [_ Hs].
  apply (NpysortFacts.StronglySorted_lookup _ _ Hs i j a b Hij Ha Hb).
Qed.

Lemma argsort_ties_small keys :
  (length keys <= 17)%nat -> ties_in_order keys (Npysort.argsort keys).
Proof.
  intros Hn i j a b Hij Ha Hb Heq. unfold Npysort.argsort in Ha, Hb.
  rewrite NpysortFacts.aquicksort_small in Ha, Hb by (by rewrite length_seq).
  pose proof (NpysortFacts.isort_stable (fun i => keys !!! i) (seq 0 (length keys))
                (NpysortFacts.seq_increasing _ _)) as Hs.
  pose proof (NpysortFacts.StronglySorted_lookup _ _ Hs i j a b Hij Ha Hb) as Hab.
  unfold SortSpec.key_before in Hab. lia.
Qed.

Lemma Permutation_seq_lt (l : list nat) n k :
  l ≡ₚ seq 0 n -> k ∈ l -> (k < n)%nat.
Proof.
  intros Hp Hk. rewrite Hp in Hk. apply elem_of_seq in Hk. lia.
Qed.

Lemma lookup_total_seq_0 n k : (k < n)%nat -> seq 0 n !!! k = k.
Proof. intros H. apply list_lookup_total_correct. by apply lookup_seq_lt. Qed.

Lemma nargsort_ascending_eq keys : nargsort keys true = Npysort.argsort keys.
Proof.
  unfold nargsort. pose proof (argsort_Permutation keys) as Hp.
  rewrite <- (list_fmap_id (Npysort.argsort keys)) at 2.
  apply list_fmap_ext. intros i k Hi. simpl.
  apply lookup_total_seq_0. eapply Permutation_seq_lt; [exact Hp|].
  by eapply list_elem_of_lookup_2.
Qed.

(** ** Row selection *)

Lemma take_rows_fmap {A B} (g : A -> B) idx (xs : list A) :
  take_rows idx (g <$> xs) = g <$> take_rows idx xs.
Proof.
  unfold take_rows. induction idx as [|i idx IH]; [done|].
  csimpl. rewrite list_lookup_fmap. destruct (xs !! i); csimpl; by rewrite IH.
Qed.

Lemma cells_take_rows idx c :
  cells (column_map (fun A => take_rows idx) c) = take_rows idx (cells c).
Proof. destruct c; simpl; by rewrite ?take_rows_fmap. Qed.

Lemma take_rows_total {A} `{Inhabited A} idx (xs : list A) :
  Forall (fun i => (i < length xs)%nat) idx ->
  take_rows idx xs = (fun i => xs !!! i) <$> idx.
Proof.
  unfold take_rows. induction 1 as [|i idx Hi _ IH]; [done|].
  csimpl. destruct (lookup_lt_is_Some_2 xs i Hi) as [x Hx].
  rewrite Hx, IH. csimpl. f_equal. symmetry. by apply list_lookup_total_correct.
Qed.

Lemma length_take_rows {A} idx (xs : list A) :
  Forall (fun i => (i < length xs)%nat) idx ->
  length (take_rows idx xs) = length idx.
Proof.
  unfold take_rows. induction 1 as [|i idx Hi _ IH]; [done|].
  csimpl. destruct (lookup_lt_is_Some_2 xs i Hi) as [x Hx].
  rewrite Hx. csimpl. by rewrite IH.
Qed.

Lemma lookup_take_rows {A} idx (xs : list A) i k :
  Forall (fun i => (i < length xs)%nat) idx ->
  idx !! i = Some k -> take_rows idx xs !! i = xs !! k.
Proof.
  intros Hall. revert i. unfold take_rows.
  induction Hall as [|j idx Hj _ IH]; intros i Hi; [done|].
  csimpl. destruct (lookup_lt_is_Some_2 xs j Hj) as [x Hx]. rewrite Hx.
  destruct i as [|i]; csimpl in *.
  - by injection Hi as ->.
  - by apply IH.
Qed.

Lemma mask_rows_fmap {A B} (g : A -> B) mask (xs : list A) :
  mask_rows mask (g <$> xs) = g <$> mask_rows mask xs.
Proof.
  revert xs. induction mask as [|b mask IH]; intros [|x xs]; simpl; try done.
  destruct b; simpl; by rewrite IH.
Qed.

Lemma cells_mask_rows mask c :
  cells (column_map (fun A => mask_rows mask) c) = mask_rows mask (cells c).
Proof. destruct c; simpl; by rewrite ?mask_rows_fmap. Qed.

(** ** Consolidation succeeds on a well-formed buffer *)

Lemma find_date_col_snoc l x :
  find_date_col (l ++ [x])
  = if String.prefix "datetime" x.2 then Some x.1 else find_date_col l.
Proof. unfold find_date_col. by rewrite foldl_app. Qed.

Lemma find_date_col_Some l :
  (exists x, x ∈ l /\ String.prefix "datetime" x.2 = true) ->
  exists d t, find_date_col l = Some d /\ (d, t) ∈ l /\ String.prefix "datetime" t = true.
Proof.
  induction l as [|[n t] l IH] using rev_ind; intros (x & Hx & Hp).
  - by apply elem_of_nil in Hx.
  - rewrite find_date_col_snoc. simpl.
    destruct (String.prefix "datetime" t) eqn:E.
    + exists n, t. split; [done|]. split; [|done].
      apply elem_of_app. right. left.
    + destruct IH as (d & t' & Hf & Hin & Hp').
      * apply elem_of_app in Hx as [Hx|Hx]; [by exists x|].
        apply list_elem_of_singleton in Hx. subst. simpl in Hp. congruence.
      * exists d, t'. split; [done|]. split; [|done]. apply elem_of_app. by left.
Qed.

Lemma col_types_schema pool : forall l,
  (forall nc, nc ∈ l -> getcol pool nc.1 = Ok nc.2) ->
  mapM (fun i => c ← getcol pool i; Ok (i, dtype_str c)) (columns l) = Ok (schema l).
Proof.
  induction l as [|[n c] l IH]; intros H; [done|].
  unfold columns. rewrite fmap_cons, mapM_outcome_cons. cbn [fst].
  pose proof (H (n, c) ltac:(left)) as Hc. cbn [fst snd] in Hc.
  rewrite Hc. cbn [mbind outcome_bind snd].
  unfold columns in IH. rewrite IH; [done|]. intros nc Hin. apply H. by right.
Qed.

Lemma mapM_add_totals_row frames :
  Forall (fun df => snapshot_table df /\ nrows df ≠ 0%nat) frames ->
  mapM add_totals_row frames = Ok (with_total <$> frames).
Proof.
  induction 1 as [|df frames [Hs Hn] _ IH]; [done|].
  rewrite mapM_outcome_cons, IH.
  destruct Hs as (Hnd & Hr & Htag & _).
  rewrite add_totals_row_with_total; [done|done| |by apply rectangular_rows].
  apply dtype_of_Some in Htag as (c & Hc & _). by eapply getcol_columns.
Qed.

Lemma snapshot_with_total df :
  snapshot_table df -> nrows df ≠ 0%nat ->
  schema (with_total df) = schema df /\ rectangular (with_total df)
  /\ nrows (with_total df) = S (nrows df).
Proof.
  intros (Hnd & Hr & Htag & _) Hn.
  assert (Hne : df ≠ []) by (intros ->; done).
  split; [|split].
  - apply schema_with_total; [done|done|by apply rectangular_rows].
  - by apply rectangular_with_total.
  - by apply nrows_with_total.
Qed.

Lemma datetime_prefix_TimeCol c :
  String.prefix "datetime" (dtype_str c) = true -> exists keys, c = TimeCol keys.
Proof. destruct c; simpl; try done. eauto. Qed.

Lemma dtype_int64_IntCol c : dtype_str c = "int64" -> exists xs, c = IntCol xs.
Proof. destruct c; simpl; try done. eauto. Qed.

Lemma NoDup_columns_schema a b : schema a = schema b -> NoDup (columns a) -> NoDup (columns b).
Proof. intros H. by rewrite !columns_schema, H. Qed.

Lemma schema_nil df : schema df = [] -> df = [].
Proof. by destruct df. Qed.

(** The shape of the Pool that [consolidate] returns. *)
Lemma consolidate_ok frames :
  buffer_ok frames ->
  exists pool0 d keys ps qs,
    concat (with_total <$> frames) = Ok pool0
    /\ find_date_col (schema pool0) = Some d
    /\ getcol pool0 d = Ok (TimeCol keys)
    /\ getcol (frame_map (fun A => take_rows (Npysort.argsort keys)) pool0) "PagedDiff"
       = Ok (IntCol ps)
    /\ getcol (frame_map (fun A => take_rows (Npysort.argsort keys)) pool0) "NonPagedDiff"
       = Ok (IntCol qs)
    /\ consolidate frames
       = Ok (setcol (frame_map (fun A => take_rows (Npysort.argsort keys)) pool0)
               "TotalDiff" (IntCol (zip_with add64 ps qs)))
    /\ NoDup (columns pool0) /\ rectangular pool0
    /\ nrows pool0 = sum_list ((fun df => S (nrows df)) <$> frames)
    /\ schema pool0 = schema (default [] (head frames)).
Proof.
  intros (Hne & Hall & Hsch).
  destruct frames as [|f0 fs]; [done|]. simpl in Hsch.
  pose proof (Forall_inv Hall) as [Hs0 Hn0].
  destruct (snapshot_with_total f0 Hs0 Hn0) as (Hsw0 & Hrw0 & Hnw0).
  assert (Hf0ne : with_total f0 ≠ []).
  { intros E. rewrite E in Hnw0. done. }
  destruct (concat_from_ok (with_total <$> fs) (with_total f0) Hf0ne Hrw0)
    as (pool0 & Hcat & Hsp & Hrp & Hnp).
  { apply Forall_fmap. apply Forall_forall. intros df Hin. simpl.
    rewrite Forall_forall in Hall, Hsch.
    destruct (Hall df) as [Hs Hn]; [by right|].
    destruct (snapshot_with_total df Hs Hn) as (H1 & H2 & H3).
    split; [|done]. rewrite H1, Hsw0. apply Hsch. by right. }
  rewrite Hsw0 in Hsp.
  destruct Hs0 as (Hnd0 & Hr0 & Htag0 & Hdt0 & Hutc0 & Hpd0 & Hnpd0).
  assert (Hndp : NoDup (columns pool0)) by (by eapply NoDup_columns_schema).
  (* the timestamp column *)
  destruct (find_date_col_Some (schema pool0)) as (d & t & Hfd & Hdin & Hdp).
  { exists ("DateTime", "datetime64[ns]"). split; [|done].
    rewrite Hsp. by apply dtype_of_elem. }
  apply list_elem_of_fmap in Hdin as ([d' cd] & [= <- ->] & Hdin). cbn [fst snd] in *.
  destruct (datetime_prefix_TimeCol _ Hdp) as [keys ->].
  pose proof (getcol_NoDup _ _ _ Hndp Hdin) as Hgd.
  (* the two counters *)
  set (sorted := frame_map (fun A => take_rows (Npysort.argsort keys)) pool0).
  assert (Hps : exists ps, getcol sorted "PagedDiff" = Ok (IntCol ps)).
  { rewrite <- (dtype_of_schema _ _ "PagedDiff" Hsp) in Hpd0.
    apply dtype_of_Some in Hpd0 as (c & Hc & Hd).
    apply dtype_int64_IntCol in Hd as [xs ->].
    unfold sorted. rewrite getcol_frame_map, Hc. simpl. eauto. }
  assert (Hqs : exists qs, getcol sorted "NonPagedDiff" = Ok (IntCol qs)).
  { rewrite <- (dtype_of_schema _ _ "NonPagedDiff" Hsp) in Hnpd0.
    apply dtype_of_Some in Hnpd0 as (c & Hc & Hd).
    apply dtype_int64_IntCol in Hd as [xs ->].
    unfold sorted. rewrite getcol_frame_map, Hc. simpl. eauto. }
  destruct Hps as [ps Hps], Hqs as [qs Hqs].
  exists pool0, d, keys, ps, qs.
  split; [done|]. split; [done|]. split; [done|]. split; [done|]. split; [done|].
  split; [|split; [done|split; [done|split; [|done]]]].
  - unfold consolidate. rewrite mapM_add_totals_row by done.
    cbn [mbind outcome_bind].
    assert (Hcat' : concat (with_total <$> f0 :: fs) = Ok pool0) by done.
    rewrite Hcat'. cbn [mbind outcome_bind].
    assert (Hlast : columns (default [] (last (with_total <$> f0 :: fs)))
                    = columns pool0).
    { rewrite fmap_last.
      destruct (last (f0 :: fs)) as [fl|] eqn:El; [|by apply last_None in El].
      simpl. rewrite !columns_schema, Hsp. f_equal.
      assert (Hfl : fl ∈ f0 :: fs) by (by apply last_Some_elem_of).
      rewrite Forall_forall in Hall, Hsch.
      destruct (Hall fl Hfl) as [Hs Hn].
      destruct (snapshot_with_total fl Hs Hn) as (H1 & _). rewrite H1. by apply Hsch. }
    rewrite Hlast, col_types_schema by (intros [n c] Hin; by apply getcol_NoDup).
    cbn [mbind outcome_bind]. rewrite Hfd. unfold sort_values. rewrite Hgd.
    cbn [mbind outcome_bind]. rewrite nargsort_ascending_eq. fold sorted.
    rewrite Hps, Hqs. reflexivity.
  - rewrite Hnp, Hnw0. rewrite fmap_cons. simpl. f_equal.
    rewrite <- list_fmap_compose. apply (f_equal (Nat.add (nrows f0))).
    apply (f_equal sum_list). apply list_fmap_ext.
    intros i df Hi. simpl.
    rewrite Forall_forall in Hall.
    destruct (Hall df) as [Hs Hn]; [right; by eapply list_elem_of_lookup_2|].
    by destruct (snapshot_with_total df Hs Hn) as (_ & _ & ?).
Qed.

(** ** The consolidated Pool *)

Lemma getcol_setcol df n c m :
  getcol (setcol df n c) m = if String.eqb n m then Ok c else getcol df m.
Proof.
  induction df as [|[k x] df IH]; simpl.
  - done.
  - destruct (String.eqb k n) eqn:E; simpl.
    + apply String.eqb_eq in E. subst. by destruct (String.eqb n m).
    + rewrite IH. destruct (String.eqb k m) eqn:E2; [|done].
      apply String.eqb_eq in E2. subst. by rewrite String.eqb_sym, E.
Qed.

Lemma nrows_setcol df n c :
  df ≠ [] -> length (cells c) = nrows df -> nrows (setcol df n c) = nrows df.
Proof.
  destruct df as [|[k x] df]; [done|]. intros _ H. simpl.
  by destruct (String.eqb k n).
Qed.

Lemma columns_setcol df n c : n ∈ columns (setcol df n c).
Proof.
  induction df as [|[k x] df IH]; simpl; [left|].
  destruct (String.eqb k n) eqn:E; simpl.
  - apply String.eqb_eq in E. subst. left.
  - by right.
Qed.

Lemma argsort_in_range keys :
  Forall (fun i => (i < length keys)%nat) (Npysort.argsort keys).
Proof.
  apply Forall_forall. intros i Hi.
  eapply Permutation_seq_lt; [apply argsort_Permutation|done].
Qed.

Lemma length_argsort keys : length (Npysort.argsort keys) = length keys.
Proof. by rewrite (argsort_Permutation keys), length_seq. Qed.

Lemma rectangular_getcol df n c :
  rectangular df -> getcol df n = Ok c -> length (cells c) = nrows df.
Proof.
  intros Hr Hc. apply getcol_elem_of in Hc.
  unfold rectangular in Hr. rewrite Forall_forall in Hr. apply (Hr _ Hc).
Qed.

(** A table read through an indexer that is in range. *)
Lemma sorted_frame pool0 idx :
  pool0 ≠ [] -> rectangular pool0 ->
  Forall (fun i => (i < nrows pool0)%nat) idx ->
  let sorted := frame_map (fun A => take_rows idx) pool0 in
  nrows sorted = length idx
  /\ rectangular sorted
  /\ forall name c, getcol pool0 name = Ok c ->
       exists c', getcol sorted name = Ok c'
         /\ length (cells c') = length idx
         /\ forall i k, idx !! i = Some k -> cells c' !! i = cells c !! k.
Proof.
  intros Hne Hr Hidx sorted.
  assert (Hlen : forall c, length (cells c) = nrows pool0 ->
            length (cells (column_map (fun A => take_rows idx) c)) = length idx).
  { intros c Hc. rewrite cells_take_rows, length_take_rows; [done|]. by rewrite Hc. }
  assert (Hn : nrows sorted = length idx).
  { unfold sorted. destruct pool0 as [|[n c] p]; [done|]. simpl.
    apply Hlen. by apply Forall_inv in Hr. }
  split; [done|]. split.
  - unfold rectangular. rewrite Hn. unfold sorted, frame_map.
    apply Forall_fmap. eapply Forall_impl; [exact Hr|].
    intros [n c] Hc. simpl in *. by apply Hlen.
  - intros name c Hc. exists (column_map (fun A => take_rows idx) c).
    split; [unfold sorted; by rewrite getcol_frame_map, Hc|].
    pose proof (rectangular_getcol _ _ _ Hr Hc) as Hcl.
    split; [by apply Hlen|].
    intros i k Hi. rewrite cells_take_rows. apply lookup_take_rows; [|done].
    by rewrite Hcl.
Qed.

Lemma lookup_fmap_CInt (xs : list Z) (i : nat) :
  (CInt <$> xs) !! i = CInt <$> (xs !! i).
Proof. apply list_lookup_fmap. Qed.

(** What [digest] leaves on a well-formed buffer, in one place: the
    concatenation [pool0] of the normalized tables, the timestamp column
    [d] with its [keys], the indexer of the sort and the Pool. *)
Lemma digest_structure w frames :
  digest_called (self w) = false ->
  individual_data_frames (self w) = Some frames ->
  buffer_ok frames ->
  exists pool0 d keys pool,
    concat (with_total <$> frames) = Ok pool0
    /\ find_date_col (schema pool0) = Some d
    /\ getcol pool0 d = Ok (TimeCol keys)
    /\ length keys = nrows pool0
    /\ nrows pool0 = sum_list ((fun df => S (nrows df)) <$> frames)
    /\ schema pool0 = schema (default [] (head frames))
    /\ digest w = (Ok pool, {| self := digested pool; lists := lists w; plots := plots w |})
    /\ nrows pool = nrows pool0
    /\ "TotalDiff" ∈ columns pool
    /\ (forall name c, getcol pool0 name = Ok c -> name ≠ "TotalDiff" ->
          exists c', getcol pool name = Ok c'
            /\ length (cells c') = nrows pool0
            /\ forall i k, Npysort.argsort keys !! i = Some k ->
                 cells c' !! i = cells c !! k)
    /\ (forall i, (i < nrows pool)%nat ->
          exists p q, getcell pool "PagedDiff" i = Some (CInt p)
            /\ getcell pool "NonPagedDiff" i = Some (CInt q)
            /\ getcell pool "TotalDiff" i = Some (CInt (add64 p q))).
Proof.
  intros Hflag Hframes Hbuf.
  destruct (consolidate_ok frames Hbuf)
    as (pool0 & d & keys & ps & qs & Hcat & Hfd & Hgd & Hps & Hqs & Hcons
        & Hnd & Hr & Hn & Hsch).
  set (idx := Npysort.argsort keys) in *.
  set (sorted := frame_map (fun A => take_rows idx) pool0) in *.
  set (pool := setcol sorted "TotalDiff" (IntCol (zip_with add64 ps qs))) in *.
  assert (Hkeys : length keys = nrows pool0).
  { apply (rectangular_getcol _ _ _ Hr) in Hgd. simpl in Hgd.
    by rewrite length_fmap in Hgd. }
  assert (Hne0 : pool0 ≠ []) by (intros ->; done).
  assert (Hidx : Forall (fun i => (i < nrows pool0)%nat) idx).
  { rewrite <- Hkeys. apply argsort_in_range. }
  assert (Hlidx : length idx = nrows pool0).
  { unfold idx. by rewrite length_argsort. }
  destruct (sorted_frame pool0 idx Hne0 Hr Hidx) as (Hns & Hrs & Hcols).
  fold sorted in Hns, Hrs, Hcols. rewrite Hlidx in Hns.
  assert (Hlps : length ps = nrows pool0).
  { apply (rectangular_getcol _ _ _ Hrs) in Hps. simpl in Hps.
    rewrite length_fmap in Hps. by rewrite Hps. }
  assert (Hlqs : length qs = nrows pool0).
  { apply (rectangular_getcol _ _ _ Hrs) in Hqs. simpl in Hqs.
    rewrite length_fmap in Hqs. by rewrite Hqs. }
  assert (Hnes : sorted ≠ []).
  { intros E. rewrite E in Hps. done. }
  assert (Hnp : nrows pool = nrows pool0).
  { unfold pool. rewrite nrows_setcol; [done|done|].
    simpl. rewrite length_fmap, length_zip_with. lia. }
  exists pool0, d, keys, pool.
  split; [done|]. split; [done|]. split; [done|]. split; [done|].
  split; [done|]. split; [done|].
  split; [by apply (digest_world_ok w frames)|].
  split; [done|]. split; [apply columns_setcol|]. split.
  - intros name c Hc Hname.
    destruct (Hcols name c Hc) as (c' & Hc' & Hl & Hrows).
    exists c'. split; [|split; [by rewrite Hl|done]].
    unfold pool. rewrite getcol_setcol.
    destruct (String.eqb "TotalDiff" name) eqn:E; [|done].
    apply String.eqb_eq in E. by subst.
  - intros i Hi. rewrite Hnp in Hi.
    destruct (lookup_lt_is_Some_2 ps i) as [p Hp]; [lia|].
    destruct (lookup_lt_is_Some_2 qs i) as [q Hq]; [lia|].
    exists p, q. unfold getcell, pool. rewrite !getcol_setcol. simpl.
    rewrite Hps, Hqs. simpl. rewrite !lookup_fmap_CInt, Hp, Hq. simpl.
    split; [done|]. split; [done|].
    rewrite lookup_zip_with, Hp. simpl. by rewrite Hq.
Qed.

(** ** The claims about [digest] *)

(** C2, as the program has it.  On a well-formed buffer the Pool is the
    concatenation of the normalized tables (file order, then row order)
    read through one indexer: a permutation of the row positions along
    which the chosen timestamp column, the last datetime column, never
    decreases.  Rows of equal timestamps keep their concatenation order
    when the Pool has at most 17 rows, the range the default quicksort
    finishes by insertion. *)
Theorem digest_sorts_by_timestamp (w : world) (frames : list DataFrame)
    (Hflag : digest_called (self w) = false)
    (Hframes : individual_data_frames (self w) = Some frames)
    (Hbuf : buffer_ok frames) :
  exists pool0 d keys indexer pool w1,
    (mapM add_totals_row frames ≫= concat) = Ok pool0
    /\ find_date_col (schema pool0) = Some d
    /\ getcol pool0 d = Ok (TimeCol keys)
    /\ digest w = (Ok pool, w1)
    /\ indexer ≡ₚ seq 0 (nrows pool0)
    /\ nrows pool = nrows pool0
    /\ (forall name c, getcol pool0 name = Ok c -> name ≠ "TotalDiff" ->
          exists c', getcol pool name = Ok c'
            /\ forall i k, indexer !! i = Some k -> cells c' !! i = cells c !! k)
    /\ ascending_by keys indexer
    /\ ((nrows pool0 <= 17)%nat -> ties_in_order keys indexer).
Proof.
  destruct (digest_structure w frames Hflag Hframes Hbuf)
    as (pool0 & d & keys & pool & Hcat & Hfd & Hgd & Hk & Hn & Hsch & Hdig & Hnp
        & Htd & Hcols & Hsum).
  exists pool0, d, keys, (Npysort.argsort keys), pool,
    {| self := digested pool; lists := lists w; plots := plots w |}.
  split.
  { destruct Hbuf as (_ & Hall & _). by rewrite mapM_add_totals_row. }
  split; [done|]. split; [done|]. split; [done|].
  split; [rewrite <- Hk; apply argsort_Permutation|].
  split; [done|]. split.
  - intros name c Hc Hname. destruct (Hcols name c Hc Hname) as (c' & H1 & _ & H2).
    by exists c'.
  - split; [apply argsort_ascending|]. intros Hsmall.
    apply argsort_ties_small. by rewrite Hk.
Qed.

(** C3, as the program has it.  On a well-formed buffer [digest]
    returns the Pool, in which every row, the Total Rows among them (the
    Pool has one more row per table than the tables have together),
    carries as TotalDiff what int64 arithmetic leaves of its PagedDiff
    plus its NonPagedDiff: a value of the int64 range that differs from
    the sum by a multiple of 2^64, and the sum itself whenever that fits
    in 64 bits; and normalization adds no column, so a TotalDiff column
    that no ingested table has is on no normalized table either: it
    appears with [digest]. *)
Theorem total_diff_after_digest (w : world) (frames : list DataFrame)
    (Hflag : digest_called (self w) = false)
    (Hframes : individual_data_frames (self w) = Some frames)
    (Hbuf : buffer_ok frames) :
  exists pool w1,
    digest w = (Ok pool, w1)
    /\ pool_entries (self w1) = Some pool
    /\ nrows pool = sum_list ((fun df => S (nrows df)) <$> frames)
    /\ "TotalDiff" ∈ columns pool
    /\ (forall i, (i < nrows pool)%nat ->
          exists p q z, getcell pool "PagedDiff" i = Some (CInt p)
            /\ getcell pool "NonPagedDiff" i = Some (CInt q)
            /\ getcell pool "TotalDiff" i = Some (CInt z)
            /\ int64_value (p + q) z
            /\ (- 2 ^ 63 <= p + q < 2 ^ 63 -> z = p + q))
    /\ (forall df, df ∈ frames ->
          exists df', add_totals_row df = Ok df' /\ columns df' = columns df
            /\ ("TotalDiff" ∉ columns df -> "TotalDiff" ∉ columns df')).
Proof.
  destruct (digest_structure w frames Hflag Hframes Hbuf)
    as (pool0 & d & keys & pool & Hcat & Hfd & Hgd & Hk & Hn & Hsch & Hdig & Hnp
        & Htd & Hcols & Hsum).
  exists pool, {| self := digested pool; lists := lists w; plots := plots w |}.
  split; [done|]. split; [done|]. split; [by rewrite Hnp|].
  split; [done|]. split.
  { intros i Hi. destruct (Hsum i Hi) as (p & q & Hp & Hq & Ht).
    exists p, q, (add64 p q). split; [done|]. split; [done|]. split; [done|].
    unfold add64. split; [apply wrap64_int64_value|apply wrap64_small]. }
  intros df Hdf. destruct Hbuf as (_ & Hall & _).
  rewrite Forall_forall in Hall. destruct (Hall df Hdf) as [(Hnd & Hr & Htag & _) Hrow].
  exists (with_total df). split.
  - apply add_totals_row_with_total; [done| |by apply rectangular_rows].
    apply dtype_of_Some in Htag as (c & Hc & _). by eapply getcol_columns.
  - split; [apply columns_with_total|]. by rewrite columns_with_total.
Qed.

(** C4, as the program has it.  On a well-formed buffer the first call
    to [digest] returns the Pool and keeps it; and for every pipeline,
    whatever a call to [digest] did, the next call raises the error of a
    repeated call, with the instance left as it was: the Pool is neither
    rebuilt nor returned. *)
Theorem digest_runs_once (w : world) (frames : list DataFrame)
    (Hflag : digest_called (self w) = false)
    (Hframes : individual_data_frames (self w) = Some frames)
    (Hbuf : buffer_ok frames) :
  (exists pool w1,
     digest w = (Ok pool, w1)
     /\ pool_entries (self w1) = Some pool
     /\ digest w1 = (Raise DigestCalledAgain, w1))
  /\ (forall w0 : world,
        digest (digest w0).2 = (Raise DigestCalledAgain, (digest w0).2)).
Proof.
  split; [|apply digest_twice].
  destruct (digest_structure w frames Hflag Hframes Hbuf)
    as (pool0 & d & keys & pool & _ & _ & _ & _ & _ & _ & Hdig & _).
  exists pool, {| self := digested pool; lists := lists w; plots := plots w |}.
  split; [done|]. split; [done|]. by apply digest_again.
Qed.

(** C4 fails on a pipeline that has ingested nothing: the first call
    does not succeed, [pd.concat] of no table raises. *)
Lemma digest_of_nothing_raises :
  (digest (world_of new_PoolEntries)).1 = Raise ValueError.
Proof. reflexivity. Qed.

(** C2 fails on two snapshot files written in the same second: the row
    of tag Aa02 (first file) precedes the row of tag Bb08 (second file)
    in the concatenation, both carry the same timestamp, and the Pool has
    them the other way round. *)
Lemma digest_reorders_equal_timestamps :
  exists pool0 pool,
    (mapM add_totals_row (default [] (individual_data_frames (self same_second_fixture)))
       ≫= concat) = Ok pool0
    /\ (digest same_second_fixture).1 = Ok pool
    /\ getcell pool0 "Tag" 1 = Some (CStr "Aa02")
    /\ getcell pool0 "Tag" 17 = Some (CStr "Bb08")
    /\ getcell pool0 "DateTimeUTC" 1 = getcell pool0 "DateTimeUTC" 17
    /\ getcell pool "Tag" 1 = Some (CStr "Bb08")
    /\ getcell pool "Tag" 17 = Some (CStr "Aa02")
    /\ getcell pool "DateTimeUTC" 1 = getcell pool "DateTimeUTC" 17.
Proof.
  eexists _, _. split; [by vm_compute|]. split; [by vm_compute|].
  repeat split; by vm_compute.
Qed.

(** C1 fails on a table without rows, such as a file that holds only
    the header line: there is no row 0 and the call raises. *)
Lemma add_totals_row_of_no_rows :
  snapshot_table (snapshot 0 []) /\ add_totals_row (snapshot 0 []) = Raise KeyError.
Proof. split; [well_formed|reflexivity]. Qed.

(** C3 fails where the sum leaves the int64 range: on a well-formed
    buffer whose one row has PagedDiff 2^63 - 1 and NonPagedDiff 1, the
    Pool's TotalDiff on that row is -2^63, not their sum 2^63. *)
Lemma total_diff_wraps_around :
  buffer_ok (default [] (individual_data_frames (self overflow_fixture)))
  /\ exists pool w1,
       digest overflow_fixture = (Ok pool, w1)
       /\ getcell pool "PagedDiff" 0 = Some (CInt (2 ^ 63 - 1))
       /\ getcell pool "NonPagedDiff" 0 = Some (CInt 1)
       /\ getcell pool "TotalDiff" 0 = Some (CInt (- 2 ^ 63))
       /\ - 2 ^ 63 ≠ (2 ^ 63 - 1) + 1.
Proof.
  split; [well_formed|].
  eexists _, _. split; [vm_compute; reflexivity|].
  repeat split; try (vm_compute; reflexivity). lia.
Qed.

Lemma buffer_ok_peaks :
  buffer_ok (default [] (individual_data_frames (self peaks_fixture))).
Proof. well_formed. Qed.

Lemma add_totals_row_appends_total_row_witness :
  exists df', add_totals_row ratio_fixture = Ok df'
    /\ getcell df' "HitRatio" 2 = Some (CFloat 0.25%float)
    /\ getcell df' "PagedDiff" 2 = Some (CInt 30).
Proof.
  destruct (add_totals_row_appends_total_row ratio_fixture)
    as (df' & Hrun & _); [by_decide|well_formed|reflexivity|intro; discriminate|].
  exists df'. split; [exact Hrun|].
  assert (E : df' = with_total ratio_fixture).
  { assert (H : Ok df' = Ok (with_total ratio_fixture)) by (rewrite <- Hrun; reflexivity).
    by injection H. }
  rewrite E. split; reflexivity.
Defined.

Lemma digest_sorts_by_timestamp_witness :
  exists pool w1, digest peaks_fixture = (Ok pool, w1) /\ nrows pool = 12%nat.
Proof.
  destruct (digest_sorts_by_timestamp peaks_fixture _ eq_refl eq_refl buffer_ok_peaks)
    as (pool0 & d & keys & indexer & pool & w1 & Hcat & _ & _ & Hdig & _ & Hn & _).
  exists pool, w1. split; [exact Hdig|].
  assert (E : Ok pool0 = Ok (default [] (match (mapM add_totals_row
              (default [] (individual_data_frames (self peaks_fixture))) ≫= concat) with
              | Ok x => Some x | _ => None end))).
  { rewrite <- Hcat. reflexivity. }
  injection E as E. rewrite Hn, E. reflexivity.
Defined.

Lemma total_diff_after_digest_witness :
  exists pool w1, digest peaks_fixture = (Ok pool, w1) /\ "TotalDiff" ∈ columns pool.
Proof.
  destruct (total_diff_after_digest peaks_fixture _ eq_refl eq_refl buffer_ok_peaks)
    as (pool & w1 & Hdig & _ & _ & Htd & _).
  exists pool, w1. split; [exact Hdig|exact Htd].
Defined.

Lemma digest_runs_once_witness :
  exists pool w1, digest peaks_fixture = (Ok pool, w1)
    /\ digest w1 = (Raise DigestCalledAgain, w1).
Proof.
  destruct (digest_runs_once peaks_fixture _ eq_refl eq_refl buffer_ok_peaks)
    as [(pool & w1 & Hdig & _ & Hagain) _].
  by exists pool, w1.
Defined.

(** ** Readers and digestion *)

Lemma get_df_digests w :
  digest_called (self w) = false ->
  get_df w = (digest ≫= fun _ => me ← get_self; mret (pool_entries me)) w.
Proof.
  intros H. unfold get_df. run_prog. rewrite H.
  by destruct (digest w) as [[pool| |] w1].
Qed.

Lemma get_all_tags_digests w :
  digest_called (self w) = false ->
  (get_all_tags w).2 = (digest w).2.
Proof.
  intros H. unfold get_all_tags, pool_col. run_prog. rewrite H.
  destruct (digest w) as [[pool| |] w1]; cbn; try done.
  destruct (pool_entries (self w1)); cbn; try done.
  repeat (case_outcome; cbn; try done).
  by destruct (str_cells _).
Qed.

(** C5, at the input where the code departs from it.  On a pipeline that
    has ingested tables and was never digested, [get_df] runs [digest]
    and returns the Pool, but both selections raise on the missing Pool
    and leave the pipeline undigested. *)
Theorem selection_does_not_digest :
  let w := peaks_fixture in
  digest_called (self w) = false
  /\ (exists pool w1, get_df w = (Ok (Some pool), w1) /\ digest_called (self w1) = true)
  /\ get_highest_tags 2 "TotalUsedBytes" (Some ArgNone) w = (Raise TypeError, w)
  /\ get_most_changed_tags 2 "TotalUsedBytes" (Some ArgNone) w = (Raise TypeError, w).
Proof.
  cbn zeta. split; [reflexivity|]. split; [|split; reflexivity].
  destruct (digest_structure peaks_fixture _ eq_refl eq_refl buffer_ok_peaks)
    as (pool0 & d & keys & pool & _ & _ & _ & _ & _ & _ & Hdig & _).
  eexists pool, _. rewrite get_df_digests by reflexivity.
  unfold mbind at 1. unfold prog_bind. rewrite Hdig. run_prog.
  split; reflexivity.
Qed.

(** ** The descending order of the selections *)

Lemma fmap_lookup_total_seq {A} `{Inhabited A} (l : list A) :
  (fun k => l !!! k) <$> seq 0 (length l) = l.
Proof.
  apply list_eq. intros i. rewrite list_lookup_fmap.
  destruct (decide (i < length l)%nat) as [Hi|Hi].
  - rewrite lookup_seq_lt by done. simpl.
    by rewrite list_lookup_lookup_total_lt.
  - rewrite lookup_seq_ge by lia. simpl. symmetry. apply lookup_ge_None. lia.
Qed.

Lemma nargsort_descending_Permutation keys :
  nargsort keys false ≡ₚ seq 0 (length keys).
Proof.
  unfold nargsort. rewrite reverse_Permutation.
  rewrite (argsort_Permutation (reverse keys)), length_reverse.
  pose proof (fmap_lookup_total_seq (reverse (seq 0 (length keys)))) as E.
  rewrite length_reverse, length_seq in E. rewrite E.
  apply reverse_Permutation.
Qed.

Lemma lookup_total_reverse_seq n k :
  (k < n)%nat -> reverse (seq 0 n) !!! k = (n - S k)%nat.
Proof.
  intros Hk. apply list_lookup_total_correct.
  rewrite reverse_lookup by (rewrite length_seq; lia).
  rewrite length_seq. apply lookup_seq_lt. lia.
Qed.

Lemma lookup_total_reverse (keys : list Z) k :
  (k < length keys)%nat -> reverse keys !!! k = keys !!! (length keys - S k)%nat.
Proof.
  intros Hk. apply list_lookup_total_correct.
  rewrite reverse_lookup by done. by apply list_lookup_lookup_total_lt; lia.
Qed.

Lemma nargsort_descending keys : descending_by keys (nargsort keys false).
Proof.
  intros i j a b Hij Ha Hb. unfold nargsort in Ha, Hb.
  set (n := length keys) in *.
  set (A := Npysort.argsort (reverse keys)) in *.
  assert (HlA : length A = n) by (unfold A; by rewrite length_argsort, length_reverse).
  assert (Hrange : forall k x, A !! k = Some x -> (x < n)%nat).
  { intros k x Hx. pose proof (argsort_in_range (reverse keys)) as Hr.
    rewrite Forall_forall in Hr. rewrite length_reverse in Hr. apply Hr.
    by eapply list_elem_of_lookup_2. }
  assert (Hj : (j < n)%nat).
  { apply lookup_lt_Some in Hb. by rewrite length_reverse, length_fmap, HlA in Hb. }
  rewrite reverse_lookup in Ha by (rewrite length_fmap, HlA; lia).
  rewrite reverse_lookup in Hb by (rewrite length_fmap, HlA; lia).
  rewrite length_fmap, HlA in Ha, Hb.
  rewrite list_lookup_fmap in Ha, Hb.
  destruct (A !! (n - S i)%nat) as [a'|] eqn:Ea; [|done].
  destruct (A !! (n - S j)%nat) as [b'|] eqn:Eb; [|done].
  simpl in Ha, Hb. injection Ha as <-. injection Hb as <-.
  pose proof (Hrange _ _ Ea) as Ha'. pose proof (Hrange _ _ Eb) as Hb'.
  rewrite !lookup_total_reverse_seq by done.
  pose proof (argsort_ascending (reverse keys) (n - S j)%nat (n - S i)%nat b' a') as Hasc.
  rewrite !lookup_total_reverse in Hasc by done.
  apply Hasc; [lia|done|done].
Qed.

(** ** The order of the group keys *)

Lemma ascii_compare_N a b : Ascii.compare a b = N.compare (Ascii.N_of_ascii a) (Ascii.N_of_ascii b).
Proof. reflexivity. Qed.

Lemma ascii_compare_Eq a b : Ascii.compare a b = Eq <-> a = b.
Proof.
  split; [apply Ascii.compare_eq_iff|]. intros ->.
  rewrite ascii_compare_N. apply N.compare_refl.
Qed.

Lemma string_compare_refl s : String.compare s s = Eq.
Proof.
  induction s as [|a s IH]; [done|]. simpl.
  by rewrite (proj2 (ascii_compare_Eq a a) eq_refl).
Qed.

Lemma string_compare_Lt_trans a : forall b c,
  String.compare a b = Lt -> String.compare b c = Lt -> String.compare a c = Lt.
Proof.
  induction a as [|x a IH]; intros [|y b] [|z c]; simpl; try done.
  rewrite !ascii_compare_N.
  destruct (N.compare_spec (Ascii.N_of_ascii x) (Ascii.N_of_ascii y)) as [Hxy|Hxy|Hxy];
    destruct (N.compare_spec (Ascii.N_of_ascii y) (Ascii.N_of_ascii z)) as [Hyz|Hyz|Hyz];
    try done; intros H1 H2.
  - rewrite Hxy, Hyz, N.compare_refl. by eapply IH.
  - rewrite Hxy. by rewrite (proj2 (N.compare_lt_iff _ _) Hyz).
  - rewrite <- Hyz. by rewrite (proj2 (N.compare_lt_iff _ _) Hxy).
  - by rewrite (proj2 (N.compare_lt_iff _ _) (N.lt_trans _ _ _ Hxy Hyz)).
Qed.

Lemma string_ltb_Lt a b : String.ltb a b = true <-> String.compare a b = Lt.
Proof. unfold String.ltb. destruct (String.compare a b); split; done. Qed.

Lemma string_ltb_irrefl a : String.ltb a a = false.
Proof. unfold String.ltb. by rewrite string_compare_refl. Qed.

Lemma string_ltb_trans a b c :
  String.ltb a b = true -> String.ltb b c = true -> String.ltb a c = true.
Proof. rewrite !string_ltb_Lt. apply string_compare_Lt_trans. Qed.

Lemma string_ltb_total a b :
  String.eqb a b = false -> String.ltb a b = false -> String.ltb b a = true.
Proof.
  intros Hne Hlt. apply string_ltb_Lt. rewrite String.compare_antisym.
  unfold String.ltb in Hlt. destruct (String.compare a b) eqn:E; try done.
  apply String.compare_eq_iff in E. subst. by rewrite String.eqb_refl in Hne.
Qed.

Lemma elem_of_insert_key k ks x : x ∈ insert_key k ks <-> x = k \/ x ∈ ks.
Proof.
  induction ks as [|k' ks IH]; simpl.
  - rewrite list_elem_of_singleton. split; [by left|]. intros [?|H]; [done|].
    by apply elem_of_nil in H.
  - destruct (String.eqb k k') eqn:E.
    + apply String.eqb_eq in E. subst. split; [by right|].
      intros [->|H]; [left|done].
    + destruct (String.ltb k k').
      * by rewrite elem_of_cons.
      * rewrite !elem_of_cons, IH. tauto.
Qed.

Lemma insert_key_sorted k ks :
  StronglySorted key_lt ks -> StronglySorted key_lt (insert_key k ks).
Proof.
  induction 1 as [|k' ks Hs IH Hall]; simpl.
  - repeat constructor.
  - destruct (String.eqb k k') eqn:E; [by constructor|].
    destruct (String.ltb k k') eqn:L.
    + constructor; [by constructor|]. constructor; [done|].
      eapply Forall_impl; [exact Hall|]. intros x Hx.
      by eapply string_ltb_trans.
    + constructor; [done|]. apply Forall_forall. intros x Hx.
      apply elem_of_insert_key in Hx as [->|Hx].
      * by apply string_ltb_total.
      * rewrite Forall_forall in Hall. by apply Hall.
Qed.

Lemma group_keys_sorted tags : StronglySorted key_lt (group_keys tags).
Proof.
  induction tags as [|t tags IH]; simpl; [constructor|]. by apply insert_key_sorted.
Qed.

Lemma elem_of_group_keys tags x : x ∈ group_keys tags <-> x ∈ tags.
Proof.
  induction tags as [|t tags IH]; simpl; [done|].
  by rewrite elem_of_insert_key, elem_of_cons, IH.
Qed.

Lemma sorted_keys_NoDup ks : StronglySorted key_lt ks -> NoDup ks.
Proof.
  induction 1 as [|k ks Hs IH Hall]; constructor; [|done].
  intros Hin. rewrite Forall_forall in Hall. specialize (Hall _ Hin).
  unfold key_lt in Hall. by rewrite string_ltb_irrefl in Hall.
Qed.

Lemma group_keys_NoDup tags : NoDup (group_keys tags).
Proof. apply sorted_keys_NoDup, group_keys_sorted. Qed.

(** ** The rows of a group *)

Lemma group_rows_cons t tags v vals key :
  group_rows (t :: tags) (v :: vals) key
  = (if String.eqb t key then [v] else []) ++ group_rows tags vals key.
Proof. reflexivity. Qed.

Lemma elem_of_group_rows tags : forall vals key x,
  x ∈ group_rows tags vals key
  <-> exists i, tags !! i = Some key /\ vals !! i = Some x.
Proof.
  induction tags as [|t tags IH]; intros [|v vals] key x.
  - split; [intros H; by apply elem_of_nil in H|]. by intros (i & H & _).
  - split; [intros H; by apply elem_of_nil in H|]. by intros (i & H & _).
  - split; [intros H; by apply elem_of_nil in H|]. by intros (i & _ & H).
  - rewrite group_rows_cons, elem_of_app, IH. split.
    + intros [H|(i & H1 & H2)].
      * destruct (String.eqb t key) eqn:E; [|by apply elem_of_nil in H].
        apply String.eqb_eq in E. apply list_elem_of_singleton in H. subst.
        by exists 0%nat.
      * by exists (S i).
    + intros ([|i] & H1 & H2); simpl in *.
      * injection H1 as ->. injection H2 as ->. left.
        rewrite String.eqb_refl. by left.
      * right. by exists i.
Qed.

Lemma head_group_rows tags : forall vals key i,
  length tags = length vals -> first_row tags key i ->
  head (group_rows tags vals key) = vals !! i.
Proof.
  induction tags as [|t tags IH]; intros [|v vals] key i Hlen [Hi Hbefore]; try done.
  rewrite group_rows_cons. destruct (String.eqb t key) eqn:E.
  - apply String.eqb_eq in E. subst. destruct i as [|i]; [done|].
    exfalso. by apply (Hbefore 0%nat); [lia|].
  - destruct i as [|i].
    + simpl in Hi. injection Hi as ->. by rewrite String.eqb_refl in E.
    + simpl. apply IH; [by injection Hlen|]. split; [done|].
      intros k Hk. apply (Hbefore (S k)). lia.
Qed.

Lemma last_app_ne {A} (l1 l2 : list A) : l2 ≠ [] -> last (l1 ++ l2) = last l2.
Proof.
  intros H. destruct l2 as [|x l2 _] using rev_ind; [done|].
  by rewrite app_assoc, !last_snoc.
Qed.

Lemma last_group_rows tags : forall vals key j,
  length tags = length vals -> last_row tags key j ->
  last (group_rows tags vals key) = vals !! j.
Proof.
  induction tags as [|t tags IH]; intros [|v vals] key j Hlen [Hj Hafter]; try done.
  rewrite group_rows_cons. destruct j as [|j].
  - simpl in Hj. injection Hj as ->. rewrite String.eqb_refl.
    assert (Hnone : group_rows tags vals key = []).
    { destruct (group_rows tags vals key) as [|x l] eqn:E; [done|].
      assert (Hx : x ∈ group_rows tags vals key) by (rewrite E; left).
      apply elem_of_group_rows in Hx as (i & Hi & _).
      exfalso. by apply (Hafter (S i)); [lia|]. }
    by rewrite Hnone.
  - simpl in Hj. assert (Hlast : last (group_rows tags vals key) = vals !! j).
    { apply IH; [by injection Hlen|]. split; [done|].
      intros k Hk. apply (Hafter (S k)). lia. }
    assert (Hne : group_rows tags vals key ≠ []).
    { intros E. rewrite E in Hlast. simpl in Hlast. symmetry in Hlast.
      apply lookup_ge_None in Hlast. apply lookup_lt_Some in Hj.
      injection Hlen as Hlen. lia. }
    rewrite last_app_ne by done. done.
Qed.

Lemma first_row_exists tags key :
  key ∈ tags -> exists i, first_row tags key i.
Proof.
  induction tags as [|t tags IH]; intros Hin; [by apply elem_of_nil in Hin|].
  destruct (decide (t = key)) as [->|Hne].
  - exists 0%nat. split; [done|]. intros k Hk. lia.
  - apply elem_of_cons in Hin as [->|Hin]; [done|].
    destruct (IH Hin) as (i & Hi & Hb). exists (S i). split; [done|].
    intros [|k] Hk; simpl; [by intros [= ?]|]. apply Hb. lia.
Qed.

Lemma last_row_exists tags key :
  key ∈ tags -> exists j, last_row tags key j.
Proof.
  induction tags as [|t tags IH]; intros Hin; [by apply elem_of_nil in Hin|].
  destruct (decide (key ∈ tags)) as [Hin'|Hout].
  - destruct (IH Hin') as (j & Hj & Ha). exists (S j). split; [done|].
    intros [|k] Hk; [lia|]. simpl. apply Ha. lia.
  - apply elem_of_cons in Hin as [->|Hin]; [|done].
    exists 0%nat. split; [done|]. intros [|k] Hk; [lia|]. simpl.
    intros Hk'. apply Hout. by eapply list_elem_of_lookup_2.
Qed.

(** Dropping the rows of other tags leaves the rows of a kept tag. *)
Lemma group_rows_mask (keep : string -> bool) tags : forall vals key,
  keep key = true ->
  group_rows (mask_rows (keep <$> tags) tags) (mask_rows (keep <$> tags) vals) key
  = group_rows tags vals key.
Proof.
  induction tags as [|t tags IH]; intros [|v vals] key Hk; try done.
  - assert (Hnil : forall (m : list bool), mask_rows m (@nil Z) = [])
      by (by intros [|[|] m]).
    rewrite Hnil. unfold group_rows. by destruct (mask_rows _ (t :: tags)).
  - rewrite fmap_cons. simpl. destruct (keep t) eqn:E.
    + rewrite !group_rows_cons. f_equal. by apply IH.
    + rewrite group_rows_cons, IH by done.
      destruct (String.eqb t key) eqn:E2; [|done].
      apply String.eqb_eq in E2. subst. congruence.
Qed.

Lemma elem_of_mask_rows (keep : string -> bool) tags x :
  x ∈ mask_rows (keep <$> tags) tags <-> x ∈ tags /\ keep x = true.
Proof.
  induction tags as [|t tags IH]; simpl.
  - split; [intros H; by apply elem_of_nil in H|]. intros [H _]. by apply elem_of_nil in H.
  - destruct (keep t) eqn:E.
    + rewrite !elem_of_cons, IH. split; [|tauto].
      intros [->|[? ?]]; [split; [by left|done]|]. split; [by right|done].
    + rewrite elem_of_cons, IH. split; [tauto|].
      intros [[->|?] ?]; [congruence|done].
Qed.

(** ** The aggregates *)

Lemma foldl_max_ge xs : forall x, x <= foldl Z.max x xs.
Proof.
  induction xs as [|y xs IH]; intros x; simpl; [lia|].
  specialize (IH (Z.max x y)). lia.
Qed.

Lemma foldl_max_bound xs : forall x, Forall (fun y => y <= foldl Z.max x xs) xs.
Proof.
  induction xs as [|y xs IH]; intros x; simpl; constructor.
  - pose proof (foldl_max_ge xs (Z.max x y)). lia.
  - apply IH.
Qed.

Lemma foldl_max_elem xs : forall x, foldl Z.max x xs = x \/ foldl Z.max x xs ∈ xs.
Proof.
  induction xs as [|y xs IH]; intros x; simpl; [by left|].
  destruct (IH (Z.max x y)) as [H|H].
  - rewrite H. destruct (Z.max_spec x y) as [[_ ->]|[_ ->]]; [right; left|by left].
  - right. by right.
Qed.

Lemma agg_max_spec xs :
  xs ≠ [] -> agg_max xs ∈ xs /\ Forall (fun y => y <= agg_max xs) xs.
Proof.
  destruct xs as [|x xs]; [done|]. intros _. simpl. split.
  - destruct (foldl_max_elem xs x) as [->|H]; [left|by right].
  - constructor; [apply foldl_max_ge|apply foldl_max_bound].
Qed.

(** ** The selections *)

Lemma str_cells_fmap (tags : list string) : str_cells (CStr <$> tags) = Some tags.
Proof.
  unfold str_cells. by apply mapM_fmap_Some.
Qed.

Lemma isin_CStr ign (tags : list string) :
  (fun c => negb (isin ign c)) <$> (CStr <$> tags)
  = (fun t => negb (bool_decide (t ∈ ign))) <$> tags.
Proof. rewrite <- list_fmap_compose. by apply list_fmap_ext. Qed.

Lemma groupby_agg_keys f tags vals : (groupby_agg f tags vals).*1 = group_keys tags.
Proof.
  unfold groupby_agg. rewrite <- list_fmap_compose.
  rewrite <- (list_fmap_id (group_keys tags)) at 2. by apply list_fmap_ext.
Qed.

Lemma groupby_agg_lookup f tags vals i t s :
  groupby_agg f tags vals !! i = Some (t, s) -> s = f (group_rows tags vals t).
Proof.
  unfold groupby_agg. rewrite list_lookup_fmap.
  destruct (group_keys tags !! i); simpl; [|done]. by intros [= <- <-].
Qed.

(** The ranking that [top_names] cuts at [n_tags]. *)
Lemma top_names_ranked f tags vals n :
  exists ranked,
    top_names (groupby_agg f tags vals) n = head_rows n ranked
    /\ ranked ≡ₚ group_keys tags
    /\ ranked_by (fun t => f (group_rows tags vals t)) ranked.
Proof.
  set (groups := groupby_agg f tags vals).
  set (indexer := nargsort groups.*2 false).
  assert (Hperm : indexer ≡ₚ seq 0 (length groups)).
  { unfold indexer. rewrite nargsort_descending_Permutation. by rewrite length_fmap. }
  assert (Hrange : Forall (fun i => (i < length groups)%nat) indexer).
  { apply Forall_forall. intros i Hi. by eapply Permutation_seq_lt. }
  exists (take_rows indexer groups).*1. split; [|split].
  - unfold top_names, head_rows. fold groups. fold indexer.
    destruct (n <? 0); by rewrite fmap_take, ?length_fmap.
  - rewrite (take_rows_total indexer groups Hrange), Hperm.
    rewrite fmap_lookup_total_seq. unfold groups. by rewrite groupby_agg_keys.
  - intros i j a b Hij Ha Hb.
    rewrite list_lookup_fmap in Ha, Hb.
    destruct (take_rows indexer groups !! i) as [[a' sa]|] eqn:Ea; [|done].
    destruct (take_rows indexer groups !! j) as [[b' sb]|] eqn:Eb; [|done].
    simpl in Ha, Hb. injection Ha as ->. injection Hb as ->.
    assert (Hli : (i < length indexer)%nat).
    { apply lookup_lt_Some in Ea. by rewrite length_take_rows in Ea. }
    assert (Hlj : (j < length indexer)%nat).
    { apply lookup_lt_Some in Eb. by rewrite length_take_rows in Eb. }
    destruct (lookup_lt_is_Some_2 indexer i Hli) as [ia Hia].
    destruct (lookup_lt_is_Some_2 indexer j Hlj) as [ib Hib].
    rewrite (lookup_take_rows indexer groups i ia Hrange Hia) in Ea.
    rewrite (lookup_take_rows indexer groups j ib Hrange Hib) in Eb.
    pose proof (nargsort_descending groups.*2 i j ia ib Hij Hia Hib) as Hd.
    assert (Hsa : groups.*2 !!! ia = sa).
    { apply list_lookup_total_correct. by rewrite list_lookup_fmap, Ea. }
    assert (Hsb : groups.*2 !!! ib = sb).
    { apply list_lookup_total_correct. by rewrite list_lookup_fmap, Eb. }
    rewrite Hsa, Hsb in Hd.
    unfold groups in Ea, Eb.
    apply groupby_agg_lookup in Ea, Eb. by subst.
Qed.

Lemma select_tags_ranked f n by_col ign w pool tags vals :
  pool_entries (self w) = Some pool ->
  getcol pool "Tag" = Ok (ObjCol (CStr <$> tags)) ->
  getcol pool by_col = Ok (IntCol vals) ->
  length tags = length vals -> by_col ≠ "Tag" ->
  exists ranked,
    select_tags f n by_col ign w = (Ok (head_rows n ranked), w)
    /\ NoDup ranked
    /\ (forall t, t ∈ ranked <-> t ∈ tags /\ t ∉ ign)
    /\ ranked_by (fun t => f (group_rows tags vals t)) ranked.
Proof.
  intros Hpool Htag Hcol Hlen Hby.
  set (keep := fun t : string => negb (bool_decide (t ∈ ign))).
  set (mask := keep <$> tags).
  destruct (top_names_ranked f (mask_rows mask tags) (mask_rows mask vals) n)
    as (ranked & Htop & Hperm & Hrank).
  assert (Hmem : forall t, t ∈ ranked <-> t ∈ tags /\ t ∉ ign).
  { intros t. rewrite Hperm, elem_of_group_keys. unfold mask.
    rewrite elem_of_mask_rows. unfold keep.
    rewrite negb_true_iff, bool_decide_eq_false. done. }
  exists ranked. split; [|split; [|split; [done|]]].
  - unfold select_tags, pool_col. run_prog. rewrite Hpool. cbn -[frame_map top_names].
    rewrite Htag, Hpool. cbn -[frame_map top_names].
    rewrite !getcol_frame_map, Htag, Hcol. cbn -[top_names].
    apply String.eqb_neq in Hby. rewrite Hby.
    rewrite isin_CStr. fold keep. fold mask.
    rewrite mask_rows_fmap, str_cells_fmap. by rewrite Htop.
  - rewrite Hperm. apply group_keys_NoDup.
  - intros i j a b Hij Ha Hb.
    assert (Hka : keep a = true).
    { assert (Hin : a ∈ ranked) by (by eapply list_elem_of_lookup_2).
      apply Hmem in Hin as [_ Hin]. unfold keep.
      by apply negb_true_iff, bool_decide_eq_false. }
    assert (Hkb : keep b = true).
    { assert (Hin : b ∈ ranked) by (by eapply list_elem_of_lookup_2).
      apply Hmem in Hin as [_ Hin]. unfold keep.
      by apply negb_true_iff, bool_decide_eq_false. }
    pose proof (Hrank i j a b Hij Ha Hb) as H. simpl in H.
    unfold mask in H. by rewrite !group_rows_mask in H.
Qed.

Lemma ignore_with_total_run w default_list ignore_tags :
  exists w1,
    ignore_with_total (default (ArgList default_list) ignore_tags) w
    = (Ok (ignore_content w default_list ignore_tags ++ ["TOTAL"]), w1)
    /\ self w1 = self w.
Proof.
  unfold ignore_with_total, ignore_content.
  destruct (default (ArgList default_list) ignore_tags); eauto.
Qed.

Lemma selection_run f n by_col w default_list ignore_tags pool tags vals :
  pool_entries (self w) = Some pool ->
  getcol pool "Tag" = Ok (ObjCol (CStr <$> tags)) ->
  getcol pool by_col = Ok (IntCol vals) ->
  length tags = length vals -> by_col ≠ "Tag" -> 0 <= n ->
  exists ranked,
    ((ignore ← ignore_with_total (default (ArgList default_list) ignore_tags);
      select_tags f n by_col ignore) w).1 = Ok (take (Z.to_nat n) ranked)
    /\ NoDup ranked
    /\ (forall t, t ∈ ranked <->
          t ∈ tags /\ (t ∉ ignore_content w default_list ignore_tags) /\ t ≠ "TOTAL")
    /\ ranked_by (fun t => f (group_rows tags vals t)) ranked.
Proof.
  intros Hpool Htag Hcol Hlen Hby Hn.
  destruct (ignore_with_total_run w default_list ignore_tags) as (w1 & Hrun & Hself).
  destruct (select_tags_ranked f n by_col
              (ignore_content w default_list ignore_tags ++ ["TOTAL"])
              w1 pool tags vals) as (ranked & Hsel & Hnd & Hmem & Hrank);
    try done; [by rewrite Hself|].
  exists ranked. split; [|split; [done|split; [|done]]].
  - unfold mbind, prog_bind. rewrite Hrun, Hsel. simpl.
    unfold head_rows. by rewrite (proj2 (Z.ltb_ge n 0) Hn).
  - intros t. rewrite Hmem, not_elem_of_app, list_elem_of_singleton. tauto.
Qed.

(** C7.  With a Pool whose Tag column is text and whose [by_col] is an
    int64 column, [get_highest_tags] returns the first [n] tags of a
    ranking of the distinct tags that are neither in [ignore_tags] nor
    TOTAL, each once, in which the largest [by_col] value over a tag's
    rows never goes up: [n] names, or all of them when there are fewer.
    On the fixture where A, B, C and TOTAL peak at 500, 900, 300 and
    1700, the two highest are B, then A. *)
Theorem get_highest_tags_ranks_peaks
    (w : world) (pool : DataFrame) (tags : list string) (vals : list Z)
    (n : Z) (by_col : string) (ignore_tags : option pyarg)
    (Hpool : pool_entries (self w) = Some pool)
    (Htag : getcol pool "Tag" = Ok (ObjCol (CStr <$> tags)))
    (Hcol : getcol pool by_col = Ok (IntCol vals))
    (Hlen : length tags = length vals)
    (Hby : by_col ≠ "Tag") (Hn : 0 <= n) :
  (exists (ranked : list string) (peak : string -> Z),
     (get_highest_tags n by_col ignore_tags w).1 = Ok (take (Z.to_nat n) ranked)
     /\ NoDup ranked
     /\ (forall t, t ∈ ranked <->
           t ∈ tags /\ (t ∉ ignore_content w get_highest_tags_default ignore_tags)
           /\ t ≠ "TOTAL")
     /\ (forall t, t ∈ ranked -> peak_of tags vals t (peak t))
     /\ ranked_by peak ranked
     /\ length (take (Z.to_nat n) ranked) = Nat.min (Z.to_nat n) (length ranked))
  /\ (get_highest_tags 2 "TotalUsedBytes" None (digest peaks_fixture).2).1
     = Ok ["B"; "A"].
Proof.
  split; [|by vm_compute].
  destruct (selection_run agg_max n by_col w get_highest_tags_default ignore_tags
              pool tags vals) as (ranked & Hrun & Hnd & Hmem & Hrank); try done.
  exists ranked, (fun t => agg_max (group_rows tags vals t)).
  split; [done|]. split; [done|]. split; [done|].
  split; [|split; [done|apply length_take]].
  intros t Ht. apply Hmem in Ht as (Ht & _).
  apply list_elem_of_lookup in Ht as [i Hi].
  destruct (lookup_lt_is_Some_2 vals i) as [x Hx].
  { rewrite <- Hlen. by eapply lookup_lt_Some. }
  assert (Hne : group_rows tags vals t ≠ []).
  { intros E. assert (Hin : x ∈ group_rows tags vals t)
      by (apply elem_of_group_rows; eauto).
    rewrite E in Hin. by apply elem_of_nil in Hin. }
  destruct (agg_max_spec _ Hne) as [Hin Hall]. split.
  - by apply elem_of_group_rows in Hin.
  - intros j y Hj Hy. rewrite Forall_forall in Hall. apply Hall.
    apply elem_of_group_rows. eauto.
Qed.

(** C6, as the program has it.  With a Pool whose Tag column is text
    and whose [by_col] is an int64 column, [get_most_changed_tags]
    returns the first [n] tags of a ranking of the distinct tags that
    are neither in [ignore_tags] nor TOTAL, each once whatever its
    change, in which the change never goes up; the change of a tag is
    what int64 arithmetic leaves of the [by_col] value on its last row
    minus the value on its first row, rows taken in the Pool's order: a
    value of the int64 range that differs from that difference by a
    multiple of 2^64, and the difference itself when the differences of
    the column's values fit in 64 bits.  On the fixture where X goes 10,
    10, 90 and Y goes 5, 50, 5 in PagedDiff, the most changed tag is
    X. *)
Theorem get_most_changed_tags_ranks_changes
    (w : world) (pool : DataFrame) (tags : list string) (vals : list Z)
    (n : Z) (by_col : string) (ignore_tags : option pyarg)
    (Hpool : pool_entries (self w) = Some pool)
    (Htag : getcol pool "Tag" = Ok (ObjCol (CStr <$> tags)))
    (Hcol : getcol pool by_col = Ok (IntCol vals))
    (Hlen : length tags = length vals)
    (Hby : by_col ≠ "Tag") (Hn : 0 <= n) :
  (exists (ranked : list string) (change : string -> Z),
     (get_most_changed_tags n by_col ignore_tags w).1 = Ok (take (Z.to_nat n) ranked)
     /\ NoDup ranked
     /\ (forall t, t ∈ ranked <->
           t ∈ tags /\ (t ∉ ignore_content w get_most_changed_tags_default ignore_tags)
           /\ t ≠ "TOTAL")
     /\ (forall t, t ∈ ranked -> change_of tags vals t (change t))
     /\ ranked_by change ranked
     /\ ((forall x y, x ∈ vals -> y ∈ vals -> - 2 ^ 63 <= y - x < 2 ^ 63) ->
         forall t, t ∈ ranked ->
           exists i j a b,
             first_row tags t i /\ last_row tags t j
             /\ vals !! i = Some a /\ vals !! j = Some b /\ change t = b - a))
  /\ (get_most_changed_tags 1 "PagedDiff" None (digest change_fixture).2).1
     = Ok ["X"].
Proof.
  split; [|by vm_compute].
  destruct (selection_run get_change n by_col w get_most_changed_tags_default
              ignore_tags pool tags vals) as (ranked & Hrun & Hnd & Hmem & Hrank);
    try done.
  exists ranked, (fun t => get_change (group_rows tags vals t)).
  assert (Hends : forall t, t ∈ ranked ->
            exists i j a b,
              first_row tags t i /\ last_row tags t j
              /\ vals !! i = Some a /\ vals !! j = Some b
              /\ get_change (group_rows tags vals t) = wrap64 (b - a)).
  { intros t Ht. apply Hmem in Ht as (Ht & _).
    destruct (first_row_exists tags t Ht) as [i Hi].
    destruct (last_row_exists tags t Ht) as [j Hj].
    destruct (lookup_lt_is_Some_2 vals i) as [a Ha].
    { rewrite <- Hlen. eapply lookup_lt_Some. apply Hi. }
    destruct (lookup_lt_is_Some_2 vals j) as [b Hb].
    { rewrite <- Hlen. eapply lookup_lt_Some. apply Hj. }
    exists i, j, a, b. split; [done|]. split; [done|]. split; [done|]. split; [done|].
    unfold get_change.
    by rewrite (head_group_rows tags vals t i Hlen Hi),
      (last_group_rows tags vals t j Hlen Hj), Ha, Hb. }
  split; [done|]. split; [done|]. split; [done|]. split; [|split; [done|]].
  - intros t Ht. destruct (Hends t Ht) as (i & j & a & b & Hi & Hj & Ha & Hb & Hc).
    exists i, j, a, b. split; [done|]. split; [done|]. split; [done|]. split; [done|].
    rewrite Hc. apply wrap64_int64_value.
  - intros Hfit t Ht. destruct (Hends t Ht) as (i & j & a & b & Hi & Hj & Ha & Hb & Hc).
    exists i, j, a, b. split; [done|]. split; [done|]. split; [done|]. split; [done|].
    rewrite Hc. apply wrap64_small. apply Hfit; by eapply list_elem_of_lookup_2.
Qed.

(** C6 fails where the difference leaves the int64 range: Rise goes up
    by 2^63, from -1 to 2^63 - 1, and Fall goes down by one, from 5 to
    4, yet Fall is ranked first, the change of Rise having wrapped
    around to -2^63. *)
Lemma most_changed_ranks_wrapped_rise_last :
  (exists pool,
     (digest rise_fall_fixture).1 = Ok pool
     /\ getcol pool "Tag"
        = Ok (ObjCol (CStr <$> ["Rise"; "Fall"; "TOTAL"; "Rise"; "Fall"; "TOTAL"]))
     /\ getcol pool "PagedDiff"
        = Ok (IntCol [-1; 5; 4; 2 ^ 63 - 1; 4; - 2 ^ 63 + 3]))
  /\ (get_most_changed_tags 2 "PagedDiff" None (digest rise_fall_fixture).2).1
     = Ok ["Fall"; "Rise"]
  /\ 4 - 5 < (2 ^ 63 - 1) - (-1).
Proof.
  split; [|split; [by vm_compute|lia]].
  eexists. split; [vm_compute; reflexivity|]. split; vm_compute; reflexivity.
Qed.

Lemma get_highest_tags_ranks_peaks_witness :
  exists ranked,
    (get_highest_tags 2 "TotalUsedBytes" (Some ArgNone) (digest peaks_fixture).2).1
    = Ok (take 2 ranked) /\ NoDup ranked.
Proof.
  pose proof (get_highest_tags_ranks_peaks (digest peaks_fixture).2
    (default [] (pool_entries (self (digest peaks_fixture).2)))
    ["A"; "B"; "C"; "TOTAL"; "A"; "B"; "C"; "TOTAL"; "A"; "B"; "C"; "TOTAL"]
    [100; 200; 50; 350; 500; 900; 300; 1700; 400; 800; 300; 1500]
    2 "TotalUsedBytes" (Some ArgNone)) as H.
  assert (H1 : pool_entries (self (digest peaks_fixture).2)
               = Some (default [] (pool_entries (self (digest peaks_fixture).2))))
    by (vm_compute; reflexivity).
  specialize (H H1). clear H1.
  assert (H2 : getcol (default [] (pool_entries (self (digest peaks_fixture).2))) "Tag"
               = Ok (ObjCol (CStr <$> ["A"; "B"; "C"; "TOTAL"; "A"; "B"; "C"; "TOTAL";
                                       "A"; "B"; "C"; "TOTAL"])))
    by (vm_compute; reflexivity).
  specialize (H H2). clear H2.
  assert (H3 : getcol (default [] (pool_entries (self (digest peaks_fixture).2)))
                 "TotalUsedBytes"
               = Ok (IntCol [100; 200; 50; 350; 500; 900; 300; 1700; 400; 800; 300; 1500]))
    by (vm_compute; reflexivity).
  specialize (H H3 eq_refl ltac:(discriminate) ltac:(lia)).
  destruct H as [(ranked & peak & Hrun & Hnd & _) _].
  exists ranked. split; [exact Hrun|exact Hnd].
Defined.

Lemma get_most_changed_tags_ranks_changes_witness :
  exists ranked,
    (get_most_changed_tags 1 "PagedDiff" (Some ArgNone) (digest change_fixture).2).1
    = Ok (take 1 ranked) /\ NoDup ranked.
Proof.
  pose proof (get_most_changed_tags_ranks_changes (digest change_fixture).2
    (default [] (pool_entries (self (digest change_fixture).2)))
    ["X"; "Y"; "TOTAL"; "X"; "Y"; "TOTAL"; "X"; "Y"; "TOTAL"]
    [10; 5; 15; 10; 50; 60; 90; 5; 95]
    1 "PagedDiff" (Some ArgNone)) as H.
  assert (H1 : pool_entries (self (digest change_fixture).2)
               = Some (default [] (pool_entries (self (digest change_fixture).2))))
    by (vm_compute; reflexivity).
  specialize (H H1). clear H1.
  assert (H2 : getcol (default [] (pool_entries (self (digest change_fixture).2))) "Tag"
               = Ok (ObjCol (CStr <$> ["X"; "Y"; "TOTAL"; "X"; "Y"; "TOTAL";
                                       "X"; "Y"; "TOTAL"])))
    by (vm_compute; reflexivity).
  specialize (H H2). clear H2.
  assert (H3 : getcol (default [] (pool_entries (self (digest change_fixture).2)))
                 "PagedDiff"
               = Ok (IntCol [10; 5; 15; 10; 50; 60; 90; 5; 95]))
    by (vm_compute; reflexivity).
  specialize (H H3 eq_refl ltac:(discriminate) ltac:(lia)).
  destruct H as [(ranked & change & Hrun & Hnd & _) _].
  exists ranked. split; [exact Hrun|exact Hnd].
Defined.

(** * Further properties *)

(** ** Encoding detection, further *)

Lemma startswith_app data p q :
  Codecs.startswith data (p ++ q) = true -> Codecs.startswith data p = true.
Proof.
  revert data. induction p as [|b p IH]; intros [|d data]; simpl; try done.
  intros H. apply andb_true_iff in H as [-> H]. simpl. by apply IH.
Qed.

Lemma startswith_take k bom : forall data,
  (length bom <= k)%nat ->
  Codecs.startswith (take k data) bom = Codecs.startswith data bom.
Proof.
  revert k. induction bom as [|b bom IH]; intros k data Hk; [done|].
  destruct k as [|k]; [simpl in Hk; lia|].
  destruct data as [|d data]; [done|]. simpl. f_equal. apply IH. simpl in Hk. lia.
Qed.

Lemma startswith_differ data b1 b2 p q :
  b1 <> b2 ->
  Codecs.startswith data (b1 :: p) = true -> Codecs.startswith data (b2 :: q) = false.
Proof.
  intros Hne. destruct data as [|d data]; simpl; [done|].
  intros H. apply andb_true_iff in H as [H _].
  apply Byte.byte_dec_bl in H. subst.
  destruct (Byte.eqb b1 b2) eqn:E; [|done].
  apply Byte.byte_dec_bl in E. done.
Qed.

(** The list comprehension of [GetEncoding] and its [[0]], as the chain
    of tests it amounts to. *)
Lemma guess_encoding_first_match host content :
  guess_encoding host content
  = let fbytes := take 64 content in
    if Codecs.startswith fbytes Codecs.BOM_UTF8 then "utf-8"
    else if Codecs.startswith fbytes (Codecs.BOM_UTF16 host) then "utf-16"
    else if Codecs.startswith fbytes Codecs.BOM_UTF32_BE then "utf-32be"
    else if Codecs.startswith fbytes Codecs.BOM_UTF32_LE then "utf-32le"
    else if Codecs.startswith fbytes Codecs.BOM_UTF16_BE then "utf-16be"
    else if Codecs.startswith fbytes Codecs.BOM_UTF16_LE then "utf-16le"
    else "utf-8"%string.
Proof.
  unfold guess_encoding. cbv zeta. generalize (take 64 content). intros fb.
  unfold BOMS, List.filter. cbv beta iota delta [fst].
  repeat (destruct (Codecs.startswith fb _); try reflexivity).
Qed.

(** X1.  On a little-endian host the entries of UTF-32 LE and UTF-16 LE are
    never reached, on a big-endian host the entry of UTF-16 BE is not:
    the mark of the host's own UTF-16 comes before them in [BOMS] and
    every file they match starts with it. *)
Theorem GetEncoding_shadowed_names (fs : gmap string (list byte)) (filename : string) :
  GetEncoding Codecs.little fs filename <> Ok "utf-32le"
  /\ GetEncoding Codecs.little fs filename <> Ok "utf-16le"
  /\ GetEncoding Codecs.big fs filename <> Ok "utf-16be".
Proof.
  unfold GetEncoding. destruct (fs !! filename) as [content|]; [|done].
  assert (H : guess_encoding Codecs.little content <> "utf-32le"
              /\ guess_encoding Codecs.little content <> "utf-16le"
              /\ guess_encoding Codecs.big content <> "utf-16be");
    [|destruct H as (H1 & H2 & H3); repeat split; congruence].
  rewrite !guess_encoding_first_match. cbv zeta.
  generalize (take 64 content). intros fb.
  unfold Codecs.BOM_UTF16.
  destruct (Codecs.startswith fb Codecs.BOM_UTF8); [done|].
  destruct (Codecs.startswith fb Codecs.BOM_UTF16_LE) eqn:Ele;
    destruct (Codecs.startswith fb Codecs.BOM_UTF16_BE) eqn:Ebe;
    destruct (Codecs.startswith fb Codecs.BOM_UTF32_BE);
    destruct (Codecs.startswith fb Codecs.BOM_UTF32_LE) eqn:E32;
    try done;
    apply (startswith_app fb Codecs.BOM_UTF16_LE [x00; x00]) in E32; congruence.
Qed.

(** X2.  Of the 64 bytes read, only the first four decide: two files that
    agree on them are given the same encoding. *)
Theorem GetEncoding_first_four_bytes (host : Codecs.byteorder)
    (fs1 fs2 : gmap string (list byte)) (filename : string) (c1 c2 : list byte)
    (H1 : fs1 !! filename = Some c1) (H2 : fs2 !! filename = Some c2)
    (Hsame : take 4 c1 = take 4 c2) :
  GetEncoding host fs1 filename = GetEncoding host fs2 filename.
Proof.
  unfold GetEncoding. rewrite H1, H2. f_equal.
  assert (Hs : forall c bom, (length bom <= 4)%nat ->
            Codecs.startswith (take 64 c) bom = Codecs.startswith (take 4 c) bom).
  { intros c bom Hb. rewrite startswith_take by lia. by rewrite startswith_take. }
  rewrite !guess_encoding_first_match. cbv zeta.
  rewrite !(Hs c1), !(Hs c2), Hsame by (by destruct host; simpl; lia).
  done.
Qed.

Lemma GetEncoding_first_four_bytes_witness :
  GetEncoding Codecs.little {[ "a_pool.csv"%string := [xff; xfe; x54; x00; x61; x00] ]} "a_pool.csv"
  = GetEncoding Codecs.little {[ "a_pool.csv"%string := [xff; xfe; x54; x00] ]} "a_pool.csv".
Proof.
  apply (GetEncoding_first_four_bytes Codecs.little _ _ "a_pool.csv"
           [xff; xfe; x54; x00; x61; x00] [xff; xfe; x54; x00]).
  - apply lookup_singleton_eq.
  - apply lookup_singleton_eq.
  - reflexivity.
Defined.

(** X3.  The answer [utf-16] is given exactly to the files that start with
    the UTF-16 mark of the host's own byte order: FF FE on a
    little-endian host, FE FF on a big-endian one. *)
Theorem GetEncoding_utf16_is_host_order (host : Codecs.byteorder)
    (fs : gmap string (list byte)) (filename : string) (content : list byte)
    (Hfile : fs !! filename = Some content) :
  GetEncoding host fs filename = Ok "utf-16"
  <-> Codecs.startswith content (Codecs.BOM_UTF16 host) = true.
Proof.
  unfold GetEncoding. rewrite Hfile.
  rewrite <- (startswith_take 64 (Codecs.BOM_UTF16 host) content)
    by (destruct host; simpl; lia).
  rewrite guess_encoding_first_match. cbv zeta.
  generalize (take 64 content). intros fb.
  destruct (Codecs.startswith fb Codecs.BOM_UTF8) eqn:E8.
  - assert (Codecs.startswith fb (Codecs.BOM_UTF16 host) = false) as ->.
    { destruct host; eapply startswith_differ; try exact E8; done. }
    split; [intros [= ?]|]; done.
  - destruct (Codecs.startswith fb (Codecs.BOM_UTF16 host)) eqn:E16; [done|].
    split; [|done].
    repeat (destruct (Codecs.startswith fb _); try done).
Qed.

Lemma GetEncoding_utf16_is_host_order_witness :
  GetEncoding Codecs.big {[ "a_pool.csv"%string := [xfe; xff; x00; x54] ]} "a_pool.csv"
  = Ok "utf-16".
Proof.
  apply (GetEncoding_utf16_is_host_order Codecs.big _ "a_pool.csv" [xfe; xff; x00; x54]).
  - apply lookup_singleton_eq.
  - reflexivity.
Defined.

(** ** The Pool, column by column *)

Lemma getcol_frame_app a : forall b name ca cb,
  schema a = schema b -> getcol a name = Ok ca -> getcol b name = Ok cb ->
  getcol (frame_app a b) name = Ok (column_app ca cb).
Proof.
  induction a as [|[n c] a IH]; intros [|[m d] b] name ca cb Hs Ha Hb; try done.
  injection Hs as -> Hd Hs. unfold frame_app. simpl in *.
  destruct (String.eqb m name).
  - by injection Ha as ->; injection Hb as ->.
  - by apply IH.
Qed.

Lemma concat_from_getcol name ds : forall acc c cs pool,
  Forall (fun d => schema d = schema acc) ds ->
  getcol acc name = Ok c ->
  Forall2 (fun d cd => getcol d name = Ok cd) ds cs ->
  concat_from acc ds = Ok pool ->
  getcol pool name = Ok (foldl column_app c cs).
Proof.
  induction ds as [|d ds IH]; intros acc c cs pool Hall Hc Hcs Hcat.
  - apply Forall2_nil_inv_l in Hcs as ->. simpl in *. by injection Hcat as <-.
  - apply Forall2_cons_inv_l in Hcs as (cd & cs' & Hcd & Hcs & ->).
    apply Forall_cons in Hall as [Hd Hall]. simpl in *.
    destruct (same_schema acc d) eqn:Hsame; [|done].
    eapply (IH (frame_app acc d)); try done.
    + eapply Forall_impl; [exact Hall|]. intros x Hx. simpl in Hx. rewrite Hx.
      symmetry. by apply schema_frame_app.
    + by apply getcol_frame_app.
Qed.

Lemma foldl_column_app_text (tagss : list (list string)) : forall tags,
  foldl column_app (ObjCol (CStr <$> tags)) ((fun ts => ObjCol (CStr <$> ts)) <$> tagss)
  = ObjCol (CStr <$> (tags ++ mjoin tagss)).
Proof.
  induction tagss as [|ts tagss IH]; intros tags; simpl.
  - by rewrite app_nil_r.
  - rewrite <- fmap_app, IH. by rewrite <- app_assoc.
Qed.

Lemma text_tags_with_total df tags :
  text_tags df tags -> text_tags (with_total df) (tags_with_total tags).
Proof.
  unfold text_tags. intros H. rewrite getcol_with_total, H. simpl.
  unfold tags_with_total. by rewrite fmap_app.
Qed.

Lemma take_rows_Permutation {A} `{Inhabited A} idx (xs : list A) :
  idx ≡ₚ seq 0 (length xs) -> take_rows idx xs ≡ₚ xs.
Proof.
  intros Hp. rewrite take_rows_total.
  - rewrite Hp. by rewrite fmap_lookup_total_seq.
  - apply Forall_forall. intros i Hi. rewrite Hp in Hi.
    apply elem_of_seq in Hi. lia.
Qed.

(** The Pool that [digest] leaves when every ingested table has a text
    Tag column: its tags are those of the files, each followed by its
    TOTAL, in some order. *)
Lemma digest_text_pool w frames tagss :
  digest_called (self w) = false ->
  individual_data_frames (self w) = Some frames ->
  buffer_ok frames ->
  Forall2 text_tags frames tagss ->
  exists pool tags vals utc,
    digest w = (Ok pool, {| self := digested pool; lists := lists w; plots := plots w |})
    /\ text_tags pool tags
    /\ tags ≡ₚ mjoin (tags_with_total <$> tagss)
    /\ getcol pool "TotalDiff" = Ok (IntCol vals)
    /\ length tags = length vals
    /\ getcol pool "DateTimeUTC" = Ok (TimeCol utc).
Proof.
  intros Hflag Hframes Hbuf Htags.
  destruct (consolidate_ok frames Hbuf)
    as (pool0 & d & keys & ps & qs & Hcat & Hfd & Hgd & Hps & Hqs & Hcons
        & Hnd & Hr & Hn & Hsch).
  set (idx := Npysort.argsort keys) in *.
  set (sorted := frame_map (fun A => take_rows idx) pool0) in *.
  set (pool := setcol sorted "TotalDiff" (IntCol (zip_with add64 ps qs))) in *.
  pose proof (digest_world_ok w frames pool Hflag Hframes Hcons) as Hdig.
  assert (Hklen : length keys = nrows pool0).
  { apply (rectangular_getcol _ _ _ Hr) in Hgd. simpl in Hgd.
    by rewrite length_fmap in Hgd. }
  assert (Hperm : idx ≡ₚ seq 0 (nrows pool0)).
  { unfold idx. rewrite argsort_Permutation. by rewrite Hklen. }
  (* the Tag column of the concatenation *)
  destruct Hbuf as (Hne & Hall & Hschs).
  destruct frames as [|f0 fs]; [done|].
  apply Forall2_cons_inv_l in Htags as (t0 & ts & Ht0 & Hts & ->).
  assert (Htag0 : getcol pool0 "Tag"
                  = Ok (ObjCol (CStr <$> (tags_with_total t0
                                          ++ mjoin (tags_with_total <$> ts))))).
  { rewrite <- foldl_column_app_text.
    eapply (concat_from_getcol "Tag" (with_total <$> fs) (with_total f0)); [| | |exact Hcat].
    - apply Forall_fmap. apply Forall_forall. intros df Hin. simpl.
      rewrite Forall_forall in Hall, Hschs.
      destruct (Hall df) as [Hs Hn']; [by right|].
      destruct (Hall f0) as [Hs0 Hn0]; [by left|].
      destruct (snapshot_with_total df Hs Hn') as (H1 & _).
      destruct (snapshot_with_total f0 Hs0 Hn0) as (H2 & _).
      rewrite H1, H2. simpl in Hschs. apply Hschs. by right.
    - by apply text_tags_with_total.
    - rewrite <- list_fmap_compose. apply Forall2_fmap.
      eapply Forall2_impl; [exact Hts|].
      intros df tg Hdf. simpl. by apply text_tags_with_total. }
  set (tags0 := tags_with_total t0 ++ mjoin (tags_with_total <$> ts)) in *.
  assert (Hlen0 : length tags0 = nrows pool0).
  { apply (rectangular_getcol _ _ _ Hr) in Htag0. simpl in Htag0.
    by rewrite length_fmap in Htag0. }
  assert (Hrange : forall (A : Type) (xs : list A), length xs = nrows pool0 ->
            Forall (fun i => (i < length xs)%nat) idx).
  { intros A xs Hx. apply Forall_forall. intros i Hi. rewrite Hperm in Hi.
    apply elem_of_seq in Hi. lia. }
  exists pool, (take_rows idx tags0), (zip_with add64 ps qs).
  assert (Hutc : exists utc, getcol pool "DateTimeUTC" = Ok (TimeCol utc)).
  { pose proof (Forall_inv Hall) as [(_ & _ & _ & _ & Hu & _) _].
    change (f0 :: fs) with ([f0] ++ fs) in Hsch. simpl in Hsch.
    rewrite <- (dtype_of_schema _ _ "DateTimeUTC" Hsch) in Hu.
    apply dtype_of_Some in Hu as (c & Hc & Hd).
    destruct c; try done.
    eexists. unfold pool. rewrite getcol_setcol. simpl.
    unfold sorted. rewrite getcol_frame_map, Hc. reflexivity. }
  destruct Hutc as [utc Hutc]. exists utc.
  split; [done|]. split; [|split; [|split; [|split; [|done]]]].
  - unfold text_tags, pool. rewrite getcol_setcol. simpl.
    unfold sorted. rewrite getcol_frame_map, Htag0. simpl.
    by rewrite take_rows_fmap.
  - rewrite take_rows_Permutation; [done|]. by rewrite Hlen0.
  - unfold pool. rewrite getcol_setcol. by simpl.
  - rewrite length_take_rows by (by apply Hrange).
    rewrite length_zip_with.
    assert (length ps = length idx /\ length qs = length idx) as [-> ->].
    { unfold sorted in Hps, Hqs. rewrite getcol_frame_map in Hps, Hqs.
      destruct (getcol pool0 "PagedDiff") as [cp| |] eqn:Ep; try done.
      destruct (getcol pool0 "NonPagedDiff") as [cq| |] eqn:Eq; try done.
      apply (rectangular_getcol _ _ _ Hr) in Ep, Eq.
      destruct cp; try done. destruct cq; try done.
      simpl in *. injection Hps as <-. injection Hqs as <-.
      rewrite length_fmap in Ep, Eq.
      rewrite !length_take_rows by (by apply Hrange). done. }
    lia.
Qed.

(** ** The pipeline after [digest] *)

Lemma get_df_digested w :
  digest_called (self w) = true -> get_df w = (Ok (pool_entries (self w)), w).
Proof. intros H. unfold get_df. run_prog. by rewrite H. Qed.

(** X4.  Once [digest] has returned, the buffer is gone: a further
    [add_csv_file] raises on the missing list and changes nothing, so no
    file can join a Pool that has been built. *)
Theorem add_csv_file_after_digest (w : world) (frames : list DataFrame) (df : DataFrame)
    (Hflag : digest_called (self w) = false)
    (Hframes : individual_data_frames (self w) = Some frames)
    (Hbuf : buffer_ok frames) :
  add_csv_file df (digest w).2 = (Raise AttributeError, (digest w).2).
Proof.
  destruct (digest_structure w frames Hflag Hframes Hbuf)
    as (pool0 & d & keys & pool & _ & _ & _ & _ & _ & _ & Hdig & _).
  rewrite Hdig. reflexivity.
Qed.

Lemma add_csv_file_after_digest_witness :
  add_csv_file (snapshot 9 [("A", (1, 1, 1))]) (digest peaks_fixture).2
  = (Raise AttributeError, (digest peaks_fixture).2).
Proof.
  apply (add_csv_file_after_digest peaks_fixture _ _ eq_refl eq_refl buffer_ok_peaks).
Defined.

(** X5.  A [digest] that raised is not tried again: [get_df] passes the error
    on once, and from then on returns whatever the failed call left in
    [pool_entries] without raising.  With nothing ingested that is
    [None]: the first [get_df] raises [ValueError], every later one
    returns [None]. *)
Theorem get_df_after_failed_digest (w : world) (e : exn)
    (Hflag : digest_called (self w) = false)
    (Hfail : (digest w).1 = Raise e) :
  let w1 := (digest w).2 in
  get_df w = (Raise e, w1)
  /\ get_df w1 = (Ok (pool_entries (self w1)), w1)
  /\ (individual_data_frames (self w) = Some [] ->
      e = ValueError /\ pool_entries (self w1) = pool_entries (self w)).
Proof.
  cbn zeta. split; [|split].
  - rewrite get_df_digests by done. unfold mbind, prog_bind.
    destruct (digest w) as [o w1]. simpl in Hfail. by subst.
  - apply get_df_digested, digest_sets_flag.
  - intros Hnone. revert Hfail. unfold digest. run_prog.
    rewrite Hflag, Hnone. cbn. by intros [= <-].
Qed.

Lemma get_df_after_failed_digest_witness :
  get_df (world_of new_PoolEntries) = (Raise ValueError, (digest (world_of new_PoolEntries)).2)
  /\ get_df (digest (world_of new_PoolEntries)).2
     = (Ok None, (digest (world_of new_PoolEntries)).2).
Proof.
  destruct (get_df_after_failed_digest (world_of new_PoolEntries) ValueError
              eq_refl eq_refl) as (H1 & H2 & _).
  split; [exact H1|exact H2].
Defined.

(** X6.  On a well-formed buffer [get_df] builds the Pool exactly as [digest]
    would, and a second [get_df] hands out the same table with the state
    untouched: the Pool is built once. *)
Theorem get_df_builds_the_pool_once (w : world) (frames : list DataFrame)
    (Hflag : digest_called (self w) = false)
    (Hframes : individual_data_frames (self w) = Some frames)
    (Hbuf : buffer_ok frames) :
  exists pool w1,
    digest w = (Ok pool, w1)
    /\ get_df w = (Ok (Some pool), w1)
    /\ get_df w1 = (Ok (Some pool), w1)
    /\ self w1 = digested pool /\ lists w1 = lists w /\ plots w1 = plots w.
Proof.
  destruct (digest_structure w frames Hflag Hframes Hbuf)
    as (pool0 & d & keys & pool & _ & _ & _ & _ & _ & _ & Hdig & _).
  eexists pool, _. split; [exact Hdig|]. split; [|split; [|done]].
  - rewrite get_df_digests by done. unfold mbind at 1. unfold prog_bind.
    rewrite Hdig. reflexivity.
  - by rewrite get_df_digested.
Qed.

Lemma get_df_builds_the_pool_once_witness :
  exists pool w1,
    get_df peaks_fixture = (Ok (Some pool), w1) /\ get_df w1 = (Ok (Some pool), w1).
Proof.
  destruct (get_df_builds_the_pool_once peaks_fixture _ eq_refl eq_refl buffer_ok_peaks)
    as (pool & w1 & _ & H1 & H2 & _).
  exists pool, w1. split; [exact H1|exact H2].
Defined.

Lemma columns_frame_map f df : columns (frame_map f df) = columns df.
Proof.
  unfold columns, frame_map. rewrite <- list_fmap_compose. by apply list_fmap_ext.
Qed.

Lemma columns_setcol_cases df n c :
  columns (setcol df n c)
  = columns df ++ (if bool_decide (n ∈ columns df) then [] else [n]).
Proof.
  induction df as [|[k x] df IH]; [done|]. simpl.
  destruct (String.eqb k n) eqn:E.
  - apply String.eqb_eq in E. subst. simpl.
    rewrite bool_decide_eq_true_2 by left. by rewrite app_nil_r.
  - apply String.eqb_neq in E. simpl. rewrite IH. f_equal. f_equal.
    assert (H : n ∈ columns df <-> n ∈ k :: columns df)
      by (rewrite elem_of_cons; split; [by right|intros [?|?]; [by subst|done]]).
    by rewrite (bool_decide_ext _ _ H).
Qed.

Lemma Forall_setcol (P : string * column -> Prop) df n c :
  Forall P df -> (forall k, P (k, c)) -> Forall P (setcol df n c).
Proof.
  intros Hdf Hc. induction Hdf as [|[k x] df Hx Hdf IH]; simpl.
  - by constructor.
  - destruct (String.eqb k n); constructor; auto.
Qed.

Lemma rectangular_setcol df n c :
  df ≠ [] -> rectangular df -> length (cells c) = nrows df ->
  rectangular (setcol df n c).
Proof.
  intros Hne Hr Hc. unfold rectangular. rewrite nrows_setcol by done.
  by apply Forall_setcol.
Qed.

Lemma sum_list_S_rows (frames : list DataFrame) :
  sum_list ((fun df => S (nrows df)) <$> frames)
  = (sum_list (nrows <$> frames) + length frames)%nat.
Proof.
  induction frames as [|f fs IH]; [done|].
  rewrite !fmap_cons. cbn [length].
  change (S (nrows f) + sum_list ((fun df => S (nrows df)) <$> fs)
          = nrows f + sum_list (nrows <$> fs) + S (length fs))%nat.
  rewrite IH. lia.
Qed.

Lemma dtype_of_setcol df n c m :
  dtype_of (setcol df n c) m
  = if String.eqb n m then Some (dtype_str c) else dtype_of df m.
Proof. unfold dtype_of. rewrite getcol_setcol. by destruct (String.eqb n m). Qed.

Lemma dtype_of_frame_map f df m : dtype_of (frame_map f df) m = dtype_of df m.
Proof.
  unfold dtype_of. rewrite getcol_frame_map.
  destruct (getcol df m); simpl; try done. by rewrite dtype_column_map.
Qed.

(** X7.  The shape of the Pool on a well-formed buffer: one row per ingested
    row and one more per file; the columns of the files in their order,
    with TotalDiff added at the end unless the files had a column of that
    name, which is then overwritten in place; TotalDiff is int64 and
    every other column keeps its dtype. *)
Theorem digest_pool_shape (w : world) (frames : list DataFrame)
    (Hflag : digest_called (self w) = false)
    (Hframes : individual_data_frames (self w) = Some frames)
    (Hbuf : buffer_ok frames) :
  let first := default [] (head frames) in
  exists pool w1,
    digest w = (Ok pool, w1)
    /\ nrows pool = (sum_list (nrows <$> frames) + length frames)%nat
    /\ rectangular pool
    /\ columns pool
       = columns first ++ (if bool_decide ("TotalDiff" ∈ columns first) then []
                           else ["TotalDiff"])
    /\ dtype_of pool "TotalDiff" = Some "int64"
    /\ (forall name, name ≠ "TotalDiff" -> dtype_of pool name = dtype_of first name).
Proof.
  cbn zeta.
  destruct (consolidate_ok frames Hbuf)
    as (pool0 & d & keys & ps & qs & Hcat & Hfd & Hgd & Hps & Hqs & Hcons
        & Hnd & Hr & Hn & Hsch).
  set (idx := Npysort.argsort keys) in *.
  set (sorted := frame_map (fun A => take_rows idx) pool0) in *.
  set (pool := setcol sorted "TotalDiff" (IntCol (zip_with add64 ps qs))) in *.
  pose proof (digest_world_ok w frames pool Hflag Hframes Hcons) as Hdig.
  assert (Hklen : length keys = nrows pool0).
  { apply (rectangular_getcol _ _ _ Hr) in Hgd. simpl in Hgd.
    by rewrite length_fmap in Hgd. }
  assert (Hne0 : pool0 ≠ []).
  { intros E. rewrite E in Hgd. done. }
  assert (Hrange : Forall (fun i => (i < nrows pool0)%nat) idx).
  { rewrite <- Hklen. apply argsort_in_range. }
  destruct (sorted_frame pool0 idx Hne0 Hr Hrange) as (Hns & Hrs & Hcols).
  fold sorted in Hns, Hrs, Hcols.
  assert (Hidx : length idx = nrows pool0).
  { unfold idx. by rewrite length_argsort. }
  assert (Hnes : sorted ≠ []).
  { unfold sorted, frame_map. intros E. apply fmap_nil_inv in E. done. }
  assert (Hlen : length (cells (IntCol (zip_with add64 ps qs))) = nrows sorted).
  { apply (rectangular_getcol _ _ _ Hrs) in Hps, Hqs. simpl in *.
    rewrite length_fmap in *. rewrite length_zip_with. lia. }
  eexists pool, _. split; [exact Hdig|].
  split; [|split; [|split; [|split]]].
  - unfold pool. rewrite nrows_setcol by done.
    by rewrite Hns, Hidx, Hn, sum_list_S_rows.
  - by apply rectangular_setcol.
  - unfold pool. rewrite columns_setcol_cases. unfold sorted.
    rewrite columns_frame_map. by rewrite !columns_schema, Hsch.
  - unfold pool. by rewrite dtype_of_setcol.
  - intros name Hname. unfold pool. rewrite dtype_of_setcol.
    destruct (String.eqb "TotalDiff" name) eqn:E.
    { apply String.eqb_eq in E. by subst. }
    unfold sorted. rewrite dtype_of_frame_map. by apply dtype_of_schema.
Qed.

Lemma digest_pool_shape_witness :
  exists pool w1,
    digest peaks_fixture = (Ok pool, w1) /\ nrows pool = 12%nat
    /\ columns pool = ["DateTime"; "DateTimeUTC"; "Tag"; "PagedDiff"; "NonPagedDiff";
                       "TotalUsedBytes"; "TotalDiff"].
Proof.
  destruct (digest_pool_shape peaks_fixture _ eq_refl eq_refl buffer_ok_peaks)
    as (pool & w1 & H1 & H2 & _ & H3 & _).
  exists pool, w1. split; [exact H1|]. split; [exact H2|exact H3].
Defined.

(** ** The tags of the Pool *)

Lemma elem_of_unique_from xs : forall seen x,
  x ∈ unique_from seen xs <-> x ∈ xs /\ x ∉ seen.
Proof.
  induction xs as [|y xs IH]; intros seen x; simpl.
  - rewrite elem_of_nil. tauto.
  - destruct (bool_decide_reflect (y ∈ seen)) as [Hy|Hy].
    + rewrite IH, elem_of_cons. split; [tauto|].
      intros [[->|H] Hn]; [done|tauto].
    + rewrite !elem_of_cons, IH, not_elem_of_cons.
      split.
      * intros [->|(H1 & H2 & H3)]; tauto.
      * intros [[->|H] Hn]; [by left|].
        destruct (decide (x = y)); [by left|right; tauto].
Qed.

Lemma NoDup_unique_from xs : forall seen, NoDup (unique_from seen xs).
Proof.
  induction xs as [|y xs IH]; intros seen; simpl; [constructor|].
  destruct (bool_decide_reflect (y ∈ seen)); [apply IH|].
  constructor; [|apply IH].
  rewrite elem_of_unique_from, not_elem_of_cons. tauto.
Qed.

Lemma get_all_tags_digested w pool tags :
  digest_called (self w) = true ->
  pool_entries (self w) = Some pool ->
  text_tags pool tags ->
  get_all_tags w = (Ok (unique tags), w).
Proof.
  intros Hflag Hpool Htags. unfold get_all_tags, pool_col. run_prog.
  rewrite Hflag. cbn. rewrite Hpool. cbn. rewrite Htags. cbn.
  by rewrite str_cells_fmap.
Qed.

(** X8.  On a well-formed buffer whose files have text tags, the first
    [get_all_tags] builds the Pool and returns each tag once: TOTAL and
    the tags of the ingested files, nothing else; asked again, it
    returns the same list and changes nothing. *)
Theorem get_all_tags_after_ingestion
    (w : world) (frames : list DataFrame) (tagss : list (list string))
    (Hflag : digest_called (self w) = false)
    (Hframes : individual_data_frames (self w) = Some frames)
    (Hbuf : buffer_ok frames)
    (Htags : Forall2 text_tags frames tagss) :
  exists all,
    get_all_tags w = (Ok all, (digest w).2)
    /\ NoDup all
    /\ (forall t, t ∈ all <-> t = "TOTAL" \/ exists ts, ts ∈ tagss /\ t ∈ ts)
    /\ get_all_tags (digest w).2 = (Ok all, (digest w).2).
Proof.
  destruct (digest_text_pool w frames tagss Hflag Hframes Hbuf Htags)
    as (pool & tags & vals & utc & Hdig & Htag & Hperm & _).
  assert (Hagain : get_all_tags (digest w).2 = (Ok (unique tags), (digest w).2)).
  { rewrite Hdig. by apply (get_all_tags_digested _ pool). }
  exists (unique tags). split; [|split; [|split; [|done]]].
  - unfold get_all_tags. unfold mbind at 1. unfold prog_bind. cbn.
    rewrite Hflag. unfold mbind at 1. unfold prog_bind.
    unfold mbind at 1. unfold prog_bind.
    rewrite Hdig. cbn -[pool_col]. 
    unfold pool_col. run_prog. rewrite Htag. cbn. by rewrite str_cells_fmap.
  - apply NoDup_unique_from.
  - intros t. unfold unique. rewrite elem_of_unique_from, Hperm.
    rewrite list_elem_of_join.
    assert (Hne : tagss <> []).
    { destruct Hbuf as (Hne & _). intros ->.
      apply Forall2_nil_inv_r in Htags. done. }
    split.
    + intros [(l & Ht & Hl) _]. apply list_elem_of_fmap in Hl as (ts & -> & Hts).
      unfold tags_with_total in Ht. apply elem_of_app in Ht as [Ht|Ht].
      * right. eauto.
      * left. by apply list_elem_of_singleton in Ht.
    + intros H. split; [|apply not_elem_of_nil].
      destruct H as [->|(ts & Hts & Ht)].
      * destruct tagss as [|ts tagss']; [done|].
        exists (tags_with_total ts). split.
        -- unfold tags_with_total. apply elem_of_app. right. by left.
        -- rewrite fmap_cons. by left.
      * exists (tags_with_total ts). split.
        -- unfold tags_with_total. apply elem_of_app. by left.
        -- apply list_elem_of_fmap. eauto.
Qed.

Lemma get_all_tags_after_ingestion_witness :
  exists all,
    get_all_tags peaks_fixture = (Ok all, (digest peaks_fixture).2) /\ NoDup all.
Proof.
  destruct (get_all_tags_after_ingestion peaks_fixture _
              [["A"; "B"; "C"]; ["A"; "B"; "C"]; ["A"; "B"; "C"]]%string
              eq_refl eq_refl buffer_ok_peaks) as (all & H1 & H2 & _).
  { repeat constructor. }
  exists all. split; [exact H1|exact H2].
Defined.

(** ** The selections, further *)

Lemma isin_ext ig1 ig2 c :
  (forall t, t ∈ ig1 <-> t ∈ ig2) -> isin ig1 c = isin ig2 c.
Proof. intros H. destruct c; simpl; try done. by apply bool_decide_ext. Qed.

(** A selection looks at its ignore list as a set, and at the world only
    for the Pool. *)
Lemma select_tags_ext f n by_col ig1 ig2 w1 w2 :
  (forall t, t ∈ ig1 <-> t ∈ ig2) -> self w1 = self w2 ->
  (select_tags f n by_col ig1 w1).1 = (select_tags f n by_col ig2 w2).1.
Proof.
  intros Hig Hself. destruct w1 as [s1 l1 p1], w2 as [s2 l2 p2].
  simpl in Hself. subst s2. unfold select_tags, pool_col. run_prog.
  destruct (pool_entries s1) as [pool|]; cbn; [|done].
  destruct (getcol pool "Tag") as [tag| |]; cbn; try done.
  assert (Hmask : (fun c => negb (isin ig1 c)) <$> cells tag
                  = (fun c => negb (isin ig2 c)) <$> cells tag).
  { apply list_fmap_ext. intros i c _. f_equal. by apply isin_ext. }
  rewrite Hmask.
  repeat (case_outcome; cbn; try done).
  destruct (String.eqb by_col "Tag"); [done|].
  destruct (str_cells _); [|done].
  match goal with |- context [match ?c with IntCol _ => _ | _ => _ end] => by destruct c end.
Qed.

Lemma default_content_highest_calls args : forall w,
  self (highest_calls args w) = self w
  /\ default [] (lists (highest_calls args w) !! get_highest_tags_default)
     = default [] (lists w !! get_highest_tags_default)
       ++ replicate (length args) "TOTAL".
Proof.
  induction args as [|a args IH]; intros w.
  - simpl. by rewrite app_nil_r.
  - unfold highest_calls in *. simpl.
    destruct (IH (get_highest_tags a.1 a.2 None w).2) as [Hs Hl].
    rewrite Hs, Hl, get_highest_tags_world. simpl.
    rewrite lookup_insert_eq. simpl. by rewrite <- app_assoc.
Qed.

Lemma default_content_most_changed_calls args : forall w,
  self (most_changed_calls args w) = self w
  /\ default [] (lists (most_changed_calls args w) !! get_most_changed_tags_default)
     = default [] (lists w !! get_most_changed_tags_default)
       ++ replicate (length args) "TOTAL".
Proof.
  induction args as [|a args IH]; intros w.
  - simpl. by rewrite app_nil_r.
  - unfold most_changed_calls in *. simpl.
    destruct (IH (get_most_changed_tags a.1 a.2 None w).2) as [Hs Hl].
    rewrite Hs, Hl, get_most_changed_tags_world. simpl.
    rewrite lookup_insert_eq. simpl. by rewrite <- app_assoc.
Qed.

Lemma elem_of_app_replicate (xs : list string) k t :
  t ∈ (xs ++ replicate k "TOTAL") ++ ["TOTAL"] <-> t ∈ xs ++ ["TOTAL"].
Proof.
  rewrite !elem_of_app, elem_of_replicate, list_elem_of_singleton. tauto.
Qed.

(** X9.  The default list of a selection grows by one TOTAL with every call
    that leaves [ignore_tags] out, but the answers do not change with
    it: after any run of such calls, a call returns (or raises) what it
    would have on the first day. *)
Theorem default_list_growth_is_harmless
    (n : Z) (by_col : string) (args : list (Z * string)) (w : world) :
  (get_highest_tags n by_col None (highest_calls args w)).1
  = (get_highest_tags n by_col None w).1
  /\ (get_most_changed_tags n by_col None (most_changed_calls args w)).1
     = (get_most_changed_tags n by_col None w).1.
Proof.
  split.
  - destruct (default_content_highest_calls args w) as [Hs Hl].
    unfold get_highest_tags, ignore_with_total, mbind, prog_bind. simpl.
    rewrite Hl. apply select_tags_ext; [|done].
    intros t. apply elem_of_app_replicate.
  - destruct (default_content_most_changed_calls args w) as [Hs Hl].
    unfold get_most_changed_tags, ignore_with_total, mbind, prog_bind. simpl.
    rewrite Hl. apply select_tags_ext; [|done].
    intros t. apply elem_of_app_replicate.
Qed.

(** A selection on a Pool with text tags and an int64 [by_col], for any
    [n_tags], negative ones included. *)
Lemma selection_run_any f n by_col w default_list ignore_tags pool tags vals :
  pool_entries (self w) = Some pool ->
  text_tags pool tags ->
  getcol pool by_col = Ok (IntCol vals) ->
  length tags = length vals -> by_col ≠ "Tag" ->
  exists ranked,
    ((ignore ← ignore_with_total (default (ArgList default_list) ignore_tags);
      select_tags f n by_col ignore) w).1 = Ok (head_rows n ranked)
    /\ NoDup ranked
    /\ (forall t, t ∈ ranked <->
          t ∈ tags /\ (t ∉ ignore_content w default_list ignore_tags) /\ t ≠ "TOTAL")
    /\ ranked_by (fun t => f (group_rows tags vals t)) ranked.
Proof.
  intros Hpool Htag Hcol Hlen Hby.
  destruct (ignore_with_total_run w default_list ignore_tags) as (w1 & Hrun & Hself).
  destruct (select_tags_ranked f n by_col
              (ignore_content w default_list ignore_tags ++ ["TOTAL"])
              w1 pool tags vals) as (ranked & Hsel & Hnd & Hmem & Hrank);
    try done; [by rewrite Hself|].
  exists ranked. split; [|split; [done|split; [|done]]].
  - unfold mbind, prog_bind. by rewrite Hrun, Hsel.
  - intros t. rewrite Hmem, not_elem_of_app, list_elem_of_singleton. tauto.
Qed.

(** X10.  A negative [n_tags] is not refused: the selection then returns the
    whole ranking without its last [-n_tags] entries, that is, it drops
    the lowest-ranked tags instead of keeping the highest. *)
Theorem selection_with_negative_count
    (w : world) (pool : DataFrame) (tags : list string) (vals : list Z)
    (n : Z) (by_col : string) (ignore_tags : option pyarg)
    (Hpool : pool_entries (self w) = Some pool)
    (Htag : text_tags pool tags)
    (Hcol : getcol pool by_col = Ok (IntCol vals))
    (Hlen : length tags = length vals)
    (Hby : by_col ≠ "Tag") (Hn : n < 0) :
  exists peaks changes : list string,
    (get_highest_tags n by_col ignore_tags w).1
    = Ok (take (length peaks - Z.to_nat (- n)) peaks)
    /\ (get_most_changed_tags n by_col ignore_tags w).1
       = Ok (take (length changes - Z.to_nat (- n)) changes)
    /\ NoDup peaks /\ NoDup changes
    /\ (forall t, t ∈ peaks <->
          t ∈ tags /\ (t ∉ ignore_content w get_highest_tags_default ignore_tags)
          /\ t ≠ "TOTAL")
    /\ (forall t, t ∈ changes <->
          t ∈ tags /\ (t ∉ ignore_content w get_most_changed_tags_default ignore_tags)
          /\ t ≠ "TOTAL")
    /\ ranked_by (fun t => agg_max (group_rows tags vals t)) peaks
    /\ ranked_by (fun t => get_change (group_rows tags vals t)) changes.
Proof.
  destruct (selection_run_any agg_max n by_col w get_highest_tags_default ignore_tags
              pool tags vals) as (peaks & Hp & Hndp & Hmp & Hrp); try done.
  destruct (selection_run_any get_change n by_col w get_most_changed_tags_default
              ignore_tags pool tags vals) as (changes & Hc & Hndc & Hmc & Hrc); try done.
  exists peaks, changes.
  unfold head_rows in Hp, Hc. rewrite (proj2 (Z.ltb_lt n 0) Hn) in Hp, Hc.
  done.
Qed.

Lemma getcol_missing df name : name ∉ columns df -> getcol df name = Raise KeyError.
Proof.
  induction df as [|[n c] df IH]; [done|]. simpl. intros H.
  apply not_elem_of_cons in H as [Hne H].
  destruct (String.eqb n name) eqn:E; [|by apply IH].
  apply String.eqb_eq in E. by subst.
Qed.

(** X11.  A selection on a Pool that lacks the Tag column or the column asked
    for raises [KeyError]. *)
Theorem selection_of_unknown_column
    (w : world) (pool : DataFrame) (n : Z) (by_col : string)
    (ignore_tags : option pyarg)
    (Hpool : pool_entries (self w) = Some pool)
    (Hmiss : "Tag" ∉ columns pool \/ by_col ∉ columns pool) :
  (get_highest_tags n by_col ignore_tags w).1 = Raise KeyError
  /\ (get_most_changed_tags n by_col ignore_tags w).1 = Raise KeyError.
Proof.
  assert (Hsel : forall f ig w1, self w1 = self w ->
            (select_tags f n by_col ig w1).1 = Raise KeyError).
  { intros f ig w1 Hself. unfold select_tags, pool_col. run_prog.
    rewrite Hself, Hpool. cbn -[frame_map top_names].
    destruct (getcol pool "Tag") as [tag| |] eqn:Etag; cbn -[frame_map top_names].
    - rewrite Hself, Hpool. cbn -[frame_map top_names].
      rewrite !getcol_frame_map, Etag. cbn -[frame_map top_names].
      destruct Hmiss as [Hm|Hm].
      + apply getcol_missing in Hm. congruence.
      + apply getcol_missing in Hm. by rewrite Hm.
    - by apply getcol_not_raise_other in Etag as ->.
    - destruct Hmiss as [Hm|Hm].
      + apply getcol_missing in Hm. congruence.
      + exfalso. clear -Etag. induction pool as [|[k c] pool IH]; [done|].
        simpl in Etag. destruct (String.eqb k "Tag"); [done|]. by apply IH. }
  split.
  - destruct (ignore_with_total_run w get_highest_tags_default ignore_tags)
      as (w1 & Hrun & Hself).
    unfold get_highest_tags, mbind, prog_bind. cbn zeta. rewrite Hrun.
    by apply Hsel.
  - destruct (ignore_with_total_run w get_most_changed_tags_default ignore_tags)
      as (w1 & Hrun & Hself).
    unfold get_most_changed_tags, mbind, prog_bind. cbn zeta. rewrite Hrun.
    by apply Hsel.
Qed.

Lemma selection_with_negative_count_witness :
  exists peaks,
    (get_highest_tags (-1) "TotalUsedBytes" (Some ArgNone) (digest peaks_fixture).2).1
    = Ok (take (length peaks - 1) peaks) /\ NoDup peaks.
Proof.
  pose proof (selection_with_negative_count (digest peaks_fixture).2
    (default [] (pool_entries (self (digest peaks_fixture).2)))
    ["A"; "B"; "C"; "TOTAL"; "A"; "B"; "C"; "TOTAL"; "A"; "B"; "C"; "TOTAL"]
    [100; 200; 50; 350; 500; 900; 300; 1700; 400; 800; 300; 1500]
    (-1) "TotalUsedBytes" (Some ArgNone)) as H.
  assert (H1 : pool_entries (self (digest peaks_fixture).2)
               = Some (default [] (pool_entries (self (digest peaks_fixture).2))))
    by (vm_compute; reflexivity).
  specialize (H H1). clear H1.
  assert (H2 : text_tags (default [] (pool_entries (self (digest peaks_fixture).2)))
                 ["A"; "B"; "C"; "TOTAL"; "A"; "B"; "C"; "TOTAL"; "A"; "B"; "C"; "TOTAL"])
    by (vm_compute; reflexivity).
  specialize (H H2). clear H2.
  assert (H3 : getcol (default [] (pool_entries (self (digest peaks_fixture).2)))
                 "TotalUsedBytes"
               = Ok (IntCol [100; 200; 50; 350; 500; 900; 300; 1700; 400; 800; 300; 1500]))
    by (vm_compute; reflexivity).
  specialize (H H3 eq_refl ltac:(discriminate) ltac:(lia)).
  destruct H as (peaks & changes & Hp & _ & Hnd & _).
  exists peaks. split; [exact Hp|exact Hnd].
Defined.

Lemma selection_of_unknown_column_witness :
  (get_highest_tags 5 "Bogus" (Some ArgNone) (digest peaks_fixture).2).1 = Raise KeyError.
Proof.
  pose proof (selection_of_unknown_column (digest peaks_fixture).2
    (default [] (pool_entries (self (digest peaks_fixture).2)))
    5 "Bogus" (Some ArgNone)) as H.
  assert (H1 : pool_entries (self (digest peaks_fixture).2)
               = Some (default [] (pool_entries (self (digest peaks_fixture).2))))
    by (vm_compute; reflexivity).
  specialize (H H1). clear H1.
  assert (H2 : "Bogus" ∉ columns (default [] (pool_entries (self (digest peaks_fixture).2)))).
  { apply (bool_decide_eq_false_1 _). vm_compute. reflexivity. }
  destruct (H (or_intror H2)) as [Hh _]. exact Hh.
Defined.

Lemma head_rows_subseteq {A} n (xs : list A) : head_rows n xs ⊆ xs.
Proof. unfold head_rows. destruct (n <? 0); apply subseteq_take. Qed.

Lemma NoDup_head_rows {A} n (xs : list A) : NoDup xs -> NoDup (head_rows n xs).
Proof.
  intros H. unfold head_rows.
  destruct (n <? 0); eapply sublist_NoDup; first [exact H | apply sublist_take].
Qed.

Lemma head_rows_all {A} n (xs : list A) :
  Z.of_nat (length xs) <= n -> head_rows n xs = xs.
Proof.
  intros H. unfold head_rows.
  rewrite (proj2 (Z.ltb_ge n 0)) by lia. apply take_ge. lia.
Qed.

(** X12.  What the selections return is part of what [get_all_tags] returns:
    on a digested Pool with text tags, every selected tag is a tag of
    the Pool other than TOTAL and outside the ignore list, no tag is
    selected twice, and an [n_tags] that is at least the number of the
    Pool's tags selects every such tag. *)
Theorem selected_tags_are_known_tags
    (w : world) (pool : DataFrame) (tags : list string) (vals : list Z)
    (n : Z) (by_col : string) (ignore_tags : option pyarg)
    (Hflag : digest_called (self w) = true)
    (Hpool : pool_entries (self w) = Some pool)
    (Htag : text_tags pool tags)
    (Hcol : getcol pool by_col = Ok (IntCol vals))
    (Hlen : length tags = length vals)
    (Hby : by_col ≠ "Tag") :
  exists all highest most_changed : list string,
    get_all_tags w = (Ok all, w)
    /\ (get_highest_tags n by_col ignore_tags w).1 = Ok highest
    /\ (get_most_changed_tags n by_col ignore_tags w).1 = Ok most_changed
    /\ NoDup highest /\ NoDup most_changed
    /\ (forall t, t ∈ highest ->
          t ∈ all /\ t ≠ "TOTAL"
          /\ t ∉ ignore_content w get_highest_tags_default ignore_tags)
    /\ (forall t, t ∈ most_changed ->
          t ∈ all /\ t ≠ "TOTAL"
          /\ t ∉ ignore_content w get_most_changed_tags_default ignore_tags)
    /\ (Z.of_nat (length all) <= n ->
        (forall t, t ∈ all -> t ≠ "TOTAL" ->
           (t ∉ ignore_content w get_highest_tags_default ignore_tags ->
            t ∈ highest)
           /\ (t ∉ ignore_content w get_most_changed_tags_default ignore_tags ->
               t ∈ most_changed))).
Proof.
  destruct (selection_run_any agg_max n by_col w get_highest_tags_default ignore_tags
              pool tags vals) as (peaks & Hp & Hndp & Hmp & _); try done.
  destruct (selection_run_any get_change n by_col w get_most_changed_tags_default
              ignore_tags pool tags vals) as (changes & Hc & Hndc & Hmc & _); try done.
  assert (Hall : forall t, t ∈ unique tags <-> t ∈ tags).
  { intros t. unfold unique. rewrite elem_of_unique_from.
    split; [tauto|]. intros H. split; [done|apply not_elem_of_nil]. }
  assert (Hshort : forall ranked : list string,
            NoDup ranked -> (forall t, t ∈ ranked -> t ∈ tags) ->
            (length ranked <= length (unique tags))%nat).
  { intros ranked Hnd Hsub. apply submseteq_length, NoDup_submseteq; [done|].
    intros t Ht. apply Hall. by apply Hsub. }
  exists (unique tags), (head_rows n peaks), (head_rows n changes).
  split; [by apply (get_all_tags_digested w pool)|].
  split; [done|]. split; [done|].
  split; [by apply NoDup_head_rows|]. split; [by apply NoDup_head_rows|].
  split; [|split].
  - intros t Ht. apply head_rows_subseteq, Hmp in Ht as (H1 & H2 & H3).
    rewrite Hall. done.
  - intros t Ht. apply head_rows_subseteq, Hmc in Ht as (H1 & H2 & H3).
    rewrite Hall. done.
  - intros Hn t Ht Htot. apply Hall in Ht.
    rewrite !head_rows_all.
    + rewrite Hmp, Hmc. tauto.
    + pose proof (Hshort changes Hndc) as H. 
      assert (length changes <= length (unique tags))%nat; [|lia].
      apply H. intros x Hx. by apply Hmc in Hx as (? & _).
    + pose proof (Hshort peaks Hndp) as H.
      assert (length peaks <= length (unique tags))%nat; [|lia].
      apply H. intros x Hx. by apply Hmp in Hx as (? & _).
Qed.

Lemma selected_tags_are_known_tags_witness :
  exists all highest,
    get_all_tags (digest peaks_fixture).2 = (Ok all, (digest peaks_fixture).2)
    /\ (get_highest_tags 2 "TotalUsedBytes" (Some ArgNone) (digest peaks_fixture).2).1
       = Ok highest
    /\ NoDup highest /\ (forall t, t ∈ highest -> t ∈ all /\ t ≠ "TOTAL").
Proof.
  pose proof (selected_tags_are_known_tags (digest peaks_fixture).2
    (default [] (pool_entries (self (digest peaks_fixture).2)))
    ["A"; "B"; "C"; "TOTAL"; "A"; "B"; "C"; "TOTAL"; "A"; "B"; "C"; "TOTAL"]
    [100; 200; 50; 350; 500; 900; 300; 1700; 400; 800; 300; 1500]
    2 "TotalUsedBytes" (Some ArgNone)) as H.
  assert (H0 : digest_called (self (digest peaks_fixture).2) = true)
    by (vm_compute; reflexivity).
  specialize (H H0). clear H0.
  assert (H1 : pool_entries (self (digest peaks_fixture).2)
               = Some (default [] (pool_entries (self (digest peaks_fixture).2))))
    by (vm_compute; reflexivity).
  specialize (H H1). clear H1.
  assert (H2 : text_tags (default [] (pool_entries (self (digest peaks_fixture).2)))
                 ["A"; "B"; "C"; "TOTAL"; "A"; "B"; "C"; "TOTAL"; "A"; "B"; "C"; "TOTAL"])
    by (vm_compute; reflexivity).
  specialize (H H2). clear H2.
  assert (H3 : getcol (default [] (pool_entries (self (digest peaks_fixture).2)))
                 "TotalUsedBytes"
               = Ok (IntCol [100; 200; 50; 350; 500; 900; 300; 1700; 400; 800; 300; 1500]))
    by (vm_compute; reflexivity).
  specialize (H H3 eq_refl ltac:(discriminate)).
  destruct H as (all & highest & most & Ha & Hh & _ & Hnd & _ & Hsub & _).
  exists all, highest. split; [exact Ha|]. split; [exact Hh|]. split; [exact Hnd|].
  intros t Ht. destruct (Hsub t Ht) as (Hin & Hne & _). split; [exact Hin|exact Hne].
Defined.

(** ** Reporting, further *)

(** X13.  [show_plot] has no digest-on-demand line: on a pipeline without a
    Pool it raises on the missing table, after the [rcParams] update if
    one was asked for, which stays in effect; nothing is drawn. *)
Theorem show_plot_on_undigested_pipeline
    (tags : list string) (timestamp_tag by_col : string) (rcparams : bool) (w : world)
    (Hts : timestamp_tag ∈ valid_timestamp_tags)
    (Hby : by_col ∈ valid_cols)
    (Hpool : pool_entries (self w) = None) :
  show_plot tags timestamp_tag by_col rcparams w
  = (Raise TypeError,
     {| self := self w; lists := lists w;
        plots := plots w ++ (if rcparams then [RcParamsUpdate] else []) |}).
Proof.
  unfold show_plot.
  rewrite (bool_decide_eq_true_2 _ Hts), (bool_decide_eq_true_2 _ Hby).
  unfold pool_col. run_prog.
  destruct rcparams; cbn; rewrite Hpool; cbn; [done|].
  rewrite app_nil_r. by destruct w.
Qed.

Lemma show_plot_on_undigested_pipeline_witness :
  (show_plot ["TOTAL"] "DateTimeUTC" "TotalDiff" true peaks_fixture).1 = Raise TypeError
  /\ plots (show_plot ["TOTAL"] "DateTimeUTC" "TotalDiff" true peaks_fixture).2
     = [RcParamsUpdate].
Proof.
  assert (H1 : "DateTimeUTC" ∈ valid_timestamp_tags) by by_decide.
  assert (H2 : "TotalDiff" ∈ valid_cols) by by_decide.
  rewrite (show_plot_on_undigested_pipeline ["TOTAL"] "DateTimeUTC" "TotalDiff" true
             peaks_fixture H1 H2 eq_refl).
  split; reflexivity.
Defined.

(** X14.  The argument [timestamp_tag] is checked and then never used: asking
    for the local-time axis gives the very run that UTC gives, in
    [show_plot] and in [do_plot]. *)
Theorem timestamp_tag_has_no_effect
    (tags : list string) (by_col : string) (ignore_tags include_tags : pyarg)
    (rcparams : bool) (n_most_changed n_highest : Z) (w : world) :
  show_plot tags "DateTime" by_col rcparams w
  = show_plot tags "DateTimeUTC" by_col rcparams w
  /\ do_plot by_col "DateTime" ignore_tags include_tags rcparams n_most_changed n_highest w
     = do_plot by_col "DateTimeUTC" ignore_tags include_tags rcparams
         n_most_changed n_highest w.
Proof.
  assert (H1 : "DateTimeUTC" ∈ valid_timestamp_tags) by by_decide.
  assert (H2 : "DateTime" ∈ valid_timestamp_tags) by by_decide.
  assert (Hs : forall tags w, show_plot tags "DateTime" by_col rcparams w
                              = show_plot tags "DateTimeUTC" by_col rcparams w).
  { intros tags' w'. unfold show_plot.
    by rewrite (bool_decide_eq_true_2 _ H1), (bool_decide_eq_true_2 _ H2). }
  split; [apply Hs|].
  unfold do_plot.
  rewrite (bool_decide_eq_true_2 _ H1), (bool_decide_eq_true_2 _ H2).
  cbn [negb].
  destruct (negb (bool_decide (by_col ∈ valid_cols))); [done|].
  unfold mbind, prog_bind.
  repeat match goal with
         | |- context [match ?x with (_, _) => _ end] => destruct x as [[?| |] ?]
         end; try done.
Qed.

(** *** The loop that gathers the tags to plot *)

Lemma elem_of_add_new ts : forall acc t, t ∈ add_new acc ts <-> t ∈ acc \/ t ∈ ts.
Proof.
  unfold add_new. induction ts as [|x ts IH]; intros acc t; simpl.
  - rewrite elem_of_nil. tauto.
  - rewrite IH, elem_of_cons. destruct (bool_decide_reflect (x ∈ acc)) as [Hx|Hx].
    + split; [tauto|]. intros [H|[->|H]]; tauto.
    + rewrite elem_of_app, list_elem_of_singleton. tauto.
Qed.

Lemma NoDup_add_new ts : forall acc, NoDup acc -> NoDup (add_new acc ts).
Proof.
  unfold add_new. induction ts as [|x ts IH]; intros acc Hnd; simpl; [done|].
  apply IH. destruct (bool_decide_reflect (x ∈ acc)) as [Hx|Hx]; [done|].
  apply NoDup_app. split; [done|]. split; [|apply NoDup_singleton].
  intros y Hy Hy'. apply list_elem_of_singleton in Hy'. by subst.
Qed.

Lemma add_new_prefix ts : forall acc, acc `prefix_of` add_new acc ts.
Proof.
  unfold add_new. induction ts as [|x ts IH]; intros acc; simpl; [done|].
  destruct (bool_decide (x ∈ acc)); [apply IH|].
  etrans; [|apply IH]. by apply prefix_app_r.
Qed.

Lemma length_add_new ts : forall acc,
  (length (add_new acc ts) <= length acc + length ts)%nat.
Proof.
  unfold add_new. induction ts as [|x ts IH]; intros acc; simpl; [lia|].
  destruct (bool_decide (x ∈ acc)).
  - specialize (IH acc). lia.
  - specialize (IH (acc ++ [x])). rewrite length_app in IH. simpl in IH. lia.
Qed.

(** *** A selection run inside [do_plot] *)

(** The list argument as the call finds it. *)
Lemma ignore_with_total_world ig w :
  (ignore_with_total ig w).2
  = match ig with
    | ArgList l => {| self := self w;
                      lists := <[l := default [] (lists w !! l) ++ ["TOTAL"]]> (lists w);
                      plots := plots w |}
    | _ => w
    end.
Proof. by destruct ig. Qed.

Lemma selection_full f n by_col ig w pool tags vals :
  pool_entries (self w) = Some pool ->
  text_tags pool tags ->
  getcol pool by_col = Ok (IntCol vals) ->
  length tags = length vals -> by_col ≠ "Tag" ->
  exists ranked,
    (ignore ← ignore_with_total ig; select_tags f n by_col ignore) w
    = (Ok (head_rows n ranked), (ignore_with_total ig w).2)
    /\ NoDup ranked
    /\ (forall t, t ∈ ranked -> t ∈ tags /\ t ≠ "TOTAL").
Proof.
  intros Hpool Htag Hcol Hlen Hby.
  destruct (ignore_with_total ig w) as [o w1] eqn:Hrun.
  assert (Hself : self w1 = self w).
  { unfold ignore_with_total in Hrun. destruct ig; by injection Hrun as <- <-. }
  assert (Ho : exists ign, o = Ok (ign ++ ["TOTAL"])).
  { unfold ignore_with_total in Hrun. destruct ig; injection Hrun as <- <-.
    - by exists [].
    - eauto.
    - by exists []. }
  destruct Ho as [ign ->].
  destruct (select_tags_ranked f n by_col (ign ++ ["TOTAL"]) w1 pool tags vals)
    as (ranked & Hsel & Hnd & Hmem & _); try done; [by rewrite Hself|].
  exists ranked. split; [|split; [done|]].
  - unfold mbind, prog_bind. by rewrite Hrun, Hsel.
  - intros t Ht. apply Hmem in Ht as [H1 H2].
    rewrite not_elem_of_app, list_elem_of_singleton in H2. tauto.
Qed.

Lemma valid_cols_not_Tag by_col : by_col ∈ valid_cols -> by_col ≠ "Tag".
Proof.
  intros H ->. revert H. apply (bool_decide_eq_false_1 _). reflexivity.
Qed.

Lemma show_plot_keeps tags ts by_col rc w :
  self (show_plot tags ts by_col rc w).2 = self w
  /\ lists (show_plot tags ts by_col rc w).2 = lists w.
Proof.
  unfold show_plot, pool_col.
  destruct (negb (bool_decide (ts ∈ valid_timestamp_tags))); [done|].
  destruct (negb (bool_decide (by_col ∈ valid_cols))); [done|].
  run_prog. destruct rc; cbn;
    (destruct (pool_entries (self w)) as [pool|]; cbn; [|done]);
    repeat (case_outcome; cbn; try done).
Qed.

Lemma bind_ok {A B} (m : prog A) (k : A -> prog B) w a w' :
  m w = (Ok a, w') -> (m ≫= k) w = k a w'.
Proof. intros H. unfold mbind, prog_bind. by rewrite H. Qed.

(** [do_plot] on a digested Pool, up to the call of [show_plot]. *)
Lemma do_plot_run by_col ts ig inc rc nmc nh w pool tags vals :
  ts ∈ valid_timestamp_tags -> by_col ∈ valid_cols ->
  digest_called (self w) = true ->
  pool_entries (self w) = Some pool ->
  text_tags pool tags ->
  getcol pool by_col = Ok (IntCol vals) ->
  length tags = length vals ->
  exists most highest,
    let include := match inc with ArgList l => default [] (lists w !! l) | _ => [] end in
    let w1 := if 0 <? nmc then (ignore_with_total ig w).2 else w in
    let w2 := if 0 <? nh then (ignore_with_total ig w1).2 else w1 in
    do_plot by_col ts ig inc rc nmc nh w
    = show_plot (add_new (add_new (add_new ["TOTAL"] include) most) highest) ts by_col rc w2
    /\ NoDup most /\ NoDup highest
    /\ (forall t, t ∈ most -> t ∈ tags /\ t ≠ "TOTAL")
    /\ (forall t, t ∈ highest -> t ∈ tags /\ t ≠ "TOTAL")
    /\ (length most <= Z.to_nat nmc)%nat /\ (length highest <= Z.to_nat nh)%nat.
Proof.
  intros Hts Hby Hflag Hpool Htag Hcol Hlen.
  pose proof (valid_cols_not_Tag _ Hby) as HnT.
  set (w1 := if 0 <? nmc then (ignore_with_total ig w).2 else w).
  assert (Hself1 : self w1 = self w).
  { unfold w1. destruct (0 <? nmc); [|done]. rewrite ignore_with_total_world.
    by destruct ig. }
  assert (Hmost : exists most,
            (if 0 <? nmc then get_most_changed_tags nmc by_col (Some ig) else mret []) w
            = (Ok most, w1)
            /\ NoDup most /\ (forall t, t ∈ most -> t ∈ tags /\ t ≠ "TOTAL")
            /\ (length most <= Z.to_nat nmc)%nat).
  { unfold w1. destruct (0 <? nmc) eqn:E.
    - destruct (selection_full get_change nmc by_col ig w pool tags vals)
        as (ranked & Hrun & Hnd & Hmem); try done.
      exists (head_rows nmc ranked). split; [exact Hrun|].
      split; [by apply NoDup_head_rows|]. split.
      + intros t Ht. apply head_rows_subseteq in Ht. by apply Hmem.
      + unfold head_rows. apply Z.ltb_lt in E.
        rewrite (proj2 (Z.ltb_ge nmc 0)) by lia. rewrite length_take. lia.
    - exists []. split; [done|]. split; [constructor|]. split; [|simpl; lia].
      intros t Ht. by apply elem_of_nil in Ht. }
  destruct Hmost as (most & Hmrun & Hndm & Hmm & Hlm).
  set (w2 := if 0 <? nh then (ignore_with_total ig w1).2 else w1).
  assert (Hhigh : exists highest,
            (if 0 <? nh then get_highest_tags nh by_col (Some ig) else mret []) w1
            = (Ok highest, w2)
            /\ NoDup highest /\ (forall t, t ∈ highest -> t ∈ tags /\ t ≠ "TOTAL")
            /\ (length highest <= Z.to_nat nh)%nat).
  { unfold w2. destruct (0 <? nh) eqn:E.
    - destruct (selection_full agg_max nh by_col ig w1 pool tags vals)
        as (ranked & Hrun & Hnd & Hmem); try done; [by rewrite Hself1|].
      exists (head_rows nh ranked). split; [exact Hrun|].
      split; [by apply NoDup_head_rows|]. split.
      + intros t Ht. apply head_rows_subseteq in Ht. by apply Hmem.
      + unfold head_rows. apply Z.ltb_lt in E.
        rewrite (proj2 (Z.ltb_ge nh 0)) by lia. rewrite length_take. lia.
    - exists []. split; [done|]. split; [constructor|]. split; [|simpl; lia].
      intros t Ht. by apply elem_of_nil in Ht. }
  destruct Hhigh as (highest & Hhrun & Hndh & Hmh & Hlh).
  exists most, highest. cbn zeta. fold w1. fold w2.
  split; [|done].
  unfold do_plot.
  rewrite (bool_decide_eq_true_2 _ Hts), (bool_decide_eq_true_2 _ Hby). cbn [negb].
  erewrite bind_ok by reflexivity.
  erewrite bind_ok by reflexivity.
  rewrite Hflag.
  erewrite bind_ok by reflexivity.
  erewrite bind_ok by exact Hmrun.
  erewrite bind_ok by exact Hhrun.
  reflexivity.
Qed.

(** X15.  [do_plot] hands the caller's [ignore_tags] list to each selection it
    runs, so on a digested Pool the list comes back with one TOTAL more
    per selection run (two by default, none when both counts are zero
    or less); every other list object is as before, and with [None] or a
    non-list as [ignore_tags] no list object changes at all. *)
Theorem do_plot_appends_total_per_selection
    (by_col timestamp_tag : string) (include_tags : pyarg) (rcparams : bool)
    (n_most_changed n_highest : Z) (w : world) (pool : DataFrame)
    (tags : list string) (vals : list Z) (l : nat) (xs : list string)
    (Hts : timestamp_tag ∈ valid_timestamp_tags) (Hby : by_col ∈ valid_cols)
    (Hflag : digest_called (self w) = true)
    (Hpool : pool_entries (self w) = Some pool)
    (Htag : text_tags pool tags)
    (Hcol : getcol pool by_col = Ok (IntCol vals))
    (Hlen : length tags = length vals)
    (Hl : lists w !! l = Some xs) :
  let runs := ((if (0 <? n_most_changed)%Z then 1 else 0)
               + (if (0 <? n_highest)%Z then 1 else 0))%nat in
  let after ignore_tags :=
    (do_plot by_col timestamp_tag ignore_tags include_tags rcparams
       n_most_changed n_highest w).2 in
  lists (after (ArgList l)) !! l = Some (xs ++ replicate runs "TOTAL")
  /\ (forall l', l' ≠ l -> lists (after (ArgList l)) !! l' = lists w !! l')
  /\ lists (after ArgNone) = lists w
  /\ lists (after ArgOther) = lists w.
Proof.
  cbv zeta beta.
  assert (Hrun : forall ig,
            lists (do_plot by_col timestamp_tag ig include_tags rcparams
                     n_most_changed n_highest w).2
            = lists (if 0 <? n_highest
                     then (ignore_with_total ig
                             (if 0 <? n_most_changed
                              then (ignore_with_total ig w).2 else w)).2
                     else if 0 <? n_most_changed
                          then (ignore_with_total ig w).2 else w)).
  { intros ig.
    destruct (do_plot_run by_col timestamp_tag ig include_tags rcparams
                n_most_changed n_highest w pool tags vals)
      as (most & highest & Hrun & _); try done.
    cbn zeta in Hrun. rewrite Hrun.
    apply show_plot_keeps. }
  rewrite !Hrun. rewrite !ignore_with_total_world.
  destruct (0 <? n_most_changed), (0 <? n_highest); cbn [lists]; rewrite ?Hl; simpl.
  - rewrite lookup_insert_eq. simpl. rewrite lookup_insert_eq. simpl.
    rewrite <- app_assoc. repeat split; try done.
    intros l' Hne. by rewrite !lookup_insert_ne.
  - rewrite lookup_insert_eq. repeat split; try done.
    intros l' Hne. by rewrite !lookup_insert_ne.
  - rewrite lookup_insert_eq. repeat split; try done.
    intros l' Hne. by rewrite !lookup_insert_ne.
  - rewrite app_nil_r. done.
Qed.

Lemma do_plot_appends_total_per_selection_witness :
  lists (do_plot "TotalUsedBytes" "DateTimeUTC" (ArgList 7%nat) ArgNone false 5 5
           {| self := self (digest peaks_fixture).2;
              lists := <[7%nat := ["Idle"]]> (lists peaks_fixture);
              plots := [] |}).2 !! 7%nat
  = Some ["Idle"; "TOTAL"; "TOTAL"].
Proof.
  pose proof (do_plot_appends_total_per_selection "TotalUsedBytes" "DateTimeUTC"
    ArgNone false 5 5
    {| self := self (digest peaks_fixture).2;
       lists := <[7%nat := ["Idle"]]> (lists peaks_fixture);
       plots := [] |}
    (default [] (pool_entries (self (digest peaks_fixture).2)))
    ["A"; "B"; "C"; "TOTAL"; "A"; "B"; "C"; "TOTAL"; "A"; "B"; "C"; "TOTAL"]
    [100; 200; 50; 350; 500; 900; 300; 1700; 400; 800; 300; 1500]
    7%nat ["Idle"]) as H.
  assert (H1 : "DateTimeUTC" ∈ valid_timestamp_tags) by by_decide.
  assert (H2 : "TotalUsedBytes" ∈ valid_cols) by by_decide.
  specialize (H H1 H2). clear H1 H2.
  assert (H3 : digest_called (self (digest peaks_fixture).2) = true)
    by (vm_compute; reflexivity).
  specialize (H H3). clear H3.
  assert (H4 : pool_entries (self (digest peaks_fixture).2)
               = Some (default [] (pool_entries (self (digest peaks_fixture).2))))
    by (vm_compute; reflexivity).
  specialize (H H4). clear H4.
  assert (H5 : text_tags (default [] (pool_entries (self (digest peaks_fixture).2)))
                 ["A"; "B"; "C"; "TOTAL"; "A"; "B"; "C"; "TOTAL"; "A"; "B"; "C"; "TOTAL"])
    by (vm_compute; reflexivity).
  specialize (H H5). clear H5.
  assert (H6 : getcol (default [] (pool_entries (self (digest peaks_fixture).2)))
                 "TotalUsedBytes"
               = Ok (IntCol [100; 200; 50; 350; 500; 900; 300; 1700; 400; 800; 300; 1500]))
    by (vm_compute; reflexivity).
  specialize (H H6 eq_refl (lookup_insert_eq _ _ _)).
  destruct H as [H _]. exact H.
Defined.

(** X16.  On a digested Pool [do_plot] asks [show_plot] for a list of tags that
    starts with TOTAL and names no tag twice; it holds every tag of
    [include_tags], and besides TOTAL and those only tags of the Pool;
    it is at most one longer than [include_tags] and the two counts
    together.  The instance and the plotting state are as before when
    [show_plot] is entered. *)
Theorem do_plot_tags_to_plot
    (by_col timestamp_tag : string) (ignore_tags include_tags : pyarg)
    (rcparams : bool) (n_most_changed n_highest : Z) (w : world) (pool : DataFrame)
    (tags : list string) (vals : list Z)
    (Hts : timestamp_tag ∈ valid_timestamp_tags) (Hby : by_col ∈ valid_cols)
    (Hflag : digest_called (self w) = true)
    (Hpool : pool_entries (self w) = Some pool)
    (Htag : text_tags pool tags)
    (Hcol : getcol pool by_col = Ok (IntCol vals))
    (Hlen : length tags = length vals) :
  let include :=
    match include_tags with ArgList l => default [] (lists w !! l) | _ => [] end in
  exists (all : list string) (w' : world),
    do_plot by_col timestamp_tag ignore_tags include_tags rcparams
      n_most_changed n_highest w
    = show_plot all timestamp_tag by_col rcparams w'
    /\ self w' = self w /\ plots w' = plots w
    /\ head all = Some "TOTAL"
    /\ NoDup all
    /\ (forall t, t ∈ include -> t ∈ all)
    /\ (forall t, t ∈ all -> t = "TOTAL" \/ t ∈ include \/ t ∈ tags)
    /\ (length all <= 1 + length include + Z.to_nat n_most_changed
                      + Z.to_nat n_highest)%nat.
Proof.
  cbn zeta.
  destruct (do_plot_run by_col timestamp_tag ignore_tags include_tags rcparams
              n_most_changed n_highest w pool tags vals)
    as (most & highest & Hrun & Hndm & Hndh & Hmm & Hmh & Hlm & Hlh); try done.
  cbn zeta in Hrun.
  set (include := match include_tags with
                  | ArgList l => default [] (lists w !! l) | _ => [] end) in *.
  eexists _, _. split; [exact Hrun|].
  split; [|split; [|split; [|split; [|split; [|split]]]]].
  - rewrite !ignore_with_total_world.
    by destruct (0 <? n_most_changed), (0 <? n_highest), ignore_tags.
  - rewrite !ignore_with_total_world.
    by destruct (0 <? n_most_changed), (0 <? n_highest), ignore_tags.
  - pose proof (add_new_prefix highest (add_new (add_new ["TOTAL"] include) most)) as H1.
    pose proof (add_new_prefix most (add_new ["TOTAL"] include)) as H2.
    pose proof (add_new_prefix include ["TOTAL"]) as H3.
    destruct (transitivity H3 (transitivity H2 H1)) as [rest ->]. done.
  - do 3 apply NoDup_add_new. apply NoDup_singleton.
  - intros t Ht. rewrite !elem_of_add_new. tauto.
  - intros t Ht. rewrite !elem_of_add_new, list_elem_of_singleton in Ht.
    destruct Ht as [[[Ht|Ht]|Ht]|Ht]; [tauto|tauto| |].
    + right. right. by apply Hmm.
    + right. right. by apply Hmh.
  - pose proof (length_add_new highest (add_new (add_new ["TOTAL"] include) most)) as H1.
    pose proof (length_add_new most (add_new ["TOTAL"] include)) as H2.
    pose proof (length_add_new include ["TOTAL"]) as H3.
    simpl in H3. lia.
Qed.

Lemma do_plot_tags_to_plot_witness :
  exists all w',
    do_plot "TotalUsedBytes" "DateTimeUTC" ArgNone ArgNone false 5 5 (digest peaks_fixture).2
    = show_plot all "DateTimeUTC" "TotalUsedBytes" false w'
    /\ head all = Some "TOTAL" /\ NoDup all.
Proof.
  pose proof (do_plot_tags_to_plot "TotalUsedBytes" "DateTimeUTC"
    ArgNone ArgNone false 5 5 (digest peaks_fixture).2
    (default [] (pool_entries (self (digest peaks_fixture).2)))
    ["A"; "B"; "C"; "TOTAL"; "A"; "B"; "C"; "TOTAL"; "A"; "B"; "C"; "TOTAL"]
    [100; 200; 50; 350; 500; 900; 300; 1700; 400; 800; 300; 1500]) as H.
  assert (H1 : "DateTimeUTC" ∈ valid_timestamp_tags) by by_decide.
  assert (H2 : "TotalUsedBytes" ∈ valid_cols) by by_decide.
  specialize (H H1 H2). clear H1 H2.
  assert (H3 : digest_called (self (digest peaks_fixture).2) = true)
    by (vm_compute; reflexivity).
  specialize (H H3). clear H3.
  assert (H4 : pool_entries (self (digest peaks_fixture).2)
               = Some (default [] (pool_entries (self (digest peaks_fixture).2))))
    by (vm_compute; reflexivity).
  specialize (H H4). clear H4.
  assert (H5 : text_tags (default [] (pool_entries (self (digest peaks_fixture).2)))
                 ["A"; "B"; "C"; "TOTAL"; "A"; "B"; "C"; "TOTAL"; "A"; "B"; "C"; "TOTAL"])
    by (vm_compute; reflexivity).
  specialize (H H5). clear H5.
  assert (H6 : getcol (default [] (pool_entries (self (digest peaks_fixture).2)))
                 "TotalUsedBytes"
               = Ok (IntCol [100; 200; 50; 350; 500; 900; 300; 1700; 400; 800; 300; 1500]))
    by (vm_compute; reflexivity).
  specialize (H H6 eq_refl).
  destruct H as (all & w' & Hrun & _ & _ & Hhd & Hnd & _).
  exists all, w'. split; [exact Hrun|]. split; [exact Hhd|exact Hnd].
Defined.

(** ** The entry points *)

Lemma ingest_files files : forall w fs,
  individual_data_frames (self w) = Some fs ->
  foldr (fun df rest => add_csv_file df;; rest) (mret tt) files w
  = (Ok tt,
     with_self {| individual_data_frames := Some (fs ++ files);
                  pool_entries := pool_entries (self w);
                  digest_called := digest_called (self w) |} w).
Proof.
  induction files as [|df files IH]; intros w fs Hfs.
  - simpl. rewrite app_nil_r. unfold with_self. destruct w as [[a b c] l p].
    simpl in *. by subst.
  - cbn [foldr].
    assert (Hadd : add_csv_file df w
                   = (Ok tt, with_self {| individual_data_frames := Some (fs ++ [df]);
                                          pool_entries := pool_entries (self w);
                                          digest_called := digest_called (self w) |} w)).
    { destruct w as [[a b c] l p]. simpl in Hfs. subst a. reflexivity. }
    erewrite bind_ok by exact Hadd.
    rewrite (IH _ (fs ++ [df])) by done. cbn.
    by rewrite <- app_assoc.
Qed.

(** [do_plot] on an undigested pipeline whose [digest] succeeds goes on
    as on the digested one. *)
Lemma do_plot_digests by_col ts ig inc rc nmc nh w pool :
  ts ∈ valid_timestamp_tags -> by_col ∈ valid_cols ->
  digest_called (self w) = false ->
  digest w = (Ok pool, with_self (digested pool) w) ->
  do_plot by_col ts ig inc rc nmc nh w
  = do_plot by_col ts ig inc rc nmc nh (with_self (digested pool) w).
Proof.
  intros Hts Hby Hflag Hdig. unfold do_plot.
  rewrite (bool_decide_eq_true_2 _ Hts), (bool_decide_eq_true_2 _ Hby). cbn [negb].
  erewrite bind_ok by reflexivity. symmetry. erewrite bind_ok by reflexivity.
  erewrite bind_ok by reflexivity. symmetry. erewrite bind_ok by reflexivity.
  rewrite Hflag. cbn [with_self self digested digest_called lists].
  assert (Hd : (digest;; mret tt) w = (Ok tt, with_self (digested pool) w)).
  { unfold mbind, prog_bind. by rewrite Hdig. }
  erewrite bind_ok by exact Hd.
  symmetry. erewrite bind_ok by reflexivity. done.
Qed.

(** X17.  A directory without any matching file: [read_directory] raises the
    error of the empty concatenation.  Nothing is drawn, and the instance
    it made is left marked as digested, without a Pool. *)
Theorem read_directory_of_no_files (w : world) :
  read_directory [] w
  = (Raise ValueError,
     with_self {| individual_data_frames := Some []; pool_entries := None;
                  digest_called := true |} w)
  /\ main [] w = read_directory [] w.
Proof. split; reflexivity. Qed.

(** X18.  A directory of well-formed files with text tags: [read_directory]
    ingests them in the order given, builds the Pool that [digest]
    builds from them, and asks [show_plot] for TotalDiff over UTC with
    TOTAL first and at most ten more tags, each a tag of some file and
    none twice.  No list object is touched. *)
Theorem read_directory_plots_total_diff
    (w : world) (files : list DataFrame) (tagss : list (list string))
    (Hbuf : buffer_ok files)
    (Htags : Forall2 text_tags files tagss) :
  exists (pool : DataFrame) (selected : list string),
    digest (with_self (ingested files) w) = (Ok pool, with_self (digested pool) w)
    /\ read_directory files w
       = show_plot ("TOTAL" :: selected) "DateTimeUTC" "TotalDiff" false
           (with_self (digested pool) w)
    /\ NoDup ("TOTAL" :: selected)
    /\ (length selected <= 10)%nat
    /\ (forall t, t ∈ selected -> exists ts, ts ∈ tagss /\ t ∈ ts).
Proof.
  set (w0 := with_self (ingested files) w).
  destruct (digest_text_pool w0 files tagss eq_refl eq_refl Hbuf Htags)
    as (pool & tags & vals & utc & Hdig & Htag & Hperm & Hcol & Hlen & _).
  change {| self := digested pool; lists := lists w0; plots := plots w0 |}
    with (with_self (digested pool) w) in Hdig.
  assert (H1 : "DateTimeUTC" ∈ valid_timestamp_tags) by by_decide.
  assert (H2 : "TotalDiff" ∈ valid_cols) by by_decide.
  destruct (do_plot_run "TotalDiff" "DateTimeUTC" ArgNone ArgNone false 5 5
              (with_self (digested pool) w) pool tags vals)
    as (most & highest & Hrun & Hndm & Hndh & Hmm & Hmh & Hlm & Hlh); try done.
  cbn zeta in Hrun. cbn [ignore_with_total snd] in Hrun.
  change (if 0 <? 5 then with_self (digested pool) w else with_self (digested pool) w)
    with (with_self (digested pool) w) in Hrun.
  set (all := add_new (add_new (add_new ["TOTAL"] []) most) highest) in *.
  assert (Hpre : ["TOTAL"] `prefix_of` all).
  { unfold all. etrans; [|apply add_new_prefix]. apply (add_new_prefix most ["TOTAL"]). }
  destruct Hpre as [selected Hall]. simpl in Hall.
  assert (Hnd : NoDup all).
  { unfold all. do 3 apply NoDup_add_new. apply NoDup_singleton. }
  exists pool, selected. split; [exact Hdig|].
  split; [|split; [by rewrite <- Hall|split]].
  - rewrite <- Hall. etrans; [|exact Hrun]. unfold read_directory.
    erewrite bind_ok by reflexivity.
    erewrite bind_ok.
    2:{ apply (ingest_files files _ []). reflexivity. }
    by apply (do_plot_digests "TotalDiff" "DateTimeUTC" ArgNone ArgNone false 5 5 w0 pool).
  - assert (Hl : (length all <= 1 + 5 + 5)%nat).
    { unfold all.
      pose proof (length_add_new highest (add_new (add_new ["TOTAL"] []) most)) as Ha.
      pose proof (length_add_new most (add_new ["TOTAL"] [])) as Hb.
      simpl in *. lia. }
    rewrite Hall in Hl. simpl in Hl. lia.
  - intros t Ht.
    assert (Hne : t ≠ "TOTAL").
    { intros ->. rewrite Hall in Hnd. by apply NoDup_cons in Hnd as [Hnd _]. }
    assert (Hin : t ∈ all) by (rewrite Hall; by right).
    unfold all in Hin. rewrite !elem_of_add_new, list_elem_of_singleton in Hin.
    assert (Htg : t ∈ tags).
    { destruct Hin as [[[Hin|Hin]|Hin]|Hin]; [done|by apply elem_of_nil in Hin| |].
      - by apply Hmm.
      - by apply Hmh. }
    rewrite Hperm in Htg. apply list_elem_of_join in Htg as (l & Ht' & Hl).
    apply list_elem_of_fmap in Hl as (ts & -> & Hts).
    unfold tags_with_total in Ht'. apply elem_of_app in Ht' as [Ht'|Ht'].
    + eauto.
    + by apply list_elem_of_singleton in Ht'.
Qed.

Lemma read_directory_plots_total_diff_witness :
  exists pool selected,
    read_directory (default [] (individual_data_frames (self peaks_fixture)))
      (world_of new_PoolEntries)
    = show_plot ("TOTAL" :: selected) "DateTimeUTC" "TotalDiff" false
        (with_self (digested pool) (world_of new_PoolEntries))
    /\ NoDup ("TOTAL" :: selected).
Proof.
  destruct (read_directory_plots_total_diff (world_of new_PoolEntries)
              (default [] (individual_data_frames (self peaks_fixture)))
              [["A"; "B"; "C"]; ["A"; "B"; "C"]; ["A"; "B"; "C"]]%string
              buffer_ok_peaks) as (pool & selected & _ & Hrun & Hnd & _).
  { repeat constructor. }
  exists pool, selected. split; [exact Hrun|exact Hnd].
Defined.

(** ** Equal scores *)

(** The descending order keeps equal keys in their original order when
    the sort finishes by insertion: reversing before and after an
    ascending stable sort undoes itself on ties. *)
Lemma nargsort_descending_ties keys :
  (length keys <= 17)%nat -> ties_in_order keys (nargsort keys false).
Proof.
  intros Hsmall i j a b Hij Ha Hb Heq. unfold nargsort in Ha, Hb.
  set (n := length keys) in *.
  set (A := Npysort.argsort (reverse keys)) in *.
  assert (HlA : length A = n) by (unfold A; by rewrite length_argsort, length_reverse).
  assert (Hrange : forall k x, A !! k = Some x -> (x < n)%nat).
  { intros k x Hx. pose proof (argsort_in_range (reverse keys)) as Hr.
    rewrite Forall_forall in Hr. rewrite length_reverse in Hr. apply Hr.
    by eapply list_elem_of_lookup_2. }
  assert (Hj : (j < n)%nat).
  { apply lookup_lt_Some in Hb. by rewrite length_reverse, length_fmap, HlA in Hb. }
  rewrite reverse_lookup in Ha by (rewrite length_fmap, HlA; lia).
  rewrite reverse_lookup in Hb by (rewrite length_fmap, HlA; lia).
  rewrite length_fmap, HlA in Ha, Hb.
  rewrite list_lookup_fmap in Ha, Hb.
  destruct (A !! (n - S i)%nat) as [a'|] eqn:Ea; [|done].
  destruct (A !! (n - S j)%nat) as [b'|] eqn:Eb; [|done].
  simpl in Ha, Hb. injection Ha as <-. injection Hb as <-.
  pose proof (Hrange _ _ Ea) as Ha'. pose proof (Hrange _ _ Eb) as Hb'.
  rewrite !lookup_total_reverse_seq in * by done.
  assert (Hsr : (length (reverse keys) <= 17)%nat) by (by rewrite length_reverse).
  pose proof (argsort_ties_small (reverse keys) Hsr (n - S j)%nat (n - S i)%nat b' a')
    as Hties.
  rewrite !lookup_total_reverse in Hties by done. fold n in Hties.
  assert (b' < a')%nat; [|lia].
  apply Hties; [lia|done|done|]. by symmetry.
Qed.

Lemma top_names_ties f tags vals n :
  (length (group_keys tags) <= 17)%nat ->
  forall i j a b, (i < j)%nat ->
    top_names (groupby_agg f tags vals) n !! i = Some a ->
    top_names (groupby_agg f tags vals) n !! j = Some b ->
    f (group_rows tags vals a) = f (group_rows tags vals b) ->
    key_lt a b.
Proof.
  intros Hsmall i j a b Hij Ha Hb Heq.
  set (groups := groupby_agg f tags vals) in *.
  set (indexer := nargsort groups.*2 false).
  assert (Hlg : length groups = length (group_keys tags)).
  { unfold groups, groupby_agg. by rewrite length_fmap. }
  assert (Hperm : indexer ≡ₚ seq 0 (length groups)).
  { unfold indexer. rewrite nargsort_descending_Permutation. by rewrite length_fmap. }
  assert (Hrange : Forall (fun i => (i < length groups)%nat) indexer).
  { apply Forall_forall. intros k Hk. by eapply Permutation_seq_lt. }
  assert (Hfull : forall k t, top_names groups n !! k = Some t ->
            (take_rows indexer groups).*1 !! k = Some t).
  { intros k t. unfold top_names, head_rows. fold indexer.
    destruct (n <? 0); rewrite fmap_take; intros H;
      by apply lookup_take_Some in H as [H _]. }
  apply Hfull in Ha, Hb.
  rewrite list_lookup_fmap in Ha, Hb.
  destruct (take_rows indexer groups !! i) as [[a' sa]|] eqn:Ea; [|done].
  destruct (take_rows indexer groups !! j) as [[b' sb]|] eqn:Eb; [|done].
  simpl in Ha, Hb. injection Ha as ->. injection Hb as ->.
  assert (Hli : (i < length indexer)%nat).
  { apply lookup_lt_Some in Ea. by rewrite length_take_rows in Ea. }
  assert (Hlj : (j < length indexer)%nat).
  { apply lookup_lt_Some in Eb. by rewrite length_take_rows in Eb. }
  destruct (lookup_lt_is_Some_2 indexer i Hli) as [ia Hia].
  destruct (lookup_lt_is_Some_2 indexer j Hlj) as [ib Hib].
  rewrite (lookup_take_rows indexer groups i ia Hrange Hia) in Ea.
  rewrite (lookup_take_rows indexer groups j ib Hrange Hib) in Eb.
  assert (Hsa : groups.*2 !!! ia = sa).
  { apply list_lookup_total_correct. by rewrite list_lookup_fmap, Ea. }
  assert (Hsb : groups.*2 !!! ib = sb).
  { apply list_lookup_total_correct. by rewrite list_lookup_fmap, Eb. }
  pose proof (groupby_agg_lookup _ _ _ _ _ _ Ea) as Hfa.
  pose proof (groupby_agg_lookup _ _ _ _ _ _ Eb) as Hfb.
  assert (Hlt : (ia < ib)%nat).
  { apply (nargsort_descending_ties groups.*2) with (i := i) (j := j); try done.
    - rewrite length_fmap. lia.
    - rewrite Hsa, Hsb. congruence. }
  apply (NpysortFacts.StronglySorted_lookup key_lt (group_keys tags)
           (group_keys_sorted tags) ia ib a b Hlt).
  - rewrite <- (groupby_agg_keys f tags vals). fold groups.
    by rewrite list_lookup_fmap, Ea.
  - rewrite <- (groupby_agg_keys f tags vals). fold groups.
    by rewrite list_lookup_fmap, Eb.
Qed.

Lemma select_tags_ties f n by_col ign w pool tags vals :
  pool_entries (self w) = Some pool ->
  text_tags pool tags ->
  getcol pool by_col = Ok (IntCol vals) ->
  length tags = length vals -> by_col ≠ "Tag" ->
  (forall cands : list string,
     NoDup cands -> (forall t, t ∈ cands -> t ∈ tags) -> (length cands <= 17)%nat) ->
  exists sel,
    select_tags f n by_col ign w = (Ok sel, w)
    /\ forall i j a b, (i < j)%nat -> sel !! i = Some a -> sel !! j = Some b ->
         f (group_rows tags vals a) = f (group_rows tags vals b) ->
         key_lt a b.
Proof.
  intros Hpool Htag Hcol Hlen Hby Hsmall.
  set (keep := fun t : string => negb (bool_decide (t ∈ ign))).
  set (mask := keep <$> tags).
  set (sel := top_names (groupby_agg f (mask_rows mask tags) (mask_rows mask vals)) n).
  destruct (top_names_ranked f (mask_rows mask tags) (mask_rows mask vals) n)
    as (ranked & Htop & Hperm & _).
  fold sel in Htop.
  assert (Hkept : forall t, t ∈ sel -> keep t = true).
  { intros t Ht. rewrite Htop in Ht. apply head_rows_subseteq in Ht.
    rewrite Hperm, elem_of_group_keys in Ht. unfold mask in Ht.
    by apply elem_of_mask_rows in Ht as [_ Ht]. }
  exists sel. split.
  - unfold select_tags, pool_col. run_prog. rewrite Hpool. cbn -[frame_map top_names].
    rewrite Htag, Hpool. cbn -[frame_map top_names].
    rewrite !getcol_frame_map, Htag, Hcol. cbn -[top_names].
    apply String.eqb_neq in Hby. rewrite Hby.
    rewrite isin_CStr. fold keep. fold mask.
    by rewrite mask_rows_fmap, str_cells_fmap.
  - intros i j a b Hij Ha Hb Heq.
    assert (Hka : keep a = true) by (apply Hkept; by eapply list_elem_of_lookup_2).
    assert (Hkb : keep b = true) by (apply Hkept; by eapply list_elem_of_lookup_2).
    apply (top_names_ties f (mask_rows mask tags) (mask_rows mask vals) n) with i j;
      try done.
    + apply Hsmall; [apply group_keys_NoDup|].
      intros t Ht. apply (proj1 (elem_of_group_keys _ _)) in Ht. unfold mask in Ht.
      by apply (proj1 (elem_of_mask_rows _ _ _)) in Ht as [Ht _].
    + unfold mask. by rewrite !group_rows_mask.
Qed.

(** X19.  With at most 17 distinct tags in the Pool, the order among tags of
    equal score is fixed: in the result of either selection the one that
    sorts first as a string comes first.  (Above that size the default
    quicksort decides, as for the rows of the Pool.) *)
Theorem equal_scores_rank_alphabetically
    (w : world) (pool : DataFrame) (tags : list string) (vals : list Z)
    (n : Z) (by_col : string) (ignore_tags : option pyarg)
    (Hpool : pool_entries (self w) = Some pool)
    (Htag : text_tags pool tags)
    (Hcol : getcol pool by_col = Ok (IntCol vals))
    (Hlen : length tags = length vals)
    (Hby : by_col ≠ "Tag")
    (Hsmall : forall cands : list string,
       NoDup cands -> (forall t, t ∈ cands -> t ∈ tags) -> (length cands <= 17)%nat) :
  exists highest most_changed : list string,
    (get_highest_tags n by_col ignore_tags w).1 = Ok highest
    /\ (get_most_changed_tags n by_col ignore_tags w).1 = Ok most_changed
    /\ (forall i j a b, (i < j)%nat ->
          highest !! i = Some a -> highest !! j = Some b ->
          agg_max (group_rows tags vals a) = agg_max (group_rows tags vals b) ->
          String.ltb a b = true)
    /\ (forall i j a b, (i < j)%nat ->
          most_changed !! i = Some a -> most_changed !! j = Some b ->
          get_change (group_rows tags vals a) = get_change (group_rows tags vals b) ->
          String.ltb a b = true).
Proof.
  destruct (ignore_with_total_run w get_highest_tags_default ignore_tags)
    as (w1 & Hrun1 & Hself1).
  destruct (ignore_with_total_run w get_most_changed_tags_default ignore_tags)
    as (w2 & Hrun2 & Hself2).
  destruct (select_tags_ties agg_max n by_col
              (ignore_content w get_highest_tags_default ignore_tags ++ ["TOTAL"])
              w1 pool tags vals) as (highest & Hh & Hth); try done;
    [by rewrite Hself1|].
  destruct (select_tags_ties get_change n by_col
              (ignore_content w get_most_changed_tags_default ignore_tags ++ ["TOTAL"])
              w2 pool tags vals) as (most & Hm & Htm); try done;
    [by rewrite Hself2|].
  exists highest, most. split; [|split; [|split; [exact Hth|exact Htm]]].
  - unfold get_highest_tags, mbind, prog_bind. cbn zeta. by rewrite Hrun1, Hh.
  - unfold get_most_changed_tags, mbind, prog_bind. cbn zeta. by rewrite Hrun2, Hm.
Qed.

(** A duplicate-free list drawn from a list is not longer than it. *)
Lemma few_distinct (universe cands : list string) :
  NoDup cands -> (forall t, t ∈ cands -> t ∈ universe) ->
  (length cands <= length universe)%nat.
Proof. intros Hnd Hsub. by apply submseteq_length, NoDup_submseteq. Qed.

Lemma equal_scores_rank_alphabetically_witness :
  exists highest,
    (get_highest_tags 3 "PagedDiff" (Some ArgNone) (digest peaks_fixture).2).1 = Ok highest
    /\ forall i j a b, (i < j)%nat ->
         highest !! i = Some a -> highest !! j = Some b ->
         agg_max (group_rows
                    ["A"; "B"; "C"; "TOTAL"; "A"; "B"; "C"; "TOTAL"; "A"; "B"; "C"; "TOTAL"]
                    [1; 2; 3; 6; 1; 2; 3; 6; 1; 2; 3; 6] a)
         = agg_max (group_rows
                    ["A"; "B"; "C"; "TOTAL"; "A"; "B"; "C"; "TOTAL"; "A"; "B"; "C"; "TOTAL"]
                    [1; 2; 3; 6; 1; 2; 3; 6; 1; 2; 3; 6] b) ->
         String.ltb a b = true.
Proof.
  pose proof (equal_scores_rank_alphabetically (digest peaks_fixture).2
    (default [] (pool_entries (self (digest peaks_fixture).2)))
    ["A"; "B"; "C"; "TOTAL"; "A"; "B"; "C"; "TOTAL"; "A"; "B"; "C"; "TOTAL"]
    [1; 2; 3; 6; 1; 2; 3; 6; 1; 2; 3; 6]
    3 "PagedDiff" (Some ArgNone)) as H.
  assert (H1 : pool_entries (self (digest peaks_fixture).2)
               = Some (default [] (pool_entries (self (digest peaks_fixture).2))))
    by (vm_compute; reflexivity).
  specialize (H H1). clear H1.
  assert (H2 : text_tags (default [] (pool_entries (self (digest peaks_fixture).2)))
                 ["A"; "B"; "C"; "TOTAL"; "A"; "B"; "C"; "TOTAL"; "A"; "B"; "C"; "TOTAL"])
    by (vm_compute; reflexivity).
  specialize (H H2). clear H2.
  assert (H3 : getcol (default [] (pool_entries (self (digest peaks_fixture).2)))
                 "PagedDiff"
               = Ok (IntCol [1; 2; 3; 6; 1; 2; 3; 6; 1; 2; 3; 6]))
    by (vm_compute; reflexivity).
  specialize (H H3 eq_refl ltac:(discriminate)).
  destruct (H (fun cands Hnd Hsub =>
                 Nat.le_trans _ _ _ (few_distinct _ cands Hnd Hsub)
                   (proj1 (Nat.leb_le 12 17) eq_refl)))
    as (highest & most & Hh & _ & Hties & _).
  exists highest. split; [exact Hh|exact Hties].
Defined.

(** ** Files without a mark *)

(** X20.  A file that is empty, or whose first byte is none of EF, FF, FE and
    00, starts with no mark of the table: it is read as [utf-8], on
    either host.  Plain ASCII exports fall here. *)
Theorem GetEncoding_without_mark (host : Codecs.byteorder)
    (fs : gmap string (list byte)) (filename : string) (content : list byte)
    (Hfile : fs !! filename = Some content)
    (Hfirst : forall b, head content = Some b -> b ∉ [xef; xff; xfe; x00]) :
  GetEncoding host fs filename = Ok "utf-8".
Proof.
  unfold GetEncoding. rewrite Hfile. f_equal.
  rewrite guess_encoding_first_match. cbv zeta.
  assert (Hno : forall b bom, b ∈ [xef; xff; xfe; x00] ->
            Codecs.startswith (take 64 content) (b :: bom) = false).
  { intros b bom Hb. destruct content as [|c content]; [done|].
    cbn [take Codecs.startswith].
    destruct (Byte.eqb c b) eqn:E; [|done].
    apply Byte.byte_dec_bl in E. subst. exfalso. by apply (Hfirst b). }
  unfold Codecs.BOM_UTF8, Codecs.BOM_UTF32_BE, Codecs.BOM_UTF32_LE,
    Codecs.BOM_UTF16_BE, Codecs.BOM_UTF16_LE.
  assert (H16 : Codecs.startswith (take 64 content) (Codecs.BOM_UTF16 host) = false).
  { destruct host; apply Hno; set_solver. }
  rewrite H16, !Hno by set_solver. done.
Qed.

Lemma GetEncoding_without_mark_witness :
  GetEncoding Codecs.little {[ "a_pool.csv"%string := [x54; x61; x67] ]} "a_pool.csv"
  = Ok "utf-8".
Proof.
  apply (GetEncoding_without_mark Codecs.little _ "a_pool.csv" [x54; x61; x67]).
  - apply lookup_singleton_eq.
  - intros b [= <-]. rewrite !elem_of_cons, elem_of_nil.
    intros [H|[H|[H|[H|[]]]]]; discriminate H.
Defined.

(** ** Normalization, further *)

Lemma wrap64_add_r a b : wrap64 (a + wrap64 b) = wrap64 (a + b).
Proof. rewrite (Z.add_comm a (wrap64 b)), wrap64_add_l. f_equal. lia. Qed.

Lemma Zsum_zip_add64 ps : forall qs,
  length ps = length qs ->
  wrap64 (Zsum (zip_with add64 ps qs)) = wrap64 (Zsum ps + Zsum qs).
Proof.
  induction ps as [|p ps IH]; intros [|q qs] Hlen; try done.
  simpl in Hlen. injection Hlen as Hlen. specialize (IH qs Hlen).
  cbn [zip_with].
  change (wrap64 (add64 p q + Zsum (zip_with add64 ps qs))
          = wrap64 (p + Zsum ps + (q + Zsum qs))).
  unfold add64 at 1. rewrite wrap64_add_l.
  rewrite <- (wrap64_add_r (p + q)), IH, wrap64_add_r. f_equal. lia.
Qed.

Lemma sum64_zip_add64 ps qs :
  length ps = length qs ->
  sum64 (zip_with add64 ps qs) = add64 (sum64 ps) (sum64 qs).
Proof.
  intros Hlen. rewrite !sum64_Zsum. unfold add64 at 2.
  rewrite wrap64_add_l, wrap64_add_r. by apply Zsum_zip_add64.
Qed.

(** X21.  Totals and TotalDiff agree: on a table with its Total Row, the sum
    of the two allocation counters that [digest] stores as TotalDiff is,
    on the Total Row, the int64 sum of what it is on the rows above. *)
Theorem total_row_total_diff (df : DataFrame) (ps qs : list Z)
    (Hnd : NoDup (columns df)) (Htag : "Tag" ∈ columns df)
    (Hrect : rectangular df) (Hrows : nrows df ≠ 0%nat)
    (Hp : getcol df "PagedDiff" = Ok (IntCol ps))
    (Hq : getcol df "NonPagedDiff" = Ok (IntCol qs)) :
  exists df' paged nonpaged,
    add_totals_row df = Ok df'
    /\ getcol df' "PagedDiff" = Ok paged
    /\ getcol df' "NonPagedDiff" = Ok nonpaged
    /\ column_add paged nonpaged
       = Ok (IntCol (zip_with add64 ps qs ++ [sum64 (zip_with add64 ps qs)])).
Proof.
  assert (Hlen : length ps = length qs).
  { apply (rectangular_getcol _ _ _ Hrect) in Hp, Hq. simpl in Hp, Hq.
    rewrite length_fmap in Hp, Hq. lia. }
  exists (with_total df), (IntCol (ps ++ [sum64 ps])), (IntCol (qs ++ [sum64 qs])).
  split; [|split; [|split]].
  - apply add_totals_row_with_total; [done|done|by apply rectangular_rows].
  - by rewrite getcol_with_total, Hp.
  - by rewrite getcol_with_total, Hq.
  - simpl. f_equal. f_equal.
    rewrite zip_with_app by done. simpl. by rewrite sum64_zip_add64.
Qed.

Lemma total_row_total_diff_witness :
  exists df' paged nonpaged,
    add_totals_row ratio_fixture = Ok df'
    /\ getcol df' "PagedDiff" = Ok paged
    /\ getcol df' "NonPagedDiff" = Ok nonpaged
    /\ column_add paged nonpaged = Ok (IntCol [11; 22; 33]).
Proof.
  apply (total_row_total_diff ratio_fixture [10; 20] [1; 2]).
  - by_decide.
  - by_decide.
  - unfold rectangular. repeat constructor.
  - discriminate.
  - reflexivity.
  - reflexivity.
Defined.

(** X22.  When every tag of a file reads as a number, pandas gives the Tag
    column an integer dtype and the loop over the integer columns then
    overwrites the label: the Total Row carries the sum of the tags, and
    no row is called TOTAL. *)
Theorem add_totals_row_of_numeric_tags (df : DataFrame) (xs : list Z)
    (Hnd : NoDup (columns df)) (Hrect : rectangular df) (Hrows : nrows df ≠ 0%nat)
    (Htag : getcol df "Tag" = Ok (IntCol xs)) :
  exists df',
    add_totals_row df = Ok df'
    /\ getcol df' "Tag" = Ok (IntCol (xs ++ [sum64 xs]))
    /\ forall i, getcell df' "Tag" i ≠ Some (CStr "TOTAL").
Proof.
  exists (with_total df). split; [|split].
  - apply add_totals_row_with_total; [done| |by apply rectangular_rows].
    by eapply getcol_columns.
  - by rewrite getcol_with_total, Htag.
  - intros i. unfold getcell. rewrite getcol_with_total, Htag. simpl.
    rewrite list_lookup_fmap. by destruct ((xs ++ [sum64 xs]) !! i).
Qed.

Lemma add_totals_row_of_numeric_tags_witness :
  exists df',
    add_totals_row [("Tag", IntCol [1001; 1002]); ("PagedDiff", IntCol [5; 6])] = Ok df'
    /\ getcol df' "Tag" = Ok (IntCol [1001; 1002; 2003]).
Proof.
  destruct (add_totals_row_of_numeric_tags
              [("Tag", IntCol [1001; 1002]); ("PagedDiff", IntCol [5; 6])] [1001; 1002])
    as (df' & H1 & H2 & _).
  - by_decide.
  - unfold rectangular. repeat constructor.
  - discriminate.
  - reflexivity.
  - exists df'. split; [exact H1|exact H2].
Defined.

(** ** Reporting: what can go wrong before the drawing *)

Lemma getcol_Unmodelled df name : getcol df name ≠ Unmodelled.
Proof.
  induction df as [|[k c] df IH]; [done|]. simpl.
  by destruct (String.eqb k name).
Qed.

(** X23.  The six names [show_plot] accepts are names, not columns: when the
    Pool lacks Tag, the column asked for, or DateTimeUTC, [show_plot]
    raises [KeyError] after the [rcParams] update, if one was given;
    nothing is drawn and the pipeline is as before. *)
Theorem show_plot_of_missing_column
    (tags : list string) (timestamp_tag by_col : string) (rcparams : bool) (w : world)
    (pool : DataFrame)
    (Hts : timestamp_tag ∈ valid_timestamp_tags)
    (Hby : by_col ∈ valid_cols)
    (Hpool : pool_entries (self w) = Some pool)
    (Hmiss : "Tag" ∉ columns pool \/ by_col ∉ columns pool
             \/ "DateTimeUTC" ∉ columns pool) :
  show_plot tags timestamp_tag by_col rcparams w
  = (Raise KeyError,
     {| self := self w; lists := lists w;
        plots := plots w ++ (if rcparams then [RcParamsUpdate] else []) |}).
Proof.
  unfold show_plot.
  rewrite (bool_decide_eq_true_2 _ Hts), (bool_decide_eq_true_2 _ Hby).
  unfold pool_col. run_prog.
  assert (Hrest : forall tag,
            getcol pool "Tag" = Ok tag ->
            exists e : unit + unit,
              match e with
              | inl _ => getcol pool by_col = Raise KeyError
              | inr _ => (exists c, getcol pool by_col = Ok c)
                         /\ getcol pool "DateTimeUTC" = Raise KeyError
              end).
  { intros tag Htag. destruct Hmiss as [Hm|[Hm|Hm]].
    - apply getcol_missing in Hm. congruence.
    - exists (inl tt). by apply getcol_missing.
    - destruct (getcol pool by_col) as [c|e|] eqn:E.
      + exists (inr tt). split; [eauto|]. by apply getcol_missing.
      + exists (inl tt). by apply getcol_not_raise_other in E as ->.
      + by apply getcol_Unmodelled in E. }
  destruct rcparams; cbn -[frame_map]; rewrite Hpool; cbn -[frame_map].
  - destruct (getcol pool "Tag") as [tag|e|] eqn:Etag; cbn -[frame_map].
    + rewrite Hpool. cbn [default from_option id].
      rewrite !getcol_frame_map, Etag. cbn -[frame_map].
      destruct (Hrest tag eq_refl) as [[[]|[]] H].
      * by rewrite H.
      * destruct H as [[c Hc] Hu]. by rewrite Hc, Hu.
    + by apply getcol_not_raise_other in Etag as ->.
    + by apply getcol_Unmodelled in Etag.
  - rewrite app_nil_r.
    destruct (getcol pool "Tag") as [tag|e|] eqn:Etag; cbn -[frame_map].
    + rewrite Hpool. cbn [default from_option id].
      rewrite !getcol_frame_map, Etag. cbn -[frame_map].
      destruct (Hrest tag eq_refl) as [[[]|[]] H].
      * rewrite H. by destruct w.
      * destruct H as [[c Hc] Hu]. rewrite Hc, Hu. by destruct w.
    + apply getcol_not_raise_other in Etag as ->. by destruct w.
    + by apply getcol_Unmodelled in Etag.
Qed.

Lemma show_plot_of_missing_column_witness :
  (show_plot ["TOTAL"] "DateTimeUTC" "PagedUsedBytes" false (digest peaks_fixture).2).1
  = Raise KeyError.
Proof.
  assert (H1 : "DateTimeUTC" ∈ valid_timestamp_tags) by by_decide.
  assert (H2 : "PagedUsedBytes" ∈ valid_cols) by by_decide.
  assert (H3 : pool_entries (self (digest peaks_fixture).2)
               = Some (default [] (pool_entries (self (digest peaks_fixture).2))))
    by (vm_compute; reflexivity).
  assert (H4 : "PagedUsedBytes"
               ∉ columns (default [] (pool_entries (self (digest peaks_fixture).2)))).
  { apply (bool_decide_eq_false_1 _). vm_compute. reflexivity. }
  rewrite (show_plot_of_missing_column ["TOTAL"] "DateTimeUTC" "PagedUsedBytes" false
             (digest peaks_fixture).2 _ H1 H2 H3 (or_intror (or_introl H4))).
  reflexivity.
Defined.

Lemma digest_keeps w :
  lists (digest w).2 = lists w /\ plots (digest w).2 = plots w.
Proof.
  destruct (digest_called (self w)) eqn:Hflag.
  - by rewrite digest_again.
  - unfold digest. run_prog. rewrite Hflag. cbn -[mapM].
    destruct (individual_data_frames (self w)) as [frames|]; cbn -[mapM]; try done.
    repeat (case_outcome; cbn -[mapM]; try done).
Qed.

(** X24.  [do_plot] digests on demand, and only then goes on: on an undigested
    pipeline and with valid arguments, a [digest] that returns is
    followed by what [do_plot] does on the digested pipeline, and a
    [digest] that raises ends [do_plot] with that error, in the state
    the failed [digest] left; up to there no list object has changed and
    nothing has reached the plotting library. *)
Theorem do_plot_digests_on_demand
    (by_col timestamp_tag : string) (ignore_tags include_tags : pyarg)
    (rcparams : bool) (n_most_changed n_highest : Z) (w : world)
    (Hts : timestamp_tag ∈ valid_timestamp_tags) (Hby : by_col ∈ valid_cols)
    (Hflag : digest_called (self w) = false) :
  (forall pool w1, digest w = (Ok pool, w1) ->
     do_plot by_col timestamp_tag ignore_tags include_tags rcparams
       n_most_changed n_highest w
     = do_plot by_col timestamp_tag ignore_tags include_tags rcparams
         n_most_changed n_highest w1)
  /\ (forall e, (digest w).1 = Raise e ->
        do_plot by_col timestamp_tag ignore_tags include_tags rcparams
          n_most_changed n_highest w
        = (Raise e, (digest w).2))
  /\ lists (digest w).2 = lists w /\ plots (digest w).2 = plots w.
Proof.
  split; [|split; [|apply digest_keeps]].
  - intros pool w1 Hdig.
    assert (Hflag1 : digest_called (self w1) = true).
    { pose proof (digest_sets_flag w) as H. by rewrite Hdig in H. }
    assert (Hlists : lists w1 = lists w).
    { pose proof (digest_keeps w) as [H _]. by rewrite Hdig in H. }
    unfold do_plot.
    rewrite (bool_decide_eq_true_2 _ Hts), (bool_decide_eq_true_2 _ Hby). cbn [negb].
    erewrite bind_ok by reflexivity. symmetry. erewrite bind_ok by reflexivity.
    erewrite bind_ok by reflexivity. symmetry. erewrite bind_ok by reflexivity.
    rewrite Hflag, Hflag1, Hlists.
    assert (Hd : (digest;; mret tt) w = (Ok tt, w1)).
    { unfold mbind, prog_bind. by rewrite Hdig. }
    erewrite bind_ok by exact Hd.
    symmetry. erewrite bind_ok by reflexivity. done.
  - intros e Hfail. unfold do_plot.
    rewrite (bool_decide_eq_true_2 _ Hts), (bool_decide_eq_true_2 _ Hby). cbn [negb].
    erewrite bind_ok by reflexivity. erewrite bind_ok by reflexivity.
    rewrite Hflag. unfold mbind, prog_bind.
    destruct (digest w) as [o w1]. simpl in Hfail. by subst.
Qed.

Lemma do_plot_digests_on_demand_witness :
  do_plot "TotalDiff" "DateTimeUTC" ArgNone ArgNone false 5 5 (world_of new_PoolEntries)
  = (Raise ValueError, (digest (world_of new_PoolEntries)).2).
Proof.
  assert (H1 : "DateTimeUTC" ∈ valid_timestamp_tags) by by_decide.
  assert (H2 : "TotalDiff" ∈ valid_cols) by by_decide.
  destruct (do_plot_digests_on_demand "TotalDiff" "DateTimeUTC" ArgNone ArgNone false 5 5
              (world_of new_PoolEntries) H1 H2 eq_refl) as (_ & H & _).
  exact (H ValueError eq_refl).
Defined.
